(** * curasync: a shallow embedding of the command-line tool and its properties

    The program (a single TypeScript module run by Bun) resolves the Cura
    configuration directory, checks a few preconditions while the module is
    loaded, and then dispatches one subcommand.  Everything it does is a
    sequence of calls into the runtime: subprocesses, terminal prompts,
    console output, one file write.

    The embedding keeps that shape.  A [World] records what the runtime
    answers; a computation is a function from the unread terminal lines to a
    [Run]: how the computation ends, the events it emitted in order, and the
    lines left unread. *)

From Stdlib Require Import String Ascii List ZArith Bool Lia.
From Stdlib Require Import DecimalString.
Import ListNotations.
Open Scope string_scope.
Open Scope list_scope.

Infix "+++" := String.append (right associativity, at level 60).

(** ** JavaScript text primitives

    Text is a byte string holding UTF-8, as it arrives from the terminal and
    from subprocess output. *)

Module Js.

Definition chars (s : string) : list ascii := list_ascii_of_string s.
Definition text (l : list ascii) : string := string_of_list_ascii l.
Definition code (c : ascii) : nat := nat_of_ascii c.

(** The characters [String.prototype.trim] removes (WhiteSpace and
    LineTerminator of ECMA-262), by their UTF-8 encoding: one byte for
    TAB, LF, VT, FF, CR and SP; two for U+00A0; three for U+1680,
    U+2000..U+200A, U+2028, U+2029, U+202F, U+205F, U+3000 and U+FEFF. *)
Definition ws1 (a : ascii) : bool :=
  let n := code a in ((9 <=? n) && (n <=? 13) || (n =? 32))%nat.

Definition ws2 (a b : ascii) : bool :=
  ((code a =? 194) && (code b =? 160))%nat.

Definition ws3 (a b c : ascii) : bool :=
  let x := code a in let y := code b in let z := code c in
  ((x =? 225) && (y =? 154) && (z =? 128)
   || (x =? 226) && (y =? 128)
      && ((128 <=? z) && (z <=? 138) || (z =? 168) || (z =? 169) || (z =? 175))
   || (x =? 226) && (y =? 129) && (z =? 159)
   || (x =? 227) && (y =? 128) && (z =? 128)
   || (x =? 239) && (y =? 187) && (z =? 191))%nat.

(** [strip fwd l] drops white space from the front of [l]; with
    [fwd = false] the list is read back to front, so multi-byte characters
    arrive last byte first. *)
Fixpoint strip (fwd : bool) (l : list ascii) : list ascii :=
  match l with
  | [] => []
  | a :: l1 =>
    if ws1 a then strip fwd l1 else
    match l1 with
    | [] => l
    | b :: l2 =>
      if (if fwd then ws2 a b else ws2 b a) then strip fwd l2 else
      match l2 with
      | [] => l
      | c :: l3 => if (if fwd then ws3 a b c else ws3 c b a) then strip fwd l3 else l
      end
    end
  end.

Definition trim_chars (l : list ascii) : list ascii :=
  rev (strip false (rev (strip true l))).

Definition trim (s : string) : string := text (trim_chars (chars s)).

(** [toLowerCase], on the ASCII letters.  Characters outside ASCII are left
    as they are: the program only compares the result with "y", "n" and the
    empty string, and no character outside ASCII lower-cases to "y" or "n". *)
Definition lower_char (a : ascii) : ascii :=
  let n := code a in
  if ((65 <=? n) && (n <=? 90))%nat then ascii_of_nat (n + 32) else a.

Definition toLowerCase (s : string) : string := text (map lower_char (chars s)).

(** *** Numbers

    [Number(s)] yields NaN or the value of a StringNumericLiteral.  A value is
    kept as the literal gives it, [m * 10^e] or an infinity, not rounded to
    binary64; NaN is [None]. *)
Inductive number : Type :=
| Finite (m e : Z)
| Infinite (negative : bool).

Definition dec_digit (a : ascii) : option Z :=
  let n := code a in
  if ((48 <=? n) && (n <=? 57))%nat then Some (Z.of_nat n - 48)%Z else None.

Definition hex_digit (a : ascii) : option Z :=
  let n := code a in
  if ((48 <=? n) && (n <=? 57))%nat then Some (Z.of_nat n - 48)%Z
  else if ((97 <=? n) && (n <=? 102))%nat then Some (Z.of_nat n - 87)%Z
  else if ((65 <=? n) && (n <=? 70))%nat then Some (Z.of_nat n - 55)%Z
  else None.

Definition oct_digit (a : ascii) : option Z :=
  let n := code a in
  if ((48 <=? n) && (n <=? 55))%nat then Some (Z.of_nat n - 48)%Z else None.

Definition bin_digit (a : ascii) : option Z :=
  let n := code a in
  if ((48 <=? n) && (n <=? 49))%nat then Some (Z.of_nat n - 48)%Z else None.

(** The longest run of digits at the front of [l], and what follows it. *)
Fixpoint read_digits (digit : ascii -> option Z) (l : list ascii)
  : list Z * list ascii :=
  match l with
  | [] => ([], [])
  | a :: l' =>
    match digit a with
    | Some d => let (ds, r) := read_digits digit l' in (d :: ds, r)
    | None => ([], l)
    end
  end.

Definition digits_value (radix : Z) (ds : list Z) : Z :=
  fold_left (fun acc d => acc * radix + d)%Z ds 0%Z.

Definition is_char (n : nat) (a : ascii) : bool := (code a =? n)%nat.

(** NonDecimalIntegerLiteral: 0x, 0o or 0b (either case) and at least one
    digit of the radix, nothing after. *)
Definition non_decimal (l : list ascii) : option number :=
  match l with
  | z :: p :: ds =>
    if is_char 48 z then
      let lit digit radix :=
        match read_digits digit ds with
        | (d :: vs, []) => Some (Finite (digits_value radix (d :: vs)) 0)
        | _ => None
        end in
      if is_char 120 p || is_char 88 p then lit hex_digit 16%Z
      else if is_char 111 p || is_char 79 p then lit oct_digit 8%Z
      else if is_char 98 p || is_char 66 p then lit bin_digit 2%Z
      else None
    else None
  | _ => None
  end.

(** ExponentPart, or nothing: [e] or [E], an optional sign, digits. *)
Definition exponent (l : list ascii) : option Z :=
  match l with
  | [] => Some 0%Z
  | a :: l1 =>
    if is_char 101 a || is_char 69 a then
      let (neg, l2) :=
        match l1 with
        | s :: r => if is_char 45 s then (true, r)
                    else if is_char 43 s then (false, r) else (false, l1)
        | [] => (false, l1)
        end in
      match read_digits dec_digit l2 with
      | (d :: vs, []) =>
        let v := digits_value 10 (d :: vs) in Some (if neg then (- v)%Z else v)
      | _ => None
      end
    else None
  end.

(** StrUnsignedDecimalLiteral other than Infinity. *)
Definition unsigned_decimal (l : list ascii) : option (Z * Z) :=
  let (ip, r1) := read_digits dec_digit l in
  let (fp, r2) :=
    match r1 with
    | a :: r => if is_char 46 a then read_digits dec_digit r else ([], r1)
    | [] => ([], r1)
    end in
  match ip ++ fp with
  | [] => None
  | ds =>
    match exponent r2 with
    | Some x => Some (digits_value 10 ds, (x - Z.of_nat (length fp))%Z)
    | None => None
    end
  end.

Definition decimal (l : list ascii) : option number :=
  let (neg, body) :=
    match l with
    | s :: r => if is_char 45 s then (true, r)
                else if is_char 43 s then (false, r) else (false, l)
    | [] => (false, l)
    end in
  if (text body =? "Infinity")%string then Some (Infinite neg)
  else
    match unsigned_decimal body with
    | Some (m, e) => Some (Finite (if neg then (- m)%Z else m) e)
    | None => None
    end.

(** [Number(s)]: white space is dropped on both sides; what is left is
    empty (the value is 0), a literal, or not a number. *)
Definition Number (s : string) : option number :=
  match trim_chars (chars s) with
  | [] => Some (Finite 0 0)
  | l =>
    match non_decimal l with
    | Some n => Some n
    | None => decimal l
    end
  end.

(** Truthiness of a number.  A binary64 value is zero when the literal is at
    most 2^-1075 in magnitude. *)
Definition is_zero (n : number) : bool :=
  match n with
  | Finite m e =>
    (m =? 0)%Z
    || ((e <? 0) && (Z.abs m * 2 ^ 1075 <=? 10 ^ (- e)))%Z
  | Infinite _ => false
  end.

Definition truthy (n : number) : bool := negb (is_zero n).

(** An integral number as text, as string concatenation renders it. *)
Definition integer_text (z : Z) : string := NilZero.string_of_int (Z.to_int z).

End Js.

(** ** Node's [path.join]

    [path] is the POSIX flavour on macOS and Linux and the Windows flavour on
    Windows.  Both split the joined text at separators, drop empty and "."
    segments, and let ".." cancel the segment before it. *)

Module Path.

Import Js.

Definition is_slash (a : ascii) : bool := is_char 47 a.
Definition is_backslash (a : ascii) : bool := is_char 92 a.
Definition is_win_sep (a : ascii) : bool := is_slash a || is_backslash a.

Definition slash : ascii := ascii_of_nat 47.
Definition backslash : ascii := ascii_of_nat 92.
Definition dot : ascii := ascii_of_nat 46.

Fixpoint split_on (sep : ascii -> bool) (l : list ascii) : list (list ascii) :=
  match l with
  | [] => [[]]
  | a :: l' =>
    if sep a then [] :: split_on sep l'
    else match split_on sep l' with
         | s :: ss => (a :: s) :: ss
         | [] => [[a]]
         end
  end.

Definition is_dot (seg : list ascii) : bool :=
  match seg with [a] => is_char 46 a | _ => false end.

Definition is_dotdot (seg : list ascii) : bool :=
  match seg with [a; b] => is_char 46 a && is_char 46 b | _ => false end.

(** One segment of [normalizeString]; the segments kept so far are held
    last first. *)
Definition norm_step (above : bool) (kept : list (list ascii)) (seg : list ascii)
  : list (list ascii) :=
  match seg with
  | [] => kept
  | _ =>
    if is_dot seg then kept
    else if is_dotdot seg then
      match kept with
      | top :: below =>
        if is_dotdot top then (if above then seg :: kept else kept) else below
      | [] => if above then [seg] else []
      end
    else seg :: kept
  end.

Fixpoint join_with (sep : ascii) (segs : list (list ascii)) : list ascii :=
  match segs with
  | [] => []
  | [s] => s
  | s :: rest => s ++ sep :: join_with sep rest
  end.

Definition normalizeString (is_sep : ascii -> bool) (sep : ascii) (above : bool)
  (l : list ascii) : list ascii :=
  join_with sep (rev (fold_left (norm_step above) (split_on is_sep l) [])).

Definition ends_with (p : ascii -> bool) (l : list ascii) : bool :=
  match rev l with a :: _ => p a | [] => false end.

Definition posix_normalize (l : list ascii) : list ascii :=
  match l with
  | [] => [dot]
  | a :: _ =>
    let absolute := is_slash a in
    let trailing := ends_with is_slash l in
    match normalizeString is_slash slash (negb absolute) l with
    | [] => if absolute then [slash] else if trailing then [dot; slash] else [dot]
    | p =>
      let p' := if trailing then p ++ [slash] else p in
      if absolute then slash :: p' else p'
    end
  end.

(** The non-empty arguments, with [sep] between them. *)
Definition joined (sep : ascii) (args : list string) : list ascii :=
  join_with sep (filter (fun l => negb (Nat.eqb (length l) 0)) (map chars args)).

Definition posix_join (args : list string) : string :=
  match joined slash args with
  | [] => "."
  | l => text (posix_normalize l)
  end.

Definition is_drive_letter (a : ascii) : bool :=
  let n := code a in
  ((65 <=? n) && (n <=? 90) || (97 <=? n) && (n <=? 122))%nat.

(** [path.win32.normalize] for a path behind a drive root such as [C:\],
    and for a path with no root.  The configuration directory, which starts
    every path the program joins on Windows, begins with [C:\]; network
    (UNC) roots, which open with two separators, do not occur and are read
    as a single leading separator. *)
Definition win32_normalize (l : list ascii) : list ascii :=
  match l with
  | [] => [dot]
  | [a] => if is_slash a then [backslash] else l
  | a :: b :: rest =>
    let trailing := ends_with is_win_sep l in
    let finish (device : list ascii) (absolute : bool) (body : list ascii) :=
      let tail0 := normalizeString is_win_sep backslash (negb absolute) body in
      let tail1 :=
        match tail0 with
        | [] => if absolute then [] else [dot]
        | _ => tail0
        end in
      let tail :=
        match tail1 with
        | [] => []
        | _ => if trailing then tail1 ++ [backslash] else tail1
        end in
      if absolute then device ++ backslash :: tail else device ++ tail in
    if is_win_sep a then finish [] true (b :: rest)
    else if is_drive_letter a && is_char 58 b then
      match rest with
      | c :: body => if is_win_sep c then finish [a; b] true body
                     else finish [a; b] false rest
      | [] => finish [a; b] false rest
      end
    else finish [] false l
  end.

Definition win32_join (args : list string) : string :=
  match joined backslash args with
  | [] => "."
  | l => text (win32_normalize l)
  end.

End Path.

(** ** [util.parseArgs]

    The program calls [parseArgs] with [strict: true], [allowPositionals:
    true] and no option declared.  A bare "--" ends option parsing: the words
    after it are positionals.  Before it, a word of two characters or more
    that starts with "-" is an option, and in strict mode an option that was
    not declared makes [parseArgs] throw; every other word (a bare "-" too)
    is a positional.  [None] stands for the throw. *)

Definition is_option_word (s : string) : bool :=
  match s with
  | String a (String _ _) => Js.is_char 45 a
  | _ => false
  end.

Fixpoint parseArgs (args : list string) : option (list string) :=
  match args with
  | [] => Some []
  | a :: rest =>
    if (a =? "--")%string then Some rest
    else if is_option_word a then None
    else option_map (cons a) (parseArgs rest)
  end.

(** ** The runtime *)

Inductive Stdio : Type := StdioUnset | StdioIgnore | StdioPipe | StdioInherit.

(** The options object given to [execFileSync]. *)
Record Options : Type := {
  cwd : option string;
  stdio : Stdio;
  env : option (list (string * string))
}.

Definition no_options : Options :=
  {| cwd := None; stdio := StdioUnset; env := None |}.
Definition in_dir (d : string) : Options :=
  {| cwd := Some d; stdio := StdioUnset; env := None |}.
Definition in_dir_with (d : string) (io : Stdio) : Options :=
  {| cwd := Some d; stdio := io; env := None |}.

(** What a Bun shell command resolves to. *)
Record ShellOutput : Type := {
  exitCode : Z;
  stdout : string;
  stderr : string
}.

(** The three Bun shell command lines of the program:
    [pgrep UltiMaker-Cura] (quiet), [kill ${pid}], and
    [git -C ${curaDirectory} diff-index --exit-code HEAD > /dev/null].
    The program reads [exitCode] off the result of each, so a command that
    fails resolves to its output like one that succeeds. *)
Inductive ShellCommand : Type :=
| Pgrep (name : string)
| Kill (pid : Js.number)
| DiffIndex (dir : string).

(** A call that changes or may change something outside the process. *)
Inductive Action : Type :=
| Spawn (file : string) (args : list string) (opts : Options)
| WriteFile (path data : string).

(** What a run leaves behind, in order: a subprocess or file write and
    whether it succeeded, a shell command and its output, a prompt and the
    line read for it (none when no line came), a line on standard output or
    on standard error, a value shown by [console.log], a pause. *)
Inductive Event : Type :=
| Ran (a : Action) (ok : bool)
| Shell (c : ShellCommand) (out : ShellOutput)
| Asked (prompt : string) (line : option string)
| Printed (s : string)
| PrintedError (s : string)
| PrintedValue (out : ShellOutput)
| Slept (ms : Z).

(** What the runtime answers:
    - [platform] is [os.platform()] and [username] is
      [os.userInfo().username];
    - [existsSync] is [fs.existsSync], which the program calls while the
      module loads only;
    - [urlParses s] tells whether [new URL(s)] returns rather than throws;
    - [argv] is [Bun.argv]: the runtime, the script, then the user's words;
    - [now] is [Date.now()], the time in milliseconds since the epoch, an
      integer that prints as plain digits;
    - [execFileSync] is [Some] of the captured output when the subprocess
      exits with status 0 and [None] when the call throws;
    - [shell] is what a Bun shell command line resolves to;
    - [writeFileSync] tells whether the write returns rather than throws;
    - [stdin] holds the lines the user will type, in order; after the last
      of them no line comes and a prompt stays open.
    In one run the program issues no subprocess, shell command or file
    write twice, so an answer per call is as general as an answer per call
    and moment. *)
Record World : Type := {
  platform : string;
  username : string;
  existsSync : string -> bool;
  urlParses : string -> bool;
  argv : list string;
  now : Z;
  execFileSync : string -> list string -> Options -> option string;
  shell : ShellCommand -> ShellOutput;
  writeFileSync : string -> string -> bool;
  stdin : list string
}.

(** What the program throws: [new Error(message)], the failure of
    [execFileSync] or [writeFileSync], the standard error of a shell command
    ([throw res.stderr]), the error of [parseArgs]. *)
Inductive Thrown : Type :=
| Error (message : string)
| SpawnError (file : string) (args : list string)
| WriteError (path : string)
| ThrownOutput (s : string)
| ParseArgsError.

(** How a computation ends: with a value, by [process.exit], with an error
    nobody catches, or never, waiting for a line that does not come. *)
Inductive Outcome (A : Type) : Type :=
| Returned (a : A)
| Exited (status : Z)
| Threw (e : Thrown)
| Waiting.

Arguments Returned {A} a.
Arguments Exited {A} status.
Arguments Threw {A} e.
Arguments Waiting {A}.

(** The exit status of the process: what [process.exit] was given, or 1
    when the runtime ends the process on an uncaught error, which it does
    after reporting the error with its stack trace. *)
Definition exit_status {A} (o : Outcome A) : option Z :=
  match o with
  | Exited status => Some status
  | Threw _ => Some 1%Z
  | Returned _ | Waiting => None
  end.

Record Run (A : Type) : Type := {
  outcome : Outcome A;
  events : list Event;
  unread : list string
}.

Arguments outcome {A} r.
Arguments events {A} r.
Arguments unread {A} r.

(** A computation: from the lines not yet read to its run. *)
Definition M (A : Type) : Type := list string -> Run A.

Definition ret {A} (a : A) : M A :=
  fun input => {| outcome := Returned a; events := []; unread := input |}.

(** [prepend ev r]: the run [r] after the events [ev]. *)
Definition prepend {A} (ev : list Event) (r : Run A) : Run A :=
  match r with
  | {| outcome := o; events := ev'; unread := u |} =>
    {| outcome := o; events := ev ++ ev'; unread := u |}
  end.

Definition bind {A B} (m : M A) (k : A -> M B) : M B :=
  fun input =>
    match m input with
    | {| outcome := o; events := ev; unread := u |} =>
      match o with
      | Returned a => prepend ev (k a u)
      | Exited status => {| outcome := Exited status; events := ev; unread := u |}
      | Threw e => {| outcome := Threw e; events := ev; unread := u |}
      | Waiting => {| outcome := Waiting; events := ev; unread := u |}
      end
    end.

Notation "x <- m ;; k" := (bind m (fun x => k))
  (at level 61, m at next level, right associativity).
Notation "m ;; k" := (bind m (fun _ => k))
  (at level 61, right associativity).

Definition emit (e : Event) : M unit :=
  fun input => {| outcome := Returned tt; events := [e]; unread := input |}.

Definition throw {A} (e : Thrown) : M A :=
  fun input => {| outcome := Threw e; events := []; unread := input |}.

Definition exit {A} (status : Z) : M A :=
  fun input => {| outcome := Exited status; events := []; unread := input |}.

Definition console_log (s : string) : M unit := emit (Printed s).
Definition console_error (s : string) : M unit := emit (PrintedError s).

Definition tab : string := String (ascii_of_nat 9) EmptyString.
Definition nl : string := String (ascii_of_nat 10) EmptyString.

Inductive OS : Type := MacOS | Windows | Linux.

Definition os_name (o : OS) : string :=
  match o with MacOS => "MacOS" | Windows => "Windows" | Linux => "Linux" end.

(** The two answers of a yes/no prompt, "y" and "n". *)
Inductive Answer : Type := Yes | No.

Definition answer_text (a : Answer) : string :=
  match a with Yes => "y" | No => "n" end.

Definition gitignoreContent : string :=
  ".DS_Store" +++ nl +++ "**/.DS_Store" +++ nl +++ "5.6/cache" +++ nl
  +++ "5.6/cura.log" +++ nl +++ "5.6/cura.log.*".

(** ** The program *)

Section Program.

Variable w : World.

Definition getOperatingSystem : M OS :=
  if (platform w =? "darwin")%string then ret MacOS
  else if (platform w =? "win32")%string then ret Windows
  else if (platform w =? "linux")%string then ret Linux
  else throw (Error "Unknown OS").

Definition getDefaultCuraDirectory : M string :=
  let currentUser := username w in
  osType <- getOperatingSystem ;;
  ret match osType with
      | MacOS => "/Users/" +++ currentUser +++ "/Library/Application Support/cura"
      | Windows => "C:\Users\" +++ currentUser +++ "\AppData\Roaming\cura"
      | Linux => "/home/" +++ currentUser +++ "/.local/share/cura"
      end.

Definition checkCuraDirectory : M bool :=
  curaDirectory <- getDefaultCuraDirectory ;;
  ret (existsSync w curaDirectory).

(** [execFileSync]: the captured output, or a throw. *)
Definition execFile (file : string) (args : list string) (opts : Options) : M string :=
  fun input =>
    match execFileSync w file args opts with
    | Some out =>
      {| outcome := Returned out; events := [Ran (Spawn file args opts) true];
         unread := input |}
    | None =>
      {| outcome := Threw (SpawnError file args);
         events := [Ran (Spawn file args opts) false]; unread := input |}
    end.

(** [try { execFileSync(...); return true } catch (e) { return false }] *)
Definition execFile_succeeds (file : string) (args : list string) (opts : Options)
  : M bool :=
  fun input =>
    let ok := match execFileSync w file args opts with Some _ => true | None => false end in
    {| outcome := Returned ok; events := [Ran (Spawn file args opts) ok];
       unread := input |}.

Definition checkGitInstallation : M bool :=
  execFile_succeeds "git" ["--version"]
    {| cwd := None; stdio := StdioIgnore; env := None |}.

Definition path_join (args : list string) : string :=
  if (platform w =? "win32")%string then Path.win32_join args
  else Path.posix_join args.

(** [$`...`]: the command runs and resolves to its output. *)
Definition sh (c : ShellCommand) : M ShellOutput :=
  fun input =>
    {| outcome := Returned (shell w c); events := [Shell c (shell w c)];
       unread := input |}.

Definition isValidUrl (url : option string) : bool :=
  match url with
  | Some u => urlParses w u
  | None => false  (* [new URL(undefined)] reads the text "undefined", which has no scheme *)
  end.

Definition confirm_prompt (q : string) (defaultAnswer : option Answer) : string :=
  q +++ " "
    +++ match defaultAnswer with
        | Some Yes => "(Y/n)"
        | Some No => "(y/N)"
        | None => "(y/n)"
        end
    +++ " ".

(** [confirm]: each turn of the loop asks the question and reads one line. *)
Fixpoint confirm (q : string) (defaultAnswer : option Answer) (input : list string)
  : Run (option Answer) :=
  let prompt := confirm_prompt q defaultAnswer in
  match input with
  | [] => {| outcome := Waiting; events := [Asked prompt None]; unread := [] |}
  | line :: rest =>
    let l := Js.toLowerCase (Js.trim line) in
    let asked := Asked prompt (Some line) in
    if (l =? "y")%string then
      {| outcome := Returned (Some Yes); events := [asked]; unread := rest |}
    else if (l =? "n")%string then
      {| outcome := Returned (Some No); events := [asked]; unread := rest |}
    else if (l =? EmptyString)%string then
      {| outcome := Returned defaultAnswer; events := [asked]; unread := rest |}
    else prepend [asked] (confirm q defaultAnswer rest)
  end.

(** A default that is absent or the empty string is falsy. *)
Definition usable_default (defaultAnswer : option string) : option string :=
  match defaultAnswer with
  | Some EmptyString => None
  | other => other
  end.

Definition ask_prompt (q : string) (defaultAnswer : option string) : string :=
  q +++ match usable_default defaultAnswer with
        | Some d => " (" +++ d +++ ")"
        | None => EmptyString
        end
    +++ " ".

Fixpoint ask (q : string) (defaultAnswer : option string) (input : list string)
  : Run string :=
  let prompt := ask_prompt q defaultAnswer in
  match input with
  | [] => {| outcome := Waiting; events := [Asked prompt None]; unread := [] |}
  | line :: rest =>
    let asked := Asked prompt (Some line) in
    match line, usable_default defaultAnswer with
    | EmptyString, None => prepend [asked] (ask q defaultAnswer rest)
    | EmptyString, Some d =>
      {| outcome := Returned d; events := [asked]; unread := rest |}
    | _, _ =>
      {| outcome := Returned line; events := [asked]; unread := rest |}
    end
  end.

Definition getCuraPid : M (option Js.number) :=
  res <- sh (Pgrep "UltiMaker-Cura") ;;
  if (exitCode res =? 1)%Z
     && (String.length (stderr res) =? 0)%nat
     && (String.length (stdout res) =? 0)%nat
  then ret None
  else if (exitCode res =? 0)%Z then
    match Js.Number (Js.trim (stdout res)) with
    | None => throw (Error "No process number returned")
    | Some num => ret (Some num)
    end
  else
    emit (PrintedValue res) ;;
    throw (Error "pgrep Cura returned something weird").

Definition killProcess (pid : Js.number) : M unit :=
  res <- sh (Kill pid) ;;
  if negb (exitCode res =? 0)%Z then throw (ThrownOutput (stderr res))
  else ret tt.

Definition kill_question : string :=
  "Cura is running. To proceed safely, you need to exit out of cura. Kill cura?".

Definition confirmAndKillCura : M bool :=
  curaPid <- getCuraPid ;;
  match curaPid with
  | None => ret true
  | Some pid =>
    res <- confirm kill_question (Some Yes) ;;
    match res with
    | Some Yes => killProcess pid ;; ret true
    | _ => ret false
    end
  end.

Definition sleep (ms : Z) : M unit := emit (Slept ms).

Definition printHelp : M unit :=
  console_log
    ("curasync" +++ nl
     +++ tab +++ "help" +++ tab +++ "print help screen" +++ nl
     +++ tab +++ "init <repo_url>" +++ tab
     +++ "initialize curasync in your cura folder and push to <repo_url>" +++ nl
     +++ tab +++ "clone <repo_url>" +++ tab
     +++ "clone a curasync remote into your cura directory" +++ nl
     +++ tab +++ "pull" +++ tab +++ "grab changes from remote" +++ nl
     +++ tab +++ "push" +++ tab +++ "push local changes to remote" +++ nl
     +++ tab +++ "cwd" +++ tab +++ "print the cura directory").

(** *** After the module-level checks

    [curaDirectory] and [isGitInitialized] are the two module-level
    constants the rest of the program reads. *)
Section Loaded.

Variable curaDirectory : string.
Variable isGitInitialized : bool.

Definition checkCuraVersionDirectory : M bool :=
  ret (existsSync w (curaDirectory +++ "/5.6")).

Definition checkGitInitialization : M bool :=
  execFile_succeeds "git" ["status"] (in_dir_with curaDirectory StdioIgnore).

Definition printInfo : M unit :=
  os <- getOperatingSystem ;;
  console_log
    ("curasync (v0) — lunaroyster" +++ nl
     +++ "    OS: " +++ os_name os +++ nl
     +++ "    Cura Directory: " +++ curaDirectory +++ nl
     +++ "    isInitialized?: " +++ (if isGitInitialized then "true" else "false")).

Definition writeFile (path data : string) : M unit :=
  fun input =>
    if writeFileSync w path data then
      {| outcome := Returned tt; events := [Ran (WriteFile path data) true];
         unread := input |}
    else
      {| outcome := Threw (WriteError path);
         events := [Ran (WriteFile path data) false]; unread := input |}.

Definition initializeRepo (url : string) : M unit :=
  killRes <- confirmAndKillCura ;;
  (if negb killRes then throw (Error "Exiting: cura is still running") else ret tt) ;;
  (if isGitInitialized
   then execFile "rm" ["-rf"; ".git"] (in_dir curaDirectory) ;; ret tt
   else ret tt) ;;
  execFile "git" ["init"] (in_dir curaDirectory) ;;
  execFile "git" ["remote"; "add"; "origin"; url] (in_dir curaDirectory) ;;
  execFile "git" ["add"; "."] (in_dir curaDirectory) ;;
  execFile "git" ["commit"; "-m"; "[curasync] init"] (in_dir curaDirectory) ;;
  execFile "git" ["push"; "-u"; "origin"; "main"] (in_dir curaDirectory) ;;
  writeFile (path_join [curaDirectory; ".gitignore"]) gitignoreContent.

Definition printDiff : M unit :=
  diffRes <- execFile "git" ["diff"; "--staged"; "--stat"]
    {| cwd := Some curaDirectory; stdio := StdioPipe;
       env := Some [("GIT_PAGER", "cat")] |} ;;
  console_log (Js.trim diffRes).

Definition isCuraDirty : M bool :=
  res <- sh (DiffIndex curaDirectory) ;;
  ret (exitCode res =? 1)%Z.

Definition is_word (o : option string) (s : string) : bool :=
  match o with Some x => (x =? s)%string | None => false end.

Definition init_question : string :=
  "This command will turn your cura configuration folder into a git repo and push it into a blank repository. Use this if you want to share your config with others. Proceed?".

Definition overwrite_question : string :=
  "Looks like the cura folder is already initialized as a repo. Do you want to go ahead anyway? This will overwrite the repo".

Definition clone_question : string :=
  "This will clone the configuration from a given, existing repo into your cura directory. (Your current configuration will be backed up). Proceed?".

Definition quit_question : string :=
  "Cura is currently running. Cura often saves configuration on exit. Would you like to quit Cura?".

Definition is_yes (a : option Answer) : bool :=
  match a with Some Yes => true | _ => false end.

Definition main_init (positionals : list string) : M unit :=
  res <- confirm init_question (Some No) ;;
  (if negb (is_yes res) then exit 1 else ret tt) ;;
  (if isGitInitialized then
     alreadyInitAsk <- confirm overwrite_question (Some No) ;;
     if negb (is_yes alreadyInitAsk) then exit 1 else ret tt
   else ret tt) ;;
  let url := nth_error positionals 3 in
  if negb (isValidUrl url) then
    console_error "Invalid URL. Please enter a valid URL." ;; exit 1
  else
    match url with
    | Some u => initializeRepo u ;; exit 0
    | None => exit 1  (* not reached: [isValidUrl None] is [false] *)
    end.

Definition main_clone (positionals : list string) : M unit :=
  match nth_error positionals 3 with
  | None | Some EmptyString =>
    console_error "No URL provided. Invocation: `curasync clone [repo url]`" ;;
    exit 1
  | Some url =>
    if negb (isValidUrl (Some url)) then
      console_error ("Invalid URL provided for clone operation: " +++ url) ;;
      exit 1
    else
      askRes <- confirm clone_question (Some No) ;;
      (if negb (is_yes askRes) then exit 1 else ret tt) ;;
      killRes <- confirmAndKillCura ;;
      (if negb killRes then throw (Error "Exiting: cura is still running") else ret tt) ;;
      console_log "Backing up your current cura configuration..." ;;
      curaDirectory <- getDefaultCuraDirectory ;;
      let backupDirectory :=
        path_join [curaDirectory; "../cura_backup_" +++ Js.integer_text (now w)] in
      execFile "mv" [curaDirectory; backupDirectory] no_options ;;
      execFile "mkdir" [curaDirectory] no_options ;;
      console_log "Cura folder has been backed up successfully." ;;
      console_log ("Cloning from " +++ url +++ "...") ;;
      execFile "git" ["clone"; url; "."] (in_dir curaDirectory) ;;
      console_log "Clone operation completed successfully. Try opening cura" ;;
      exit 0
  end.

Definition main_pull : M unit :=
  console_log "pulling config from origin..." ;;
  execFile "git" ["pull"] (in_dir_with curaDirectory StdioInherit) ;;
  console_log "pulled config from origin!" ;;
  exit 0.

Definition main_push : M unit :=
  curaPid <- getCuraPid ;;
  match curaPid with
  | Some pid =>
    if Js.truthy pid then
      quitCura <- confirm quit_question (Some Yes) ;;
      if is_yes quitCura then killProcess pid ;; sleep 1000 else ret tt
    else ret tt
  | None => ret tt
  end ;;
  isDirty <- isCuraDirty ;;
  (if negb isDirty then
     console_error "Looks like there are no changes to push" ;; exit 1
   else ret tt) ;;
  console_log "pushing config to origin" ;;
  execFile "git" ["add"; "."] (in_dir_with curaDirectory StdioInherit) ;;
  printDiff ;;
  commitMessage <- ask "Enter a message describing what you changed:" None ;;
  execFile "git" ["commit"; "-m"; "[curasync] " +++ commitMessage]
    (in_dir_with curaDirectory StdioInherit) ;;
  execFile "git" ["push"] (in_dir_with curaDirectory StdioInherit) ;;
  console_log "pushed config to origin!" ;;
  exit 0.

Definition main : M unit :=
  match parseArgs (argv w) with
  | None => throw ParseArgsError
  | Some positionals =>
    if (length positionals =? 2)%nat then printInfo ;; printHelp ;; exit 0
    else
      let command := nth_error positionals 2 in
      if is_word command "help" then printHelp ;; exit 0
      else if is_word command "init" then main_init positionals
      else if is_word command "clone" then main_clone positionals
      else if is_word command "pull" then main_pull
      else if is_word command "push" then main_push
      else if is_word command "cwd" then console_log curaDirectory ;; exit 0
      else
        console_error
          ("unrecognized command "
           +++ match command with Some c => c | None => "undefined" end) ;;
        printHelp ;;
        exit 1
  end.

End Loaded.

(** The module-level statements before the call of [main]: the checks, and
    the two constants they leave behind. *)
Definition load : M (string * bool) :=
  found <- checkCuraDirectory ;;
  (if negb found then
     throw (Error "curasync did not find a cura directory. Try running cura and try again?")
   else ret tt) ;;
  curaDirectory <- getDefaultCuraDirectory ;;
  git <- checkGitInstallation ;;
  (if negb git then
     throw (Error "Git is not installed on this system. Please install Git and try again.")
   else ret tt) ;;
  version <- checkCuraVersionDirectory curaDirectory ;;
  (if negb version then
     throw (Error "curasync did not find a cura/5.6 directory. curasync only supports 5.6 (you may need to upgrade curasync)")
   else ret tt) ;;
  isGitInitialized <- checkGitInitialization curaDirectory ;;
  ret (curaDirectory, isGitInitialized).

Definition curasync : M unit :=
  loaded <- load ;;
  main (fst loaded) (snd loaded).

(** One invocation: the module runs against the lines the user will type. *)
Definition run : Run unit := curasync (stdin w).

End Program.

(** * Reading a run

    The vocabulary of the statements below: what a run spawned and printed,
    the plans it follows, and the facts that can be read off its events. *)

(** ** Events *)

(** The subprocesses and file writes of a run, in order. *)
Fixpoint spawned (l : list Event) : list Action :=
  match l with
  | [] => []
  | Ran a _ :: l' => a :: spawned l'
  | _ :: l' => spawned l'
  end.

(** What is printed, on either stream. *)
Fixpoint printed (l : list Event) : list Event :=
  match l with
  | [] => []
  | Printed s :: l' => Printed s :: printed l'
  | PrintedError s :: l' => PrintedError s :: printed l'
  | PrintedValue o :: l' => PrintedValue o :: printed l'
  | _ :: l' => printed l'
  end.

(** The two subprocesses every invocation starts with, [git --version] and
    [git status] in the configuration directory. *)
Definition git_version : Action :=
  Spawn "git" ["--version"] {| cwd := None; stdio := StdioIgnore; env := None |}.

Definition git_status (dir : string) : Action :=
  Spawn "git" ["status"] (in_dir_with dir StdioIgnore).

Definition probes (dir : string) : list Action := [git_version; git_status dir].

Definition is_probe (e : Event) : bool :=
  match e with
  | Ran (Spawn file [verb] _) _ =>
    (file =? "git")%string && ((verb =? "--version") || (verb =? "status"))%string
  | _ => false
  end.

(** A subprocess or file write other than the probes of the module: in an
    init or clone run these are the removal of [.git], the git commands
    that build and push the repository, the write of the ignore file, the
    rename, the [mkdir] and the clone. *)
Definition mutates (e : Event) : bool :=
  match e with
  | Ran _ _ => negb (is_probe e)
  | _ => false
  end.

(** The lookup of the companion process, and its event. *)
Definition lookup (w : World) : ShellOutput := shell w (Pgrep "UltiMaker-Cura").

Definition looked (w : World) : Event := Shell (Pgrep "UltiMaker-Cura") (lookup w).

(** The lookup found no companion process, or a termination succeeded. *)
Definition cleared (e : Event) : bool :=
  match e with
  | Shell (Pgrep _) out =>
    (exitCode out =? 1)%Z
    && (String.length (stderr out) =? 0)%nat
    && (String.length (stdout out) =? 0)%nat
  | Shell (Kill _) out => (exitCode out =? 0)%Z
  | _ => false
  end.

(** The run asked git whether the working copy differs from the last
    commit. *)
Definition checks_dirty (e : Event) : bool :=
  match e with
  | Shell (DiffIndex _) _ => true
  | _ => false
  end.

(** No mutation happens before a clear lookup or a successful termination;
    [clear] tells whether one was seen already. *)
Fixpoint guarded_from (clear : bool) (l : list Event) : bool :=
  match l with
  | [] => true
  | e :: l' => (negb (mutates e) || clear) && guarded_from (clear || cleared e) l'
  end.

(** ** Prompts *)

(** The line as [confirm] compares it. *)
Definition normal (line : string) : string := Js.toLowerCase (Js.trim line).

(** A line that settles nothing: after trimming and lower-casing it is
    neither "y" nor "n" nor empty. *)
Definition undecided (line : string) : Prop :=
  normal line <> "y" /\ normal line <> "n" /\ normal line <> EmptyString.

(** A line that settles the prompt, and the answer it makes [confirm]
    return when the default is [d]. *)
Definition settles (d : option Answer) (line : string) (a : option Answer) : Prop :=
  (normal line = "y" /\ a = Some Yes)
  \/ (normal line = "n" /\ a = Some No)
  \/ (normal line = EmptyString /\ a = d).

Definition decisive (line : string) : bool :=
  ((normal line =? "y") || (normal line =? "n") || (normal line =? EmptyString))%string.

(** How many prompts the input can settle. *)
Definition answers (input : list string) : nat := length (filter decisive input).

(** The events of asking [q] once for each of [lines]. *)
Definition asks (q : string) (d : option Answer) (lines : list string) : list Event :=
  map (fun s => Asked (confirm_prompt q d) (Some s)) lines.

(** A property of events that no prompt has. *)
Definition not_asked (f : Event -> bool) : Prop := forall p l, f (Asked p l) = false.

(** The termination prompt of [confirmAndKillCura], answered "n". *)
Definition declines (e : Event) : bool :=
  match e with
  | Asked p (Some line) =>
    (p =? confirm_prompt kill_question (Some Yes))%string && (normal line =? "n")%string
  | _ => false
  end.

(** ** Loading and arguments *)

(** The module loaded: the checks passed and left these two constants. *)
Definition loaded (w : World) (dir : string) (isGit : bool) : Prop :=
  outcome (load w (stdin w)) = Returned (dir, isGit).

(** [dir] is the configuration directory of the world. *)
Definition directory (w : World) (dir : string) : Prop :=
  forall j, getDefaultCuraDirectory w j
            = {| outcome := Returned dir; events := []; unread := j |}.

(** The directory the configuration directory lies in, and the separator of
    the platform. *)
Definition parent_directory (w : World) : string :=
  if (platform w =? "darwin")%string
  then "/Users/" +++ username w +++ "/Library/Application Support"
  else if (platform w =? "win32")%string
  then "C:\Users\" +++ username w +++ "\AppData\Roaming"
  else "/home/" +++ username w +++ "/.local/share".

Definition separator (w : World) : string :=
  if (platform w =? "win32")%string then "\" else "/".

(** A path segment that normalisation leaves alone: not empty, not "." or
    "..", and free of separators. *)
Definition plain (seg : list ascii) : bool :=
  negb (Nat.eqb (length seg) 0) && negb (Path.is_dot seg) && negb (Path.is_dotdot seg)
  && forallb (fun c => negb (Path.is_win_sep c)) seg.

(** The words of an argument list that come before a bare "--". *)
Fixpoint before_terminator (args : list string) : list string :=
  match args with
  | [] => []
  | a :: rest => if (a =? "--")%string then [] else a :: before_terminator rest
  end.

(** ** Plans *)

Definition succeeds (w : World) (a : Action) : bool :=
  match a with
  | Spawn file args opts =>
    match execFileSync w file args opts with Some _ => true | None => false end
  | WriteFile path data => writeFileSync w path data
  end.

Definition failure (a : Action) : Thrown :=
  match a with
  | Spawn file args _ => SpawnError file args
  | WriteFile path _ => WriteError path
  end.

(** The actions of a plan that get started when each is started only after
    the one before it succeeded. *)
Fixpoint attempted (w : World) (plan : list Action) : list Action :=
  match plan with
  | [] => []
  | a :: rest => a :: (if succeeds w a then attempted w rest else [])
  end.

(** A plan carried out step by step: a step that fails throws, and the
    steps after it are not started. *)
Fixpoint perform (w : World) (plan : list Action) (input : list string) : Run unit :=
  match plan with
  | [] => {| outcome := Returned tt; events := []; unread := input |}
  | a :: rest =>
    if succeeds w a then prepend [Ran a true] (perform w rest input)
    else {| outcome := Threw (failure a); events := [Ran a false]; unread := input |}
  end.

(** The execution phase of [initializeRepo], as a plan. *)
Definition init_plan (w : World) (dir : string) (isGit : bool) (url : string)
  : list Action :=
  (if isGit then [Spawn "rm" ["-rf"; ".git"] (in_dir dir)] else [])
  ++ [Spawn "git" ["init"] (in_dir dir);
      Spawn "git" ["remote"; "add"; "origin"; url] (in_dir dir);
      Spawn "git" ["add"; "."] (in_dir dir);
      Spawn "git" ["commit"; "-m"; "[curasync] init"] (in_dir dir);
      Spawn "git" ["push"; "-u"; "origin"; "main"] (in_dir dir);
      WriteFile (path_join w [dir; ".gitignore"]) gitignoreContent].

(** The backup path as the clone branch of [main] computes it. *)
Definition backup_of (w : World) (dir : string) : string :=
  path_join w [dir; "../cura_backup_" +++ Js.integer_text (now w)].

(** The rename, the [mkdir] and the clone, in the order [main] issues
    them. *)
Definition clone_plan (w : World) (dir url : string) : list Action :=
  [Spawn "mv" [dir; backup_of w dir] no_options;
   Spawn "mkdir" [dir] no_options;
   Spawn "git" ["clone"; url; "."] (in_dir dir)].

(** The part of an init run that follows the prompts. *)
Definition init_tail (w : World) (dir : string) (g : bool) (pos : list string) : M unit :=
  let url := nth_error pos 3 in
  if negb (isValidUrl w url) then
    console_error "Invalid URL. Please enter a valid URL." ;; exit 1
  else
    match url with
    | Some u => initializeRepo w dir g u ;; exit 0
    | None => exit 1
    end.

Definition nothing_to_push : string := "Looks like there are no changes to push".

(** ** Facts of a run *)

(** What can be read off a run of the guard: it spawns nothing; it returns
    [true] exactly when its events hold a clear lookup or a successful
    termination, and [false] exactly when they hold the termination prompt
    answered "n"; it never exits. *)
Definition guard_facts (r : Run bool) : Prop :=
  spawned (events r) = []
  /\ (outcome r = Returned true <-> existsb cleared (events r) = true)
  /\ (outcome r = Returned false <-> existsb declines (events r) = true)
  /\ (forall status, outcome r <> Exited status).

(** What can be read off a clone run, from the dispatch on. *)
Definition clone_facts (w : World) (dir : string) (pos : list string) (r : Run unit)
  : Prop :=
  guarded_from false (events r) = true
  /\ (existsb cleared (events r) = false -> spawned (events r) = [])
  /\ (existsb cleared (events r) = true ->
      exists url,
        nth_error pos 3 = Some url
        /\ urlParses w url = true
        /\ spawned (events r) = attempted w (clone_plan w dir url)
        /\ (outcome r = Exited 0 <-> forallb (succeeds w) (clone_plan w dir url) = true))
  /\ (existsb declines (events r) = true ->
      outcome r = Threw (Error "Exiting: cura is still running")
      /\ spawned (events r) = []).

(** What can be read off an init run, from the dispatch on. *)
Definition init_facts (w : World) (pos input : list string) (r : Run unit) : Prop :=
  guarded_from false (events r) = true
  /\ (existsb declines (events r) = true ->
      outcome r = Threw (Error "Exiting: cura is still running")
      /\ spawned (events r) = [])
  /\ (isValidUrl w (nth_error pos 3) = false ->
      spawned (events r) = []
      /\ existsb cleared (events r) = false
      /\ (outcome r = Exited 1 \/ outcome r = Waiting)
      /\ (2 <= answers input -> outcome r = Exited 1)).

(** What can be read off a push run on a working copy that matches the
    last commit, from the dispatch on. *)
Definition clean_push_facts (w : World) (r : Run unit) : Prop :=
  spawned (events r) = []
  /\ outcome r <> Exited 0
  /\ (existsb checks_dirty (events r) = true ->
      outcome r = Exited 1 /\ printed (events r) = [PrintedError nothing_to_push])
  /\ (existsb checks_dirty (events r) = false ->
      outcome r = Waiting \/ exists e, outcome r = Threw e)
  /\ (cleared (looked w) = true -> existsb checks_dirty (events r) = true).

(** ** Example worlds *)

Module Sample.

(** A stand-in for the URL parser: an https URL with something after the
    scheme. *)
Definition url_like (u : string) : bool :=
  String.prefix "https://" u && (8 <? String.length u)%nat.

Definition nothing : ShellOutput :=
  {| exitCode := 1; stdout := EmptyString; stderr := EmptyString |}.

Definition fine (out : string) : ShellOutput :=
  {| exitCode := 0; stdout := out; stderr := EmptyString |}.

(** A Linux machine of user ada where every file exists and every
    subprocess succeeds, but [git status] as told; [pgrep] and [git
    diff-index] answer as told. *)
Definition world (args : list string) (lines : list string)
  (pgrep : ShellOutput) (is_repo : bool) (diff_index : Z) : World :=
  {| platform := "linux";
     username := "ada";
     existsSync := fun _ => true;
     urlParses := url_like;
     argv := "/usr/bin/bun" :: "/usr/bin/curasync" :: args;
     now := 1700000000123;
     execFileSync := fun file args _ =>
       if (file =? "git")%string && (hd EmptyString args =? "status")%string
       then (if is_repo then Some EmptyString else None)
       else Some " 5.6/cura.cfg | 2 +-";
     shell := fun c =>
       match c with
       | Pgrep _ => pgrep
       | Kill _ => fine EmptyString
       | DiffIndex _ =>
         {| exitCode := diff_index; stdout := EmptyString; stderr := EmptyString |}
       end;
     writeFileSync := fun _ _ => true;
     stdin := lines |}.

Definition dir : string := "/home/ada/.local/share/cura".

Definition repo : string := "https://example.org/cura.git".

End Sample.

(** ** The rest of the vocabulary

    What the statements about startup, dispatch, pull, push and the
    invariants of every run are written in. *)

(** The usage screen of [printHelp] and the banner of [printInfo]. *)
Definition help_text : string :=
  "curasync" +++ nl
  +++ tab +++ "help" +++ tab +++ "print help screen" +++ nl
  +++ tab +++ "init <repo_url>" +++ tab
  +++ "initialize curasync in your cura folder and push to <repo_url>" +++ nl
  +++ tab +++ "clone <repo_url>" +++ tab
  +++ "clone a curasync remote into your cura directory" +++ nl
  +++ tab +++ "pull" +++ tab +++ "grab changes from remote" +++ nl
  +++ tab +++ "push" +++ tab +++ "push local changes to remote" +++ nl
  +++ tab +++ "cwd" +++ tab +++ "print the cura directory".

Definition info_text (os : OS) (dir : string) (isGit : bool) : string :=
  "curasync (v0) — lunaroyster" +++ nl
  +++ "    OS: " +++ os_name os +++ nl
  +++ "    Cura Directory: " +++ dir +++ nl
  +++ "    isInitialized?: " +++ (if isGit then "true" else "false").

(** The errors of the checks the module makes while it loads. *)
Definition no_directory : Thrown :=
  Error "curasync did not find a cura directory. Try running cura and try again?".

Definition no_git : Thrown :=
  Error "Git is not installed on this system. Please install Git and try again.".

Definition no_version_directory : Thrown :=
  Error "curasync did not find a cura/5.6 directory. curasync only supports 5.6 (you may need to upgrade curasync)".

(** The platforms [getOperatingSystem] knows. *)
Definition supported (p : string) : bool :=
  ((p =? "darwin") || (p =? "win32") || (p =? "linux"))%string.

(** The subcommands [main] dispatches. *)
Definition commands : list string := ["help"; "init"; "clone"; "pull"; "push"; "cwd"].

(** The events of [ask] reading each of [lines]. *)
Definition asked_for (q : string) (d : option string) (lines : list string)
  : list Event :=
  map (fun s => Asked (ask_prompt q d) (Some s)) lines.

Definition blank (line : string) : Prop := line = EmptyString.

(** The lookup printed this process number: it exited with 0 and its
    trimmed output reads as the number. *)
Definition found (w : World) (pid : Js.number) : Prop :=
  exitCode (lookup w) = 0%Z /\ Js.Number (Js.trim (stdout (lookup w))) = Some pid.

(** The first statements of the push branch of [main]: look the companion
    process up and offer to quit it. *)
Definition push_guard (w : World) : M unit :=
  curaPid <- getCuraPid w ;;
  match curaPid with
  | Some pid =>
    if Js.truthy pid then
      quitCura <- confirm quit_question (Some Yes) ;;
      if is_yes quitCura then killProcess w pid ;; sleep 1000 else ret tt
    else ret tt
  | None => ret tt
  end.

(** The statements of the push branch of [main] after that. *)
Definition push_rest (w : World) (curaDirectory : string) : M unit :=
  isDirty <- isCuraDirty w curaDirectory ;;
  (if negb isDirty then
     console_error "Looks like there are no changes to push" ;; exit 1
   else ret tt) ;;
  console_log "pushing config to origin" ;;
  execFile w "git" ["add"; "."] (in_dir_with curaDirectory StdioInherit) ;;
  printDiff w curaDirectory ;;
  commitMessage <- ask "Enter a message describing what you changed:" None ;;
  execFile w "git" ["commit"; "-m"; "[curasync] " +++ commitMessage]
    (in_dir_with curaDirectory StdioInherit) ;;
  execFile w "git" ["push"] (in_dir_with curaDirectory StdioInherit) ;;
  console_log "pushed config to origin!" ;;
  exit 0.

(** The subprocesses of a push, in the order [main] issues them. *)
Definition diff_options (dir : string) : Options :=
  {| cwd := Some dir; stdio := StdioPipe; env := Some [("GIT_PAGER", "cat")] |}.

Definition push_plan (dir message : string) : list Action :=
  [Spawn "git" ["add"; "."] (in_dir_with dir StdioInherit);
   Spawn "git" ["diff"; "--staged"; "--stat"] (diff_options dir);
   Spawn "git" ["commit"; "-m"; "[curasync] " +++ message] (in_dir_with dir StdioInherit);
   Spawn "git" ["push"] (in_dir_with dir StdioInherit)].

Definition pull_action (dir : string) : Action :=
  Spawn "git" ["pull"] (in_dir_with dir StdioInherit).

(** What can be read off the part of an init run that follows the prompts
    when the guard let it pass. *)
Definition plan_facts (w : World) (plan : list Action) (r : Run unit) : Prop :=
  spawned (events r) = attempted w plan
  /\ (outcome r = Exited 0 <-> forallb (succeeds w) plan = true)
  /\ (outcome r = Exited 0
      \/ exists a, In a plan /\ succeeds w a = false /\ outcome r = Threw (failure a)).

(** ** Monitors

    A monitor watches the events of a run one by one: from its state it
    allows the next event or not, and moves on.  [accepted s l] says that
    the monitor, started in [s], allows every event of [l]. *)
Section Monitor.

Variable State : Type.
Variable step : State -> Event -> State.
Variable allowed : State -> Event -> Prop.

Fixpoint accepted (s : State) (l : list Event) : Prop :=
  match l with
  | [] => True
  | e :: l' => allowed s e /\ accepted (step s e) l'
  end.

Definition after (s : State) (l : list Event) : State := fold_left step l s.

(** [wp m Q s]: whatever the user types, the monitor started in [s] allows
    every event of [m], and [Q] holds of the way [m] ends and of the state
    the monitor is in by then. *)
Definition wp {A} (m : M A) (Q : Outcome A -> State -> Prop) (s : State) : Prop :=
  forall input,
    accepted s (events (m input))
    /\ Q (outcome (m input)) (after s (events (m input))).

(** The postcondition of the first half of a [bind]. *)
Definition then_wp {A B} (k : A -> M B) (Q : Outcome B -> State -> Prop)
  (o : Outcome A) (s : State) : Prop :=
  match o with
  | Returned a => wp (k a) Q s
  | Exited status => Q (Exited status) s
  | Threw e => Q (Threw e) s
  | Waiting => Q Waiting s
  end.

End Monitor.

Arguments accepted {State} step allowed s l.
Arguments after {State} step s l.
Arguments wp {State} step allowed {A} m Q s.
Arguments then_wp {State} step allowed {A B} k Q o s.

(** *** The monitors of the statements *)




(** What the program may spawn and write: git, in the configuration
    directory unless it is [git --version]; the removal of [.git] in the
    configuration directory; the rename of the configuration directory to
    its backup and the [mkdir] that replaces it; the ignore file. *)
Definition permitted (w : World) (dir : string) (a : Action) : Prop :=
  match a with
  | Spawn file args opts =>
    (file = "git" /\ (args = ["--version"] \/ cwd opts = Some dir))
    \/ (file = "rm" /\ args = ["-rf"; ".git"] /\ cwd opts = Some dir)
    \/ (file = "mv" /\ args = [dir; backup_of w dir])
    \/ (file = "mkdir" /\ args = [dir])
  | WriteFile path data =>
    path = path_join w [dir; ".gitignore"] /\ data = gitignoreContent
  end.

Definition action_allowed (w : World) (dir : string) (_ : unit) (e : Event) : Prop :=
  match e with
  | Ran a _ => permitted w dir a
  | _ => True
  end.

Definition no_step (_ : unit) (_ : Event) : unit := tt.

(** A subprocess or file write that failed, other than a probe of the
    module. *)
Definition failed (e : Event) : option Action :=
  match e with
  | Ran a false => if is_probe e then None else Some a
  | _ => None
  end.

(** After a failure nothing is allowed. *)
Definition fail_allowed (s : option Action) (_ : Event) : Prop := s = None.

Definition fail_step (s : option Action) (e : Event) : option Action :=
  match s with
  | Some a => Some a
  | None => failed e
  end.

(** What a run may end like once something failed, and the only statuses
    it may exit with. *)
Definition fail_post (o : Outcome unit) (s : option Action) : Prop :=
  (forall a, s = Some a -> o = Threw (failure a))
  /\ (forall status, o = Exited status -> status = 0%Z \/ status = 1%Z).

(** How far a run is with complaining: it has printed nothing on standard
    error, or a line on standard error, or the usage screen after such a
    line. *)
Inductive Stage : Type := Working | Complained | Explained.

(** After a line on standard error only the usage screen may follow, and
    nothing after that. *)
Definition complaint_allowed (s : Stage) (e : Event) : Prop :=
  match s with
  | Working => True
  | Complained => e = Printed help_text
  | Explained => False
  end.

Definition complaint_step (s : Stage) (e : Event) : Stage :=
  match s, e with
  | Working, PrintedError _ => Complained
  | Working, _ => Working
  | _, _ => Explained
  end.

Definition complaint_post (o : Outcome unit) (s : Stage) : Prop :=
  s <> Working -> o = Exited 1.

(** A prompt no line came for. *)
Definition unanswered (e : Event) : bool :=
  match e with
  | Asked _ None => true
  | _ => false
  end.

(** After such a prompt nothing happens; a run never just returns, it
    waits exactly when its last event is such a prompt, and exits or throws
    otherwise. *)
Definition open_allowed (s : bool) (_ : Event) : Prop := s = false.

Definition open_step (_ : bool) (e : Event) : bool := unanswered e.

Definition end_post (o : Outcome unit) (s : bool) : Prop :=
  match o with
  | Returned _ => False
  | Waiting => s = true
  | Exited _ | Threw _ => s = false
  end.

(** The shell command lines of a run, in order. *)
Fixpoint shells (l : list Event) : list ShellCommand :=
  match l with
  | [] => []
  | Shell c _ :: l' => c :: shells l'
  | _ :: l' => shells l'
  end.

Definition shell_step (s : list ShellCommand) (e : Event) : list ShellCommand :=
  s ++ shells [e].

Definition any_event (_ : list ShellCommand) (_ : Event) : Prop := True.

(** What the shell command lines of a run can be: none; the lookup; the
    lookup and one [kill]; and either of the last two followed by the one
    [git diff-index] of a push. *)
Definition shell_shape (w : World) (s : list ShellCommand) : Prop :=
  let pgrep := Pgrep "UltiMaker-Cura" in
  s = []
  \/ s = [pgrep]
  \/ (exists pid, s = [pgrep; Kill pid])
  \/ (exists dir, directory w dir /\ s = [pgrep; DiffIndex dir])
  \/ (exists pid dir, directory w dir /\ s = [pgrep; Kill pid; DiffIndex dir]).

Definition shell_post (w : World) (_ : Outcome unit) (s : list ShellCommand) : Prop :=
  shell_shape w s.

(** ** Worlds in which something is wrong *)

Module Broken.

Definition on_platform (p : string) (w : World) : World :=
  {| platform := p; username := username w; existsSync := existsSync w;
     urlParses := urlParses w; argv := argv w; now := now w;
     execFileSync := execFileSync w; shell := shell w;
     writeFileSync := writeFileSync w; stdin := stdin w |}.

Definition without_file (path : string) (w : World) : World :=
  {| platform := platform w; username := username w;
     existsSync := fun p => if (p =? path)%string then false else existsSync w p;
     urlParses := urlParses w; argv := argv w; now := now w;
     execFileSync := execFileSync w; shell := shell w;
     writeFileSync := writeFileSync w; stdin := stdin w |}.

(** [file verb ...] fails. *)
Definition failing (file verb : string) (w : World) : World :=
  {| platform := platform w; username := username w; existsSync := existsSync w;
     urlParses := urlParses w; argv := argv w; now := now w;
     execFileSync := fun f args o =>
       if ((f =? file) && (hd EmptyString args =? verb))%string then None
       else execFileSync w f args o;
     shell := shell w;
     writeFileSync := writeFileSync w; stdin := stdin w |}.

(** [kill] exits with 1 and complains. *)
Definition kill_fails (complaint : string) (w : World) : World :=
  {| platform := platform w; username := username w; existsSync := existsSync w;
     urlParses := urlParses w; argv := argv w; now := now w;
     execFileSync := execFileSync w;
     shell := fun c =>
       match c with
       | Kill _ => {| exitCode := 1; stdout := EmptyString; stderr := complaint |}
       | _ => shell w c
       end;
     writeFileSync := writeFileSync w; stdin := stdin w |}.

End Broken.

(** * Properties *)

(** ** The text and path primitives at work *)

Example trim_lines : Js.trim "  Y
" = "Y".
Proof. reflexivity. Qed.

Example number_pid : Js.Number "4711
" = Some (Js.Finite 4711 0).
Proof. reflexivity. Qed.

Example number_two_pids : Js.Number "4711
4712" = None.
Proof. reflexivity. Qed.

Example number_empty : Js.Number EmptyString = Some (Js.Finite 0 0).
Proof. reflexivity. Qed.

Example number_forms :
  Js.Number "0x1F" = Some (Js.Finite 31 0)
  /\ Js.Number "-12.50e1" = Some (Js.Finite (-1250) (-1))
  /\ Js.Number ".5" = Some (Js.Finite 5 (-1))
  /\ Js.Number "5." = Some (Js.Finite 5 0)
  /\ Js.Number "." = None
  /\ Js.Number "+Infinity" = Some (Js.Infinite false)
  /\ Js.Number "1e" = None
  /\ Js.Number "12 3" = None
  /\ Js.Number "0x" = None
  /\ Js.Number "-0x10" = None.
Proof. repeat split; reflexivity. Qed.

Example integer_text_now : Js.integer_text 1700000000123 = "1700000000123".
Proof. reflexivity. Qed.

Example posix_join_backup :
  Path.posix_join ["/home/ada/.local/share/cura"; "../cura_backup_1700000000123"]
  = "/home/ada/.local/share/cura_backup_1700000000123".
Proof. reflexivity. Qed.

Example posix_join_ignore :
  Path.posix_join ["/Users/ada/Library/Application Support/cura"; ".gitignore"]
  = "/Users/ada/Library/Application Support/cura/.gitignore".
Proof. reflexivity. Qed.

Example posix_join_odd :
  Path.posix_join ["/home//x/./y/"; "../../../../z/"] = "/z/"
  /\ Path.posix_join ["a"; "../../b"] = "../b"
  /\ Path.posix_join [EmptyString; EmptyString] = ".".
Proof. repeat split; reflexivity. Qed.

Example win32_join_backup :
  Path.win32_join ["C:\Users\ada\AppData\Roaming\cura"; "../cura_backup_17"]
  = "C:\Users\ada\AppData\Roaming\cura_backup_17".
Proof. reflexivity. Qed.

(** ** Runs of the example worlds *)

Example run_cwd :
  run (Sample.world ["cwd"] [] Sample.nothing true 0)
  = {| outcome := Exited 0;
       events := [Ran git_version true; Ran (git_status Sample.dir) true;
                  Printed Sample.dir];
       unread := [] |}.
Proof. reflexivity. Qed.

Example run_clone_spawned :
  spawned (events (run (Sample.world ["clone"; Sample.repo] ["what"; " Y"; EmptyString]
                          (Sample.fine "4711") true 0)))
  = probes Sample.dir
    ++ [Spawn "mv" [Sample.dir; "/home/ada/.local/share/cura_backup_1700000000123"]
          no_options;
        Spawn "mkdir" [Sample.dir] no_options;
        Spawn "git" ["clone"; Sample.repo; "."] (in_dir Sample.dir)].
Proof. reflexivity. Qed.

Example run_push_clean :
  let r := run (Sample.world ["push"] [] Sample.nothing true 0) in
  outcome r = Exited 1
  /\ printed (events r) = [PrintedError "Looks like there are no changes to push"].
Proof. split; reflexivity. Qed.

(** ** Loading the module *)

Lemma getOperatingSystem_run w i :
  (exists os, getOperatingSystem w i
              = {| outcome := Returned os; events := []; unread := i |})
  \/ getOperatingSystem w i
     = {| outcome := Threw (Error "Unknown OS"); events := []; unread := i |}.
Proof.
  unfold getOperatingSystem.
  destruct (platform w =? "darwin")%string; [left; now exists MacOS|].
  destruct (platform w =? "win32")%string; [left; now exists Windows|].
  destruct (platform w =? "linux")%string; [left; now exists Linux|].
  now right.
Qed.

Lemma getDefaultCuraDirectory_run w i :
  (exists dir, getDefaultCuraDirectory w i
               = {| outcome := Returned dir; events := []; unread := i |})
  \/ getDefaultCuraDirectory w i
     = {| outcome := Threw (Error "Unknown OS"); events := []; unread := i |}.
Proof.
  unfold getDefaultCuraDirectory, bind.
  destruct (getOperatingSystem_run w i) as [[os E] | E]; rewrite E; simpl.
  - left. eexists. reflexivity.
  - now right.
Qed.

(** The directory depends on the world only, not on the moment it is asked
    for. *)
Lemma getDefaultCuraDirectory_input w i j :
  outcome (getDefaultCuraDirectory w i) = outcome (getDefaultCuraDirectory w j).
Proof.
  unfold getDefaultCuraDirectory, bind, getOperatingSystem.
  destruct (platform w =? "darwin")%string; [reflexivity|].
  destruct (platform w =? "win32")%string; [reflexivity|].
  destruct (platform w =? "linux")%string; reflexivity.
Qed.

(** Loading either succeeds, having run the two probes (the first with
    success) and read nothing, or throws, having run probes at most. *)
Lemma load_cases w i :
  (exists dir g,
      load w i = {| outcome := Returned (dir, g);
                    events := [Ran git_version true; Ran (git_status dir) g];
                    unread := i |}
      /\ forall j, getDefaultCuraDirectory w j
                   = {| outcome := Returned dir; events := []; unread := j |})
  \/ ((exists e, outcome (load w i) = Threw e)
      /\ forallb is_probe (events (load w i)) = true
      /\ unread (load w i) = i).
Proof.
  unfold load, checkCuraDirectory, checkGitInstallation, checkCuraVersionDirectory,
    checkGitInitialization, execFile_succeeds, bind.
  destruct (getDefaultCuraDirectory_run w i) as [[d E] | E]; rewrite E; simpl;
    [|right; repeat split; eexists; reflexivity].
  destruct (existsSync w d); simpl;
    [|right; repeat split; eexists; reflexivity].
  rewrite E; simpl.
  destruct (execFileSync w "git" ["--version"] _); simpl;
    [|right; repeat split; eexists; reflexivity].
  destruct (existsSync w (d +++ "/5.6")); simpl;
    [|right; repeat split; eexists; reflexivity].
  left. do 2 eexists. split; [reflexivity|].
  intros j. destruct (getDefaultCuraDirectory_run w j) as [[d' E'] | E'].
  - rewrite E'. pose proof (getDefaultCuraDirectory_input w i j) as Q.
    rewrite E, E' in Q. simpl in Q. congruence.
  - pose proof (getDefaultCuraDirectory_input w i j) as Q.
    rewrite E, E' in Q. discriminate.
Qed.

Lemma load_loaded w dir g i :
  outcome (load w i) = Returned (dir, g) ->
  load w i = {| outcome := Returned (dir, g);
                events := [Ran git_version true; Ran (git_status dir) g];
                unread := i |}
  /\ forall j, getDefaultCuraDirectory w j
               = {| outcome := Returned dir; events := []; unread := j |}.
Proof.
  intros H. destruct (load_cases w i) as [(d & g' & E & D) | ([e E] & _)].
  - rewrite E in H. simpl in H. injection H as <- <-. split; assumption.
  - congruence.
Qed.

Lemma load_run w i :
  forallb is_probe (events (load w i)) = true
  /\ unread (load w i) = i
  /\ ((exists v, outcome (load w i) = Returned v)
      \/ exists e, outcome (load w i) = Threw e).
Proof.
  destruct (load_cases w i) as [(d & g & E & _) | (T & P & U)].
  - rewrite E. simpl. repeat split. left. eexists. reflexivity.
  - repeat split; auto.
Qed.

Lemma run_loaded w dir g :
  loaded w dir g ->
  run w = prepend [Ran git_version true; Ran (git_status dir) g]
            (main w dir g (stdin w)).
Proof.
  intros H. unfold run, curasync, bind.
  destruct (load_loaded w dir g (stdin w) H) as [-> _]. reflexivity.
Qed.

(** ** Dispatch *)

Lemma nth_error_2_length {A} (l : list A) x :
  nth_error l 2 = Some x -> (length l =? 2)%nat = false.
Proof.
  destruct l as [|a [|b [|c [|d l]]]]; simpl; intros H; try discriminate; reflexivity.
Qed.

Lemma main_dispatch w dir g pos cmd :
  parseArgs (argv w) = Some pos ->
  nth_error pos 2 = Some cmd ->
  main w dir g =
    if (cmd =? "help")%string then (printHelp ;; exit 0)
    else if (cmd =? "init")%string then main_init w dir g pos
    else if (cmd =? "clone")%string then main_clone w pos
    else if (cmd =? "pull")%string then main_pull w dir
    else if (cmd =? "push")%string then main_push w dir
    else if (cmd =? "cwd")%string then (console_log dir ;; exit 0)
    else (console_error ("unrecognized command " +++ cmd) ;; printHelp ;; exit 1).
Proof.
  intros P N. unfold main. rewrite P, (nth_error_2_length _ _ N), N. reflexivity.
Qed.

Lemma parseArgs_throws args :
  parseArgs args = None <-> existsb is_option_word (before_terminator args) = true.
Proof.
  induction args as [|a rest IH]; simpl.
  - split; discriminate.
  - destruct (a =? "--")%string; simpl; [split; discriminate|].
    destruct (is_option_word a); simpl; [tauto|].
    destruct (parseArgs rest); simpl.
    + split; [discriminate|]. intros H. apply IH in H. discriminate.
    + split; [intros _; now apply IH | reflexivity].
Qed.

(** C8, as amended.  When the module loads and the subcommand is cwd, the
    run prints the configuration directory and nothing else, reads nothing
    from the terminal and exits with status 0; its only subprocesses are the
    two probes every invocation starts with, [git --version] and [git
    status], and it writes no file. *)
Theorem cwd_prints_directory w dir g pos :
  loaded w dir g ->
  parseArgs (argv w) = Some pos ->
  nth_error pos 2 = Some "cwd" ->
  run w = {| outcome := Exited 0;
             events := [Ran git_version true; Ran (git_status dir) g; Printed dir];
             unread := stdin w |}.
Proof.
  intros L P N. rewrite (run_loaded w dir g L).
  rewrite (main_dispatch w dir g pos "cwd" P N). reflexivity.
Qed.

Lemma cwd_prints_directory_witness :
  run (Sample.world ["cwd"] [] Sample.nothing false 0)
  = {| outcome := Exited 0;
       events := [Ran git_version true; Ran (git_status Sample.dir) false;
                  Printed Sample.dir];
       unread := [] |}.
Proof.
  apply (cwd_prints_directory (Sample.world ["cwd"] [] Sample.nothing false 0)
           Sample.dir false ["/usr/bin/bun"; "/usr/bin/curasync"; "cwd"]);
    reflexivity.
Defined.

(** C8 as stated fails: a cwd run does invoke subprocesses. *)
Lemma cwd_runs_subprocesses :
  let w := Sample.world ["cwd"] [] Sample.nothing true 0 in
  nth_error (argv w) 2 = Some "cwd"
  /\ outcome (run w) = Exited 0
  /\ spawned (events (run w)) = [git_version; git_status Sample.dir]
  /\ spawned (events (run w)) <> [].
Proof. repeat split; try reflexivity. discriminate. Qed.

(** C9, as amended.  When a word of two characters or more that starts
    with "-", other than "--", stands before any bare "--" in the argument
    list, the run ends in an uncaught error with nothing dispatched: nothing
    is printed or asked and only the probes of the module ran; once the
    module has loaded the error is that of [parseArgs]. *)
Theorem option_word_throws w :
  existsb is_option_word (before_terminator (argv w)) = true ->
  (exists e, outcome (run w) = Threw e)
  /\ forallb is_probe (events (run w)) = true
  /\ unread (run w) = stdin w
  /\ forall dir g, loaded w dir g -> outcome (run w) = Threw ParseArgsError.
Proof.
  intros H. apply parseArgs_throws in H.
  assert (M : forall dir g i, main w dir g i
              = {| outcome := Threw ParseArgsError; events := []; unread := i |}).
  { intros. unfold main. rewrite H. reflexivity. }
  destruct (load_run w (stdin w)) as (Pr & Un & Out).
  assert (L : forall dir g, loaded w dir g -> outcome (load w (stdin w)) = Returned (dir, g))
    by (intros; assumption).
  unfold run, curasync, bind.
  destruct (load w (stdin w)) as [o ev u]. simpl in *. subst u.
  destruct Out as [[v E] | [e E]]; subst o.
  - rewrite M. simpl. rewrite app_nil_r. repeat split; auto.
    eexists; reflexivity.
  - repeat split; auto.
    + eexists; reflexivity.
    + intros dir g Ld. apply L in Ld. discriminate.
Qed.

Lemma option_word_throws_witness :
  let w := Sample.world ["cwd"; "-v"] [] Sample.nothing true 0 in
  (exists e, outcome (run w) = Threw e)
  /\ forallb is_probe (events (run w)) = true
  /\ unread (run w) = stdin w
  /\ forall dir g, loaded w dir g -> outcome (run w) = Threw ParseArgsError.
Proof.
  apply (option_word_throws (Sample.world ["cwd"; "-v"] [] Sample.nothing true 0)).
  reflexivity.
Defined.

(** C9 as stated fails: words that start with "-" are accepted as
    positionals, after a bare "--" and when the word is "-" itself, and the
    subcommand is dispatched. *)
Lemma dash_words_dispatched :
  let w := Sample.world ["--"; "cwd"] [] Sample.nothing true 0 in
  let w' := Sample.world ["-"] [] Sample.nothing true 0 in
  existsb (String.prefix "-") (argv w) = true
  /\ run w = {| outcome := Exited 0;
                events := [Ran git_version true; Ran (git_status Sample.dir) true;
                           Printed Sample.dir];
                unread := [] |}
  /\ existsb (String.prefix "-") (argv w') = true
  /\ outcome (run w') = Exited 1
  /\ hd_error (printed (events (run w'))) = Some (PrintedError "unrecognized command -").
Proof. repeat split; reflexivity. Qed.

(** ** The yes/no prompt *)

Lemma confirm_cons q d line rest :
  confirm q d (line :: rest) =
    let asked := Asked (confirm_prompt q d) (Some line) in
    if (normal line =? "y")%string then
      {| outcome := Returned (Some Yes); events := [asked]; unread := rest |}
    else if (normal line =? "n")%string then
      {| outcome := Returned (Some No); events := [asked]; unread := rest |}
    else if (normal line =? EmptyString)%string then
      {| outcome := Returned d; events := [asked]; unread := rest |}
    else prepend [asked] (confirm q d rest).
Proof. reflexivity. Qed.

Lemma confirm_undecided q d line rest :
  undecided line ->
  confirm q d (line :: rest)
  = prepend [Asked (confirm_prompt q d) (Some line)] (confirm q d rest).
Proof.
  intros (Hy & Hn & He). rewrite confirm_cons. cbv zeta.
  apply String.eqb_neq in Hy, Hn, He. now rewrite Hy, Hn, He.
Qed.

Lemma prepend_prepend {A} ev ev' (r : Run A) :
  prepend ev (prepend ev' r) = prepend (ev ++ ev') r.
Proof. destruct r. simpl. now rewrite app_assoc. Qed.

Lemma prepend_nil {A} (r : Run A) : prepend [] r = r.
Proof. now destruct r. Qed.

Lemma outcome_prepend {A} ev (r : Run A) : outcome (prepend ev r) = outcome r.
Proof. now destruct r. Qed.

Lemma events_prepend {A} ev (r : Run A) : events (prepend ev r) = ev ++ events r.
Proof. now destruct r. Qed.

Lemma unread_prepend {A} ev (r : Run A) : unread (prepend ev r) = unread r.
Proof. now destruct r. Qed.

(** Lines that settle nothing are asked about and skipped. *)
Lemma confirm_skips q d junk input :
  Forall undecided junk ->
  confirm q d (junk ++ input) = prepend (asks q d junk) (confirm q d input).
Proof.
  induction 1 as [|line junk U _ IH]; simpl app.
  - now rewrite prepend_nil.
  - rewrite (confirm_undecided _ _ _ _ U), IH, prepend_prepend. reflexivity.
Qed.

(** With a default, [confirm] has an answer whenever it returns. *)
Lemma confirm_default_answers q a input :
  outcome (confirm q (Some a) input) <> Returned None.
Proof.
  induction input as [|line rest IH]; [discriminate|].
  rewrite confirm_cons. cbv zeta.
  destruct (normal line =? "y")%string; [discriminate|].
  destruct (normal line =? "n")%string; [discriminate|].
  destruct (normal line =? EmptyString)%string; [discriminate|].
  now rewrite outcome_prepend.
Qed.

(** C6, as amended.  [confirm] compares each line trimmed and lower-cased.
    Lines that are then neither "y", "n" nor empty are asked about again,
    one prompt per line; the first line that is "y" or "n" is returned as
    that answer; the first line that is empty returns the default, which is
    the absent answer (null) when no default was given; when every line read
    is undecided the prompt stays open.  With a default, the answer returned
    is never absent. *)
Theorem confirm_answers q d junk line rest :
  Forall undecided junk ->
  let r := confirm q d (junk ++ line :: rest) in
  let done a := {| outcome := Returned a;
                   events := asks q d (junk ++ [line]);
                   unread := rest |} in
  (normal line = "y" -> r = done (Some Yes))
  /\ (normal line = "n" -> r = done (Some No))
  /\ (normal line = EmptyString -> r = done d)
  /\ (undecided line -> r = prepend (asks q d (junk ++ [line])) (confirm q d rest))
  /\ confirm q d junk
     = {| outcome := Waiting;
          events := asks q d junk ++ [Asked (confirm_prompt q d) None];
          unread := [] |}
  /\ forall a input, outcome (confirm q (Some a) input) <> Returned None.
Proof.
  intros J r done. subst r done.
  rewrite (confirm_skips q d junk (line :: rest) J).
  unfold asks. rewrite map_app. simpl map.
  repeat split.
  - intros H. rewrite confirm_cons, H. reflexivity.
  - intros H. rewrite confirm_cons, H. reflexivity.
  - intros H. rewrite confirm_cons, H. reflexivity.
  - intros U. rewrite (confirm_undecided _ _ _ _ U), prepend_prepend. reflexivity.
  - rewrite <- (app_nil_r junk) at 1.
    rewrite (confirm_skips q d junk [] J). reflexivity.
  - intros a input. apply confirm_default_answers.
Qed.

Lemma undecided_maybe : undecided "maybe".
Proof. repeat split; discriminate. Qed.

Lemma confirm_answers_witness :
  confirm "Proceed?" (Some No) ["maybe"; " Y "; "later"]
  = {| outcome := Returned (Some Yes);
       events := [Asked "Proceed? (y/N) " (Some "maybe");
                  Asked "Proceed? (y/N) " (Some " Y ")];
       unread := ["later"] |}.
Proof.
  apply (proj1 (confirm_answers "Proceed?" (Some No) ["maybe"] " Y " ["later"]
                  (Forall_cons _ undecided_maybe (Forall_nil _)))).
  reflexivity.
Defined.

(** C6 as stated fails: with no default, an empty line is not asked about
    again; [confirm] returns the absent answer. *)
Lemma confirm_returns_null :
  confirm "Proceed?" None [EmptyString; "y"]
  = {| outcome := Returned None;
       events := [Asked "Proceed? (y/n) " (Some EmptyString)];
       unread := ["y"] |}.
Proof. reflexivity. Qed.

Lemma confirm_shape q d input :
  exists junk,
    Forall undecided junk
    /\ ((input = junk
         /\ confirm q d input
            = {| outcome := Waiting;
                 events := asks q d junk ++ [Asked (confirm_prompt q d) None];
                 unread := [] |})
        \/ exists line rest a,
             input = junk ++ line :: rest
             /\ settles d line a
             /\ confirm q d input
                = {| outcome := Returned a;
                     events := asks q d (junk ++ [line]);
                     unread := rest |}).
Proof.
  induction input as [|line rest (junk & J & IH)].
  - exists []. split; [constructor|]. left. split; reflexivity.
  - rewrite confirm_cons. cbv zeta.
    destruct (normal line =? "y")%string eqn:Ey.
    { exists []. split; [constructor|]. right. exists line, rest, (Some Yes).
      apply String.eqb_eq in Ey. unfold settles. repeat split; auto. }
    destruct (normal line =? "n")%string eqn:En.
    { exists []. split; [constructor|]. right. exists line, rest, (Some No).
      apply String.eqb_eq in En. unfold settles. repeat split; auto. }
    destruct (normal line =? EmptyString)%string eqn:Ee.
    { exists []. split; [constructor|]. right. exists line, rest, d.
      apply String.eqb_eq in Ee. unfold settles. repeat split; auto. }
    apply String.eqb_neq in Ey, En, Ee.
    exists (line :: junk). split; [constructor; [repeat split|]; assumption|].
    destruct IH as [[-> E] | (l & r & a & -> & S & E)]; rewrite E; simpl.
    + left. split; reflexivity.
    + right. exists l, r, a. repeat split; auto.
Qed.

(** *** What the events of a prompt are not *)

Lemma spawned_app l l' : spawned (l ++ l') = spawned l ++ spawned l'.
Proof.
  induction l as [|e l IH]; [reflexivity|].
  destruct e; simpl; now rewrite IH.
Qed.

Lemma printed_app l l' : printed (l ++ l') = printed l ++ printed l'.
Proof.
  induction l as [|e l IH]; [reflexivity|].
  destruct e; simpl; now rewrite IH.
Qed.

Lemma spawned_asks q d lines : spawned (asks q d lines) = [].
Proof. induction lines; simpl; auto. Qed.

Lemma printed_asks q d lines : printed (asks q d lines) = [].
Proof. induction lines; simpl; auto. Qed.

Lemma existsb_asks f q d lines : not_asked f -> existsb f (asks q d lines) = false.
Proof. intros H. induction lines; simpl; [|rewrite H]; auto. Qed.

Lemma declines_asks_other q d lines :
  (confirm_prompt q d =? confirm_prompt kill_question (Some Yes))%string = false ->
  existsb declines (asks q d lines) = false.
Proof.
  intros H. induction lines as [|l lines IH]; [reflexivity|].
  change (asks q d (l :: lines))
    with (Asked (confirm_prompt q d) (Some l) :: asks q d lines).
  cbn [existsb declines]. rewrite H, IH. reflexivity.
Qed.

Lemma declines_asks_junk lines :
  Forall undecided lines ->
  existsb declines (asks kill_question (Some Yes) lines) = false.
Proof.
  induction 1 as [|l lines (_ & Hn & _) _ IH]; [reflexivity|].
  apply String.eqb_neq in Hn.
  change (asks kill_question (Some Yes) (l :: lines))
    with (Asked (confirm_prompt kill_question (Some Yes)) (Some l)
          :: asks kill_question (Some Yes) lines).
  cbn [existsb declines]. rewrite Hn, IH, andb_false_r. reflexivity.
Qed.

(** ** The process guard *)

(** [getCuraPid] runs the lookup and nothing else; it returns null when the
    lookup is clear, a number when the lookup exits with 0 and its trimmed
    output reads as a number, and throws otherwise. *)
Lemma getCuraPid_cases w i :
  (cleared (looked w) = true
   /\ getCuraPid w i
      = {| outcome := Returned None; events := [looked w]; unread := i |})
  \/ (cleared (looked w) = false
      /\ exists pid,
           exitCode (lookup w) = 0%Z
           /\ Js.Number (Js.trim (stdout (lookup w))) = Some pid
           /\ getCuraPid w i
              = {| outcome := Returned (Some pid); events := [looked w]; unread := i |})
  \/ (cleared (looked w) = false
      /\ ((exitCode (lookup w) = 0%Z
           /\ Js.Number (Js.trim (stdout (lookup w))) = None
           /\ getCuraPid w i
              = {| outcome := Threw (Error "No process number returned");
                   events := [looked w]; unread := i |})
          \/ (exitCode (lookup w) <> 0%Z
              /\ getCuraPid w i
                 = {| outcome := Threw (Error "pgrep Cura returned something weird");
                      events := [looked w; PrintedValue (lookup w)];
                      unread := i |}))).
Proof.
  unfold getCuraPid, bind, sh, looked, lookup. cbn [cleared prepend].
  destruct ((exitCode (shell w (Pgrep "UltiMaker-Cura")) =? 1)%Z
            && (String.length (stderr (shell w (Pgrep "UltiMaker-Cura"))) =? 0)%nat
            && (String.length (stdout (shell w (Pgrep "UltiMaker-Cura"))) =? 0)%nat).
  { left. split; reflexivity. }
  right.
  destruct (exitCode (shell w (Pgrep "UltiMaker-Cura")) =? 0)%Z eqn:E0.
  - apply Z.eqb_eq in E0.
    destruct (Js.Number (Js.trim (stdout (shell w (Pgrep "UltiMaker-Cura"))))) as [pid|].
    + left. split; [reflexivity|]. exists pid. repeat split; auto.
    + right. split; [reflexivity|]. left. repeat split; auto.
  - apply Z.eqb_neq in E0. right. split; [reflexivity|]. right. split; auto.
Qed.

Lemma killProcess_run w pid i :
  killProcess w pid i
  = let out := shell w (Kill pid) in
    {| outcome := if (exitCode out =? 0)%Z then Returned tt
                  else Threw (ThrownOutput (stderr out));
       events := [Shell (Kill pid) out];
       unread := i |}.
Proof.
  unfold killProcess, bind, sh. cbn [prepend].
  destruct (exitCode (shell w (Kill pid)) =? 0)%Z; reflexivity.
Qed.

Lemma asks_snoc q d junk line :
  asks q d (junk ++ [line]) = asks q d junk ++ [Asked (confirm_prompt q d) (Some line)].
Proof. unfold asks. now rewrite map_app. Qed.

Lemma cleared_not_asked : not_asked cleared.
Proof. intros p l. reflexivity. Qed.

Lemma declines_shell c out : declines (Shell c out) = false.
Proof. reflexivity. Qed.

Ltac read_events :=
  unfold looked in *;
  cbn [cleared] in *;
  repeat progress
    (cbn [prepend outcome events unread app ret
          spawned printed existsb cleared declines orb];
     rewrite ?asks_snoc, ?app_nil_r, ?spawned_app, ?existsb_app, ?printed_app,
       ?spawned_asks, ?printed_asks, ?(existsb_asks cleared _ _ _ cleared_not_asked)).

Lemma confirmAndKillCura_facts w i : guard_facts (confirmAndKillCura w i).
Proof.
  unfold guard_facts, confirmAndKillCura, bind.
  destruct (getCuraPid_cases w i)
    as [(C & ->) | [(C & pid & _ & _ & ->) | (C & [(_ & _ & ->) | (_ & ->)])]];
    read_events.
  - rewrite C. repeat split; try discriminate; auto.
  - destruct (confirm_shape kill_question (Some Yes) i)
      as (junk & J & [[-> E] | (line & rest & a & -> & S & E)]); rewrite E.
    + read_events. rewrite C, (declines_asks_junk _ J).
      repeat split; try discriminate.
    + destruct S as [[Hy ->] | [[Hn ->] | [He ->]]].
      * rewrite killProcess_run. cbv zeta.
        destruct (exitCode (shell w (Kill pid)) =? 0)%Z eqn:K;
          read_events; rewrite C, (declines_asks_junk _ J), ?K, Hy;
          repeat split; try discriminate; auto.
      * read_events. rewrite C, (declines_asks_junk _ J), Hn.
        repeat split; try discriminate; auto.
      * rewrite killProcess_run. cbv zeta.
        destruct (exitCode (shell w (Kill pid)) =? 0)%Z eqn:K;
          read_events; rewrite C, (declines_asks_junk _ J), ?K, He;
          repeat split; try discriminate; auto.
  - rewrite C. repeat split; try discriminate.
  - rewrite C. repeat split; try discriminate.
Qed.

(** A lookup that exits with 0 and prints only white space yields the
    number 0, not an error. *)
Lemma getCuraPid_blank w i :
  exitCode (lookup w) = 0%Z ->
  Js.trim_chars (Js.chars (Js.trim (stdout (lookup w)))) = [] ->
  getCuraPid w i
  = {| outcome := Returned (Some (Js.Finite 0 0)); events := [looked w]; unread := i |}.
Proof.
  intros E0 B.
  assert (N : Js.Number (Js.trim (stdout (lookup w))) = Some (Js.Finite 0 0))
    by (unfold Js.Number; now rewrite B).
  destruct (getCuraPid_cases w i)
    as [(C & _) | [(_ & pid & _ & P & ->) | (_ & [(_ & P & _) | (P & _)])]];
    try congruence.
  unfold looked in C. cbn [cleared] in C. rewrite E0 in C. discriminate.
Qed.

(** C10.  [getCuraPid] on a lookup that exits with 0: two lines of process
    numbers make it throw "No process number returned"; no output at all
    makes it return the number 0, and the guard then asks to terminate and
    runs [kill 0]. *)
Theorem getCuraPid_no_number_returned :
  let two := Sample.world ["init"; Sample.repo] [] (Sample.fine "4711
4712
") false 0 in
  let blank := Sample.world ["init"; Sample.repo] ["y"; "y"] (Sample.fine EmptyString)
                 false 0 in
  getCuraPid two []
  = {| outcome := Threw (Error "No process number returned");
       events := [looked two]; unread := [] |}
  /\ getCuraPid blank []
     = {| outcome := Returned (Some (Js.Finite 0 0));
          events := [looked blank]; unread := [] |}
  /\ In (Shell (Kill (Js.Finite 0 0)) (Sample.fine EmptyString)) (events (run blank)).
Proof.
  repeat split; try reflexivity.
  vm_compute. tauto.
Qed.

(** ** initialize *)

Ltac run_step :=
  cbn [prepend outcome events unread app ret bind emit throw exit
       console_log console_error negb spawned printed attempted succeeds
       forallb andb existsb orb fst snd].

Ltac spawn_cases w :=
  repeat match goal with
         | |- context [execFileSync w ?f ?a ?o] =>
           let E := fresh "E" in
           destruct (execFileSync w f a o) eqn:E; run_step
         | |- context [writeFileSync w ?p ?d] =>
           let E := fresh "E" in
           destruct (writeFileSync w p d) eqn:E; run_step
         end.

Lemma perform_spawned w plan input :
  spawned (events (perform w plan input)) = attempted w plan.
Proof.
  induction plan as [|a rest IH]; [reflexivity|]. simpl.
  destruct (succeeds w a); [|reflexivity].
  rewrite events_prepend. simpl. now rewrite IH.
Qed.

Lemma attempted_all w plan :
  forallb (succeeds w) plan = true -> attempted w plan = plan.
Proof.
  induction plan as [|a rest IH]; [reflexivity|]. simpl.
  destruct (succeeds w a); [|discriminate]. intros H. now rewrite IH.
Qed.

Lemma perform_returns w plan input :
  outcome (perform w plan input) = Returned tt <-> forallb (succeeds w) plan = true.
Proof.
  induction plan as [|a rest IH]; simpl; [tauto|].
  destruct (succeeds w a); simpl.
  - now rewrite outcome_prepend.
  - split; discriminate.
Qed.

(** When a plan is carried out to its end, each step is an event of its
    own, marked as a success, in the order of the plan. *)
Lemma perform_events w plan input :
  forallb (succeeds w) plan = true ->
  events (perform w plan input) = map (fun a => Ran a true) plan
  /\ unread (perform w plan input) = input.
Proof.
  induction plan as [|a rest IH]; simpl; [auto|].
  destruct (succeeds w a); [|discriminate]. intros H.
  rewrite events_prepend, unread_prepend. destruct (IH H) as [-> ->]. auto.
Qed.

(** [initializeRepo] is the guard and then the plan. *)
Lemma initializeRepo_run w dir g url i :
  initializeRepo w dir g url i =
    match confirmAndKillCura w i with
    | {| outcome := Returned true; events := ev; unread := u |} =>
      prepend ev (perform w (init_plan w dir g url) u)
    | {| outcome := Returned false; events := ev; unread := u |} =>
      {| outcome := Threw (Error "Exiting: cura is still running");
         events := ev; unread := u |}
    | {| outcome := Exited status; events := ev; unread := u |} =>
      {| outcome := Exited status; events := ev; unread := u |}
    | {| outcome := Threw e; events := ev; unread := u |} =>
      {| outcome := Threw e; events := ev; unread := u |}
    | {| outcome := Waiting; events := ev; unread := u |} =>
      {| outcome := Waiting; events := ev; unread := u |}
    end.
Proof.
  unfold initializeRepo, bind at 1.
  destruct (confirmAndKillCura w i) as [o ev u].
  destruct o as [[|]|st|e|]; run_step; rewrite ?app_nil_r; try reflexivity.
  f_equal. unfold init_plan, execFile, writeFile.
  destruct g; run_step; cbn [perform succeeds failure];
    spawn_cases w; reflexivity.
Qed.

(** C2.  [initializeRepo] starts, after the guard, nothing but the steps of
    its plan, each only after the one before it succeeded, and undoes
    nothing.  A run that returns started them all, in order: remove [.git]
    (when the directory was a working copy at load time), [git init], [git
    remote add origin url], [git add .], [git commit -m "[curasync] init"],
    [git push -u origin main], and last the write of the ignore file, after
    the push.  It returns whenever the guard lets it pass and every step
    succeeds. *)
Theorem initializeRepo_order w dir g url i :
  let r := initializeRepo w dir g url i in
  let plan := init_plan w dir g url in
  (spawned (events r) = [] \/ spawned (events r) = attempted w plan)
  /\ (outcome r = Returned tt ->
      spawned (events r) = plan
      /\ outcome (confirmAndKillCura w i) = Returned true
      /\ events r
         = events (confirmAndKillCura w i) ++ map (fun a => Ran a true) plan)
  /\ (outcome (confirmAndKillCura w i) = Returned true ->
      forallb (succeeds w) plan = true ->
      outcome r = Returned tt).
Proof.
  intros r plan. subst r plan.
  pose proof (confirmAndKillCura_facts w i) as (Sp & _).
  rewrite initializeRepo_run.
  destruct (confirmAndKillCura w i) as [o ev u]. cbn [outcome events unread] in *.
  destruct o as [[|]|st|e|]; cbn [outcome events];
    try (repeat split; auto; discriminate).
  rewrite outcome_prepend, events_prepend, spawned_app, Sp, perform_spawned.
  cbn [app]. repeat split; auto.
  - apply perform_returns in H. now apply attempted_all.
  - apply perform_returns in H. now destruct (perform_events w _ u H) as [-> _].
  - intros _ H. now apply perform_returns.
Qed.

Lemma initializeRepo_order_witness :
  let w := Sample.world ["init"; Sample.repo] [EmptyString] (Sample.fine "4711") true 0 in
  let r := initializeRepo w Sample.dir true Sample.repo (stdin w) in
  outcome r = Returned tt
  /\ spawned (events r)
     = [Spawn "rm" ["-rf"; ".git"] (in_dir Sample.dir);
        Spawn "git" ["init"] (in_dir Sample.dir);
        Spawn "git" ["remote"; "add"; "origin"; Sample.repo] (in_dir Sample.dir);
        Spawn "git" ["add"; "."] (in_dir Sample.dir);
        Spawn "git" ["commit"; "-m"; "[curasync] init"] (in_dir Sample.dir);
        Spawn "git" ["push"; "-u"; "origin"; "main"] (in_dir Sample.dir);
        WriteFile "/home/ada/.local/share/cura/.gitignore" gitignoreContent].
Proof.
  intros w r.
  assert (R : outcome r = Returned tt).
  { apply (proj2 (proj2 (initializeRepo_order w Sample.dir true Sample.repo (stdin w))));
      reflexivity. }
  split; [exact R|].
  exact (proj1 (proj1 (proj2 (initializeRepo_order w Sample.dir true Sample.repo
                                (stdin w))) R)).
Defined.

(** ** Mutations behind the guard *)

Lemma guarded_from_clear l : guarded_from true l = true.
Proof. induction l as [|e l IH]; simpl; [|rewrite orb_true_r]; auto. Qed.

Lemma guarded_from_app c l l' :
  guarded_from c (l ++ l')
  = guarded_from c l && guarded_from (c || existsb cleared l) l'.
Proof.
  revert c. induction l as [|e l IH]; intros c; simpl.
  - now rewrite orb_false_r.
  - rewrite IH, andb_assoc, orb_assoc. reflexivity.
Qed.

Lemma guarded_from_quiet c l : spawned l = [] -> guarded_from c l = true.
Proof.
  revert c. induction l as [|e l IH]; intros c H; [reflexivity|].
  destruct e; simpl in *; try discriminate; now rewrite IH.
Qed.

(** What [guarded_from] decides: every mutation of the run has, earlier in
    the run, a clear lookup or a successful termination. *)
Lemma guarded_from_sound c l :
  guarded_from c l = true ->
  forall l1 e l2, l = l1 ++ e :: l2 -> mutates e = true ->
                  c = true \/ existsb cleared l1 = true.
Proof.
  revert c. induction l as [|x l IH]; intros c G l1 e l2 E M.
  - destruct l1; discriminate.
  - simpl in G. apply andb_prop in G as [G1 G2].
    destruct l1 as [|y l1]; simpl in E; injection E as -> ->.
    + rewrite M in G1. simpl in G1. now left.
    + destruct (IH _ G2 l1 e l2 eq_refl M) as [H | H].
      * apply orb_prop in H as [H | H]; [now left|]. right. simpl. now rewrite H.
      * right. simpl. rewrite H. now rewrite orb_true_r.
Qed.

Lemma existsb_quiet_cleared q d lines : existsb cleared (asks q d lines) = false.
Proof. apply existsb_asks, cleared_not_asked. Qed.

(** ** clone *)

Lemma clone_question_other :
  (confirm_prompt clone_question (Some No)
   =? confirm_prompt kill_question (Some Yes))%string = false.
Proof. reflexivity. Qed.

Lemma init_question_other :
  (confirm_prompt init_question (Some No)
   =? confirm_prompt kill_question (Some Yes))%string = false.
Proof. reflexivity. Qed.

Lemma overwrite_question_other :
  (confirm_prompt overwrite_question (Some No)
   =? confirm_prompt kill_question (Some Yes))%string = false.
Proof. reflexivity. Qed.

Lemma guarded_asks c q d lines : guarded_from c (asks q d lines) = true.
Proof. apply guarded_from_quiet, spawned_asks. Qed.

Lemma declines_clone lines :
  existsb declines (asks clone_question (Some No) lines) = false.
Proof. apply declines_asks_other, clone_question_other. Qed.

Lemma declines_init lines :
  existsb declines (asks init_question (Some No) lines) = false.
Proof. apply declines_asks_other, init_question_other. Qed.

Lemma declines_overwrite lines :
  existsb declines (asks overwrite_question (Some No) lines) = false.
Proof. apply declines_asks_other, overwrite_question_other. Qed.

Create Rewrite HintDb events.

#[local] Hint Rewrite guarded_from_app existsb_app spawned_app printed_app
  asks_snoc spawned_asks printed_asks existsb_quiet_cleared guarded_asks
  declines_clone declines_init declines_overwrite app_nil_r
  orb_false_r orb_true_r andb_true_r andb_false_r : events.

Ltac run_in R :=
  cbn [prepend outcome events unread app ret emit throw exit
       console_log console_error negb is_yes fst snd] in R.

Ltac spawn_cases_in w R :=
  repeat match type of R with
         | context [execFileSync w ?f ?a ?o] =>
           let E := fresh "E" in
           destruct (execFileSync w f a o) eqn:E; run_in R
         | context [writeFileSync w ?p ?d] =>
           let E := fresh "E" in
           destruct (writeFileSync w p d) eqn:E; run_in R
         end.

(** Read the facts off a run that has been computed. *)
Ltac use_facts :=
  repeat match goal with
         | H : spawned _ = [] |- _ => rewrite H
         | H : spawned _ = [] |- _ => rewrite (guarded_from_quiet _ _ H)
         | H : existsb _ _ = _ |- _ => rewrite H
         | H : execFileSync _ _ _ _ = _ |- _ => rewrite H
         | H : writeFileSync _ _ _ = _ |- _ => rewrite H
         | H : normal _ = _ |- _ => rewrite H
         end.

Ltac read_run :=
  subst;
  cbn [outcome events unread];
  repeat progress
    (autorewrite with events; use_facts; rewrite ?guarded_from_clear;
     cbn [spawned printed existsb cleared declines mutates orb andb negb app]);
  cbn [guarded_from mutates is_probe orb andb negb].

(** From the two directions of a guard fact, its boolean. *)
Lemma decide_fact {P : Prop} {b : bool} :
  (P <-> b = true) -> (P -> False) -> b = false.
Proof. intros [_ H] N. destruct b; [destruct (N (H eq_refl))|reflexivity]. Qed.

Lemma main_clone_facts w dir pos i :
  directory w dir -> clone_facts w dir pos (main_clone w pos i).
Proof.
  intros D. remember (main_clone w pos i) as r eqn:R.
  unfold main_clone in R. unfold clone_facts.
  destruct (nth_error pos 3) as [[|c url']|] eqn:N; unfold bind in R; run_in R;
    try (subst r; repeat split; try discriminate; reflexivity).
  set (url := String c url') in *. unfold isValidUrl in R.
  destruct (urlParses w url) eqn:V; run_in R;
    [|subst r; repeat split; try discriminate; reflexivity].
  destruct (confirm_shape clone_question (Some No) i)
    as (junk & J & [[-> E] | (line & rest & a & -> & S & E)]); rewrite E in R;
    run_in R; clear E.
  - read_run. repeat split; try discriminate; reflexivity.
  - destruct S as [[Hy ->] | [[Hn ->] | [He ->]]]; run_in R;
      try (read_run; repeat split; try discriminate; reflexivity).
    pose proof (confirmAndKillCura_facts w rest) as (Sp & T & F & X).
    destruct (confirmAndKillCura w rest) as [o ev u].
    cbn [outcome events unread] in *.
    destruct o as [[|]|st|e|]; run_in R.
    + rewrite D in R. run_in R. unfold execFile in R.
      assert (C : existsb cleared ev = true) by now apply T.
      pose proof (decide_fact F ltac:(discriminate)) as NF.
      clear T F X.
      spawn_cases_in w R; read_run;
        (repeat split; try discriminate; auto;
         intros _; exists url; unfold clone_plan, backup_of;
         cbn [attempted succeeds forallb]; use_facts; cbn [andb];
         repeat split; auto; discriminate).
    + pose proof (decide_fact T ltac:(discriminate)) as C.
      assert (NF : existsb declines ev = true) by now apply F.
      clear T F X. read_run. repeat split; try discriminate; auto.
    + exfalso. now apply (X st).
    + pose proof (decide_fact T ltac:(discriminate)) as C.
      pose proof (decide_fact F ltac:(discriminate)) as NF.
      clear T F X. read_run. repeat split; try discriminate; auto.
    + pose proof (decide_fact T ltac:(discriminate)) as C.
      pose proof (decide_fact F ltac:(discriminate)) as NF.
      clear T F X. read_run. repeat split; try discriminate; auto.
Qed.

(** *** Where the backup goes *)

Lemma chars_append a b : Js.chars (a +++ b) = Js.chars a ++ Js.chars b.
Proof. induction a as [|c a IH]; simpl; [|rewrite IH]; reflexivity. Qed.

Lemma split_on_cons p l : exists s ss, Path.split_on p l = s :: ss.
Proof.
  induction l as [|a l (s & ss & IH)]; simpl.
  - now exists [], [].
  - destruct (p a); [now exists [], (Path.split_on p l)|].
    rewrite IH. now exists (a :: s), ss.
Qed.

Lemma split_on_app p a c b :
  p c = true ->
  Path.split_on p (a ++ c :: b) = Path.split_on p a ++ Path.split_on p b.
Proof.
  intros C. induction a as [|x a IH]; simpl.
  - now rewrite C.
  - destruct (p x); [now rewrite IH|].
    rewrite IH. destruct (split_on_cons p a) as (s & ss & ->). reflexivity.
Qed.

(** A segment and the ".." after it leave no trace in the normal form. *)
Lemma normalizeString_cancel p sep above a c1 c2 c3 b :
  p c1 = true -> p c2 = true -> p c3 = true ->
  (forall x, In x (Js.chars "cura.") -> p x = false) ->
  Path.normalizeString p sep above
    (a ++ c1 :: Js.chars "cura" ++ c2 :: Js.chars ".." ++ c3 :: b)
  = Path.normalizeString p sep above (a ++ c1 :: b).
Proof.
  intros C1 C2 C3 N. unfold Path.normalizeString.
  rewrite !(split_on_app p a c1) by assumption.
  rewrite (split_on_app p (Js.chars "cura") c2) by assumption.
  rewrite (split_on_app p (Js.chars "..") c3) by assumption.
  assert (S1 : Path.split_on p (Js.chars "cura") = [Js.chars "cura"]).
  { simpl. rewrite !N by (simpl; tauto). reflexivity. }
  assert (S2 : Path.split_on p (Js.chars "..") = [Js.chars ".."]).
  { simpl. rewrite !N by (simpl; tauto). reflexivity. }
  rewrite S1, S2, !fold_left_app. reflexivity.
Qed.

Lemma ends_with_app p a x b :
  Path.ends_with p (a ++ x :: b) = Path.ends_with p (x :: b).
Proof.
  unfold Path.ends_with. rewrite rev_app_distr.
  destruct (rev (x :: b)) as [|y l] eqn:E; [|reflexivity].
  apply (f_equal (@length _)) in E. rewrite length_rev in E. discriminate.
Qed.

Lemma append_assoc a b c : (a +++ b) +++ c = a +++ b +++ c.
Proof. induction a as [|x a IH]; simpl; [|rewrite IH]; reflexivity. Qed.

Lemma directory_parent w dir :
  directory w dir -> dir = parent_directory w +++ separator w +++ "cura".
Proof.
  intros D. specialize (D []). revert D.
  unfold getDefaultCuraDirectory, getOperatingSystem, parent_directory, separator, bind.
  destruct (platform w =? "darwin")%string eqn:E1.
  { apply String.eqb_eq in E1. rewrite E1. cbn. intros H. injection H as <-.
    rewrite !append_assoc. reflexivity. }
  destruct (platform w =? "win32")%string eqn:E2.
  { cbn. intros H. injection H as <-. rewrite !append_assoc. reflexivity. }
  destruct (platform w =? "linux")%string eqn:E3.
  { cbn. intros H. injection H as <-. rewrite !append_assoc. reflexivity. }
  cbn. discriminate.
Qed.

Lemma ends_with_tail p a b :
  b <> [] -> Path.ends_with p (a ++ b) = Path.ends_with p b.
Proof. destruct b as [|x b]; [contradiction|]. intros _. apply ends_with_app. Qed.

Lemma posix_normalize_cancel a b :
  a <> [] -> b <> [] ->
  Path.posix_normalize
    (a ++ Path.slash :: Js.chars "cura" ++ Path.slash :: Js.chars ".."
       ++ Path.slash :: b)
  = Path.posix_normalize (a ++ Path.slash :: b).
Proof.
  intros A B. destruct a as [|x a]; [contradiction|].
  pose proof (ends_with_tail Path.is_slash
                ((x :: a) ++ Path.slash :: Js.chars "cura" ++ Path.slash
                   :: Js.chars ".." ++ [Path.slash]) b B) as T1.
  pose proof (ends_with_tail Path.is_slash ((x :: a) ++ [Path.slash]) b B) as T2.
  rewrite <- !app_assoc in T1, T2. cbn [app Js.chars list_ascii_of_string] in T1, T2.
  pose proof (normalizeString_cancel Path.is_slash Path.slash (negb (Path.is_slash x))
                (x :: a) Path.slash Path.slash Path.slash b
                eq_refl eq_refl eq_refl) as N.
  cbn [app Js.chars list_ascii_of_string] in N.
  unfold Path.posix_normalize. cbn [app Js.chars list_ascii_of_string].
  rewrite T1, T2, N; [reflexivity|].
  intros c [<-|[<-|[<-|[<-|[<-|[]]]]]]; reflexivity.
Qed.

Lemma win32_normalize_cancel a b :
  b <> [] ->
  Path.win32_normalize
    (Js.chars "C:\" ++ a ++ Path.backslash :: Js.chars "cura" ++ Path.backslash
       :: Js.chars ".." ++ Path.slash :: b)
  = Path.win32_normalize (Js.chars "C:\" ++ a ++ Path.backslash :: b).
Proof.
  intros B.
  pose proof (ends_with_tail Path.is_win_sep
                (Js.chars "C:\" ++ a ++ Path.backslash :: Js.chars "cura"
                   ++ Path.backslash :: Js.chars ".." ++ [Path.slash]) b B) as T1.
  pose proof (ends_with_tail Path.is_win_sep
                (Js.chars "C:\" ++ a ++ [Path.backslash]) b B) as T2.
  rewrite <- !app_assoc in T1, T2. cbn [app Js.chars list_ascii_of_string] in T1, T2.
  pose proof (fun above =>
                normalizeString_cancel Path.is_win_sep Path.backslash above
                  a Path.backslash Path.backslash Path.slash b
                  eq_refl eq_refl eq_refl) as N.
  cbn [app Js.chars list_ascii_of_string] in N.
  unfold Path.win32_normalize. cbn [app Js.chars list_ascii_of_string].
  change (Path.is_win_sep "C") with false.
  change (Path.is_drive_letter "C" && Js.is_char 58 ":") with true.
  change (Path.is_win_sep Path.backslash) with true.
  change (Path.is_win_sep "\") with true.
  cbv iota. rewrite T1, T2, N; [reflexivity|].
  intros c [<-|[<-|[<-|[<-|[<-|[]]]]]]; reflexivity.
Qed.

Lemma joined_two sep a b :
  a <> EmptyString -> b <> EmptyString ->
  Path.joined sep [a; b] = Js.chars a ++ sep :: Js.chars b.
Proof.
  destruct a as [|x a]; [contradiction|]. destruct b as [|z b]; [contradiction|].
  reflexivity.
Qed.

Lemma chars_nonempty a : a <> EmptyString -> Js.chars a <> [].
Proof. destruct a; [contradiction|discriminate]. Qed.

Lemma posix_join_sibling P name :
  P <> EmptyString -> name <> EmptyString ->
  Path.posix_join [P +++ "/" +++ "cura"; "../" +++ name] = Path.posix_join [P; name].
Proof.
  intros HP Hn. unfold Path.posix_join.
  rewrite !joined_two; try assumption;
    [|destruct P; [contradiction|discriminate]|discriminate].
  rewrite !chars_append.
  pose proof (chars_nonempty P HP) as NP.
  destruct (Js.chars P) as [|x l]; [contradiction|].
  pose proof (posix_normalize_cancel (x :: l) (Js.chars name) NP
                (chars_nonempty _ Hn)) as C.
  rewrite <- !app_assoc.
  exact (f_equal Js.text C).
Qed.

Lemma win32_join_sibling P name :
  name <> EmptyString ->
  Path.win32_join [("C:\" +++ P) +++ "\" +++ "cura"; "../" +++ name]
  = Path.win32_join ["C:\" +++ P; name].
Proof.
  intros Hn. unfold Path.win32_join.
  rewrite !joined_two; try assumption; try discriminate.
  rewrite !chars_append.
  pose proof (win32_normalize_cancel (Js.chars P) (Js.chars name)
                (chars_nonempty _ Hn)) as C.
  rewrite <- !app_assoc.
  exact (f_equal Js.text C).
Qed.

(** The backup is a sibling of the configuration directory: joining the
    directory with "../cura_backup_" and the time is joining its parent with
    "cura_backup_" and the time. *)
Lemma backup_is_sibling w dir :
  directory w dir ->
  backup_of w dir
  = path_join w [parent_directory w; "cura_backup_" +++ Js.integer_text (now w)].
Proof.
  intros D. rewrite (directory_parent w dir D).
  unfold backup_of, path_join, parent_directory, separator.
  set (ts := Js.integer_text (now w)).
  change ("../cura_backup_" +++ ts) with ("../" +++ "cura_backup_" +++ ts).
  destruct (platform w =? "darwin")%string eqn:E1.
  { apply String.eqb_eq in E1. rewrite E1. cbn [String.eqb Ascii.eqb Bool.eqb].
    apply posix_join_sibling; discriminate. }
  destruct (platform w =? "win32")%string eqn:E2.
  { change ("C:\Users\" +++ username w +++ "\AppData\Roaming")
      with ("C:\" +++ "Users\" +++ username w +++ "\AppData\Roaming").
    apply win32_join_sibling; discriminate. }
  apply posix_join_sibling; discriminate.
Qed.

Lemma loaded_directory w dir g : loaded w dir g -> directory w dir.
Proof. intros L. exact (proj2 (load_loaded w dir g (stdin w) L)). Qed.

Lemma run_clone w dir g pos :
  loaded w dir g ->
  parseArgs (argv w) = Some pos ->
  nth_error pos 2 = Some "clone" ->
  run w = prepend [Ran git_version true; Ran (git_status dir) g]
            (main_clone w pos (stdin w)).
Proof.
  intros L P N. rewrite (run_loaded w dir g L).
  now rewrite (main_dispatch w dir g pos "clone" P N).
Qed.

(** ** init *)

Lemma undecided_decisive line : undecided line -> decisive line = false.
Proof.
  intros (Hy & Hn & He). apply String.eqb_neq in Hy, Hn, He.
  unfold decisive. now rewrite Hy, Hn, He.
Qed.

Lemma settles_decisive d line a : settles d line a -> decisive line = true.
Proof.
  unfold decisive. intros [[-> _] | [[-> _] | [-> _]]]; reflexivity.
Qed.

Lemma answers_junk junk input :
  Forall undecided junk -> answers (junk ++ input) = answers input.
Proof.
  unfold answers. induction 1 as [|l junk U _ IH]; [reflexivity|].
  simpl. now rewrite (undecided_decisive _ U).
Qed.

Lemma perform_declines w plan u : existsb declines (events (perform w plan u)) = false.
Proof.
  induction plan as [|a rest IH]; [reflexivity|]. simpl.
  destruct (succeeds w a); [|reflexivity]. now rewrite events_prepend.
Qed.

Lemma init_tail_facts w dir g pos i :
  let r := init_tail w dir g pos i in
  guarded_from false (events r) = true
  /\ (existsb declines (events r) = true ->
      outcome r = Threw (Error "Exiting: cura is still running")
      /\ spawned (events r) = [])
  /\ (isValidUrl w (nth_error pos 3) = false ->
      r = {| outcome := Exited 1;
             events := [PrintedError "Invalid URL. Please enter a valid URL."];
             unread := i |}).
Proof.
  cbv zeta. remember (init_tail w dir g pos i) as r eqn:R.
  unfold init_tail in R. cbv zeta in R.
  destruct (isValidUrl w (nth_error pos 3)) eqn:V; unfold bind in R; run_in R;
    [|subst r; repeat split; try discriminate; reflexivity].
  destruct (nth_error pos 3) as [u|]; [|discriminate].
  rewrite initializeRepo_run in R.
  pose proof (confirmAndKillCura_facts w i) as (Sp & T & F & X).
  destruct (confirmAndKillCura w i) as [o ev u'].
  cbn [outcome events unread] in *.
  destruct o as [[|]|st|e|]; run_in R.
  - assert (C : existsb cleared ev = true) by now apply T.
    pose proof (decide_fact F ltac:(discriminate)) as NF.
    pose proof (perform_declines w (init_plan w dir g u) u') as PD.
    destruct (perform w (init_plan w dir g u) u') as [o' ev' u''].
    cbn [events] in PD. clear T F X.
    destruct o' as [[]|st|e|]; run_in R; read_run;
      repeat split; try discriminate; auto.
  - assert (NF : existsb declines ev = true) by now apply F.
    clear T F X. read_run. repeat split; try discriminate; auto.
  - exfalso. now apply (X st).
  - pose proof (decide_fact F ltac:(discriminate)) as NF.
    clear T F X. read_run. repeat split; try discriminate; auto.
  - pose proof (decide_fact F ltac:(discriminate)) as NF.
    clear T F X. read_run. repeat split; try discriminate; auto.
Qed.

Lemma main_init_tail w dir g pos :
  main_init w dir g pos =
    (res <- confirm init_question (Some No) ;;
     (if negb (is_yes res) then exit 1 else ret tt) ;;
     (if g then
        alreadyInitAsk <- confirm overwrite_question (Some No) ;;
        if negb (is_yes alreadyInitAsk) then exit 1 else ret tt
      else ret tt) ;;
     init_tail w dir g pos).
Proof. reflexivity. Qed.

Lemma main_init_facts w dir g pos i : init_facts w pos i (main_init w dir g pos i).
Proof.
  remember (main_init w dir g pos i) as r eqn:R.
  rewrite main_init_tail in R. unfold init_facts. unfold bind in R.
  destruct (confirm_shape init_question (Some No) i)
    as (junk & J & [[-> E] | (line & rest & a & -> & S & E)]); rewrite E in R;
    run_in R; clear E.
  { read_run. repeat split; try discriminate; auto.
    rewrite <- (app_nil_r junk), (answers_junk _ _ J). cbn. lia. }
  rewrite (answers_junk _ _ J). unfold answers. cbn [filter].
  rewrite (settles_decisive _ _ _ S). cbn [length]. fold (answers rest).
  destruct S as [[Hy ->] | [[Hn ->] | [He ->]]]; run_in R;
    try solve [read_run; repeat split; try discriminate; auto; lia].
  destruct g; run_in R.
  - destruct (confirm_shape overwrite_question (Some No) rest)
      as (junk' & J' & [[-> E] | (line' & rest' & a & -> & S & E)]); rewrite E in R;
      run_in R; clear E.
    { read_run. repeat split; try discriminate; auto.
      rewrite <- (app_nil_r junk'), (answers_junk _ _ J'). cbn. lia. }
    destruct S as [[Hy' ->] | [[Hn' ->] | [He' ->]]]; run_in R;
      try solve [read_run; repeat split; try discriminate; auto; lia].
    destruct (init_tail_facts w dir true pos rest') as (G & D & U).
    destruct (init_tail w dir true pos rest') as [o ev u].
    cbn [outcome events unread] in *. run_in R. read_run.
    repeat split; auto.
    all: try (match goal with
              | H : existsb declines _ = true, D : existsb declines _ = true -> _ |- _ =>
                destruct (D H); now auto
              end).
    all: match goal with
         | H : isValidUrl _ _ = false, U : isValidUrl _ _ = false -> _ |- _ =>
           specialize (U H); injection U as -> -> ->; now auto
         end.
  - destruct (init_tail_facts w dir false pos rest) as (G & D & U).
    destruct (init_tail w dir false pos rest) as [o ev u].
    cbn [outcome events unread] in *. run_in R. read_run.
    repeat split; auto.
    all: try (match goal with
              | H : existsb declines _ = true, D : existsb declines _ = true -> _ |- _ =>
                destruct (D H); now auto
              end).
    all: match goal with
         | H : isValidUrl _ _ = false, U : isValidUrl _ _ = false -> _ |- _ =>
           specialize (U H); injection U as -> -> ->; now auto
         end.
Qed.

Lemma run_init w dir g pos :
  loaded w dir g ->
  parseArgs (argv w) = Some pos ->
  nth_error pos 2 = Some "init" ->
  run w = prepend [Ran git_version true; Ran (git_status dir) g]
            (main_init w dir g pos (stdin w)).
Proof.
  intros L P N. rewrite (run_loaded w dir g L).
  now rewrite (main_dispatch w dir g pos "init" P N).
Qed.

(** C4, as amended.  In an init or clone run in which the termination
    prompt is answered "n", the run ends in the uncaught error "Exiting:
    cura is still running", which the runtime reports before it ends the
    process with status 1 (the program itself prints no message and does not
    call [process.exit]), and it spawned nothing and wrote nothing but for
    the two probes of the module. *)
Theorem declined_termination_throws w dir g pos :
  loaded w dir g ->
  parseArgs (argv w) = Some pos ->
  nth_error pos 2 = Some "init" \/ nth_error pos 2 = Some "clone" ->
  existsb declines (events (run w)) = true ->
  outcome (run w) = Threw (Error "Exiting: cura is still running")
  /\ exit_status (outcome (run w)) = Some 1%Z
  /\ spawned (events (run w)) = probes dir.
Proof.
  intros L P [N | N] D.
  - rewrite (run_init w dir g pos L P N) in *.
    rewrite outcome_prepend, events_prepend in *.
    destruct (main_init_facts w dir g pos (stdin w)) as (_ & F & _).
    destruct (F D) as [O S]. rewrite spawned_app, S, O. now repeat split.
  - rewrite (run_clone w dir g pos L P N) in *.
    rewrite outcome_prepend, events_prepend in *.
    destruct (main_clone_facts w dir pos (stdin w) (loaded_directory w dir g L))
      as (_ & _ & _ & F).
    destruct (F D) as [O S]. rewrite spawned_app, S, O. now repeat split.
Qed.

Lemma declined_termination_throws_witness :
  let w := Sample.world ["init"; Sample.repo] ["y"; "y"; " N "] (Sample.fine "4711")
             true 0 in
  outcome (run w) = Threw (Error "Exiting: cura is still running")
  /\ exit_status (outcome (run w)) = Some 1%Z
  /\ spawned (events (run w)) = probes Sample.dir.
Proof.
  intros w.
  apply (declined_termination_throws w Sample.dir true
           ["/usr/bin/bun"; "/usr/bin/curasync"; "init"; Sample.repo]);
    try reflexivity.
  left. reflexivity.
Defined.

(** C4 as stated fails: declining the termination prompt does not end the
    run by [process.exit(1)] after a short message; the error is thrown,
    nobody catches it, and the program prints nothing of its own. *)
Lemma declined_termination_not_an_exit :
  let w := Sample.world ["clone"; Sample.repo] ["y"; "n"] (Sample.fine "4711") true 0 in
  existsb declines (events (run w)) = true
  /\ outcome (run w) = Threw (Error "Exiting: cura is still running")
  /\ outcome (run w) <> Exited 1
  /\ printed (events (run w)) = [].
Proof. repeat split; try reflexivity. discriminate. Qed.

(** C5.  In an init run whose URL argument is missing or does not parse,
    nothing is spawned and nothing written but for the two probes of the
    module, whatever the user types; the run exits with status 1 unless it
    is left waiting at a prompt, and it does exit with status 1 when the
    input holds answers to the two prompts that can come before the URL is
    checked. *)
Theorem init_rejects_malformed_url w dir g pos :
  loaded w dir g ->
  parseArgs (argv w) = Some pos ->
  nth_error pos 2 = Some "init" ->
  isValidUrl w (nth_error pos 3) = false ->
  spawned (events (run w)) = probes dir
  /\ (outcome (run w) = Exited 1 \/ outcome (run w) = Waiting)
  /\ (2 <= answers (stdin w) -> outcome (run w) = Exited 1).
Proof.
  intros L P N V. rewrite (run_init w dir g pos L P N).
  rewrite outcome_prepend, events_prepend, spawned_app.
  destruct (main_init_facts w dir g pos (stdin w)) as (_ & _ & F).
  destruct (F V) as (S & _ & O & A). rewrite S. repeat split; assumption.
Qed.

Lemma init_rejects_malformed_url_witness :
  let w := Sample.world ["init"; "not a url"] ["y"; "y"] Sample.nothing true 0 in
  spawned (events (run w)) = probes Sample.dir
  /\ outcome (run w) = Exited 1.
Proof.
  intros w.
  destruct (init_rejects_malformed_url w Sample.dir true
              ["/usr/bin/bun"; "/usr/bin/curasync"; "init"; "not a url"]
              eq_refl eq_refl eq_refl eq_refl) as (S & _ & A).
  split; [exact S|]. apply A. vm_compute. lia.
Defined.

Lemma guarded_from_probes c l : forallb is_probe l = true -> guarded_from c l = true.
Proof.
  revert c. induction l as [|e l IH]; intros c H; [reflexivity|].
  simpl in H. apply andb_prop in H as [H1 H2].
  cbn [guarded_from]. rewrite (IH _ H2), andb_true_r.
  destruct e; try reflexivity. cbn [mutates]. now rewrite H1.
Qed.

(** C7.  In an init or clone run, every subprocess or file write other
    than the probes of the module comes after a lookup that found no
    companion process or after a termination that succeeded. *)
Theorem mutations_behind_guard w pos :
  parseArgs (argv w) = Some pos ->
  nth_error pos 2 = Some "init" \/ nth_error pos 2 = Some "clone" ->
  forall before e after,
    events (run w) = before ++ e :: after ->
    mutates e = true ->
    existsb cleared before = true.
Proof.
  intros P N before e after E M.
  assert (G : guarded_from false (events (run w)) = true).
  { destruct (load_cases w (stdin w)) as [(dir & g & L & D) | ([x T] & Pr & _)].
    - assert (Ld : loaded w dir g) by (unfold loaded; now rewrite L).
      destruct N as [N | N].
      + rewrite (run_init w dir g pos Ld P N), events_prepend.
        now destruct (main_init_facts w dir g pos (stdin w)) as (G & _).
      + rewrite (run_clone w dir g pos Ld P N), events_prepend.
        now destruct (main_clone_facts w dir pos (stdin w) D) as (G & _).
    - unfold run, curasync, bind.
      destruct (load w (stdin w)) as [o ev u]. cbn [outcome events] in *. subst o.
      now apply guarded_from_probes. }
  destruct (guarded_from_sound _ _ G before e after E M) as [H | H];
    [discriminate | assumption].
Qed.

Lemma mutations_behind_guard_witness :
  let w := Sample.world ["init"; Sample.repo] ["y"] Sample.nothing false 0 in
  existsb cleared
    [Ran git_version true; Ran (git_status Sample.dir) false;
     Asked (confirm_prompt init_question (Some No)) (Some "y"); looked w]
  = true.
Proof.
  intros w.
  apply (mutations_behind_guard w
           ["/usr/bin/bun"; "/usr/bin/curasync"; "init"; Sample.repo] eq_refl
           (or_introl eq_refl)
           [Ran git_version true; Ran (git_status Sample.dir) false;
            Asked (confirm_prompt init_question (Some No)) (Some "y"); looked w]
           (Ran (Spawn "git" ["init"] (in_dir Sample.dir)) true)
           (map (fun a => Ran a true)
              (tl (init_plan w Sample.dir false Sample.repo))));
    reflexivity.
Defined.

(** ** push *)

Lemma checks_dirty_asks q d lines : existsb checks_dirty (asks q d lines) = false.
Proof. apply existsb_asks. intros p l. reflexivity. Qed.

#[local] Hint Rewrite checks_dirty_asks : events.

Lemma main_push_clean w dir i :
  exitCode (shell w (DiffIndex dir)) <> 1%Z ->
  clean_push_facts w (main_push w dir i).
Proof.
  intros Clean. apply Z.eqb_neq in Clean.
  remember (main_push w dir i) as r eqn:R.
  unfold main_push, isCuraDirty, sh in R. unfold bind in R. unfold clean_push_facts.
  destruct (getCuraPid_cases w i)
    as [(C & E) | [(C & pid & _ & _ & E) | (C & [(_ & _ & E) | (_ & E)])]];
    rewrite E in R; run_in R; clear E; rewrite C.
  - rewrite Clean in R. run_in R. subst r. unfold looked.
    repeat split; try discriminate; auto.
  - destruct (Js.truthy pid).
    + destruct (confirm_shape quit_question (Some Yes) (i))
        as (junk & J & [[-> E] | (line & rest & a & -> & S & E)]); rewrite E in R;
        run_in R; clear E.
      { read_run. unfold looked. cbn [checks_dirty orb].
        repeat split; try discriminate; auto. }
      destruct S as [[Hy ->] | [[Hn ->] | [He ->]]]; run_in R;
        rewrite ?killProcess_run in R; cbv zeta in R;
        try destruct (exitCode (shell w (Kill pid)) =? 0)%Z;
        unfold sleep in R; run_in R; rewrite ?Clean in R; run_in R;
        read_run; unfold looked; cbn [checks_dirty orb existsb printed spawned app];
        autorewrite with events; cbn [checks_dirty orb existsb printed spawned app];
        repeat split; try discriminate; auto;
        intros _; right; eexists; reflexivity.
    + rewrite Clean in R. run_in R. subst r. unfold looked.
      repeat split; try discriminate; auto.
  - subst r. unfold looked. cbn.
    repeat split; try discriminate; auto. intros _. right. eexists. reflexivity.
  - subst r. unfold looked. cbn.
    repeat split; try discriminate; auto. intros _. right. eexists. reflexivity.
Qed.

(** C3, as amended.  In a push run on a working copy that matches the last
    commit ([git diff-index] does not exit with 1), nothing is spawned but
    for the two probes of the module: no [git add], no [git commit], no
    [git push].  Once the run gets to ask git, as it does whenever the
    lookup finds no companion process, it prints "Looks like there are no
    changes to push" on the error stream, prints nothing else, and exits
    with status 1.  It does not get there when the process guard before the
    check throws or its prompt is left without an answer; a run that ends,
    ends with status 1 all the same. *)
Theorem clean_push_exits w dir g pos :
  loaded w dir g ->
  parseArgs (argv w) = Some pos ->
  nth_error pos 2 = Some "push" ->
  exitCode (shell w (DiffIndex dir)) <> 1%Z ->
  spawned (events (run w)) = probes dir
  /\ (existsb checks_dirty (events (run w)) = true ->
      outcome (run w) = Exited 1
      /\ printed (events (run w)) = [PrintedError nothing_to_push])
  /\ (cleared (looked w) = true ->
      outcome (run w) = Exited 1
      /\ printed (events (run w)) = [PrintedError nothing_to_push])
  /\ (existsb checks_dirty (events (run w)) = false ->
      (exists e, outcome (run w) = Threw e) \/ outcome (run w) = Waiting)
  /\ (exit_status (outcome (run w)) = Some 1%Z \/ outcome (run w) = Waiting).
Proof.
  intros L P N Clean. rewrite (run_loaded w dir g L).
  rewrite (main_dispatch w dir g pos "push" P N). cbn [String.eqb Ascii.eqb Bool.eqb].
  rewrite outcome_prepend, events_prepend, spawned_app, printed_app.
  cbn [existsb checks_dirty orb app spawned printed].
  destruct (main_push_clean w dir (stdin w) Clean) as (S & O & R & T & C).
  rewrite S. repeat split; auto; try (now apply R; auto).
  - intros H. destruct (T H) as [W | E]; auto.
  - destruct (existsb checks_dirty (events (main_push w dir (stdin w)))).
    + left. destruct (R eq_refl) as [-> _]. reflexivity.
    + destruct (T eq_refl) as [W | [e E]]; [now right|]. left. now rewrite E.
Qed.

Lemma clean_push_exits_witness :
  let w := Sample.world ["push"] ["n"] (Sample.fine "4711") true 0 in
  spawned (events (run w)) = probes Sample.dir
  /\ outcome (run w) = Exited 1
  /\ printed (events (run w)) = [PrintedError nothing_to_push].
Proof.
  intros w.
  destruct (clean_push_exits w Sample.dir true ["/usr/bin/bun"; "/usr/bin/curasync"; "push"]
              eq_refl eq_refl eq_refl) as (S & R & _).
  - discriminate.
  - destruct (R eq_refl) as [O Pr]. repeat split; assumption.
Defined.

(** C3 as stated fails: with two companion processes running the lookup
    prints two numbers, [getCuraPid] throws, and a push on a clean working
    copy ends in that error; it never asks git and prints no "nothing to
    push" message. *)
Lemma clean_push_guard_throws :
  let w := Sample.world ["push"] [] (Sample.fine "4711
4712
") true 0 in
  exitCode (shell w (DiffIndex Sample.dir)) = 0%Z
  /\ outcome (run w) = Threw (Error "No process number returned")
  /\ outcome (run w) <> Exited 1
  /\ printed (events (run w)) = []
  /\ existsb checks_dirty (events (run w)) = false.
Proof. repeat split; try reflexivity. discriminate. Qed.

(** *** The backup path, letter by letter *)

Lemma split_on_none p l :
  forallb (fun c => negb (p c)) l = true -> Path.split_on p l = [l].
Proof.
  induction l as [|a l IH]; [reflexivity|]. simpl.
  intros H. apply andb_prop in H as [H1 H2].
  destruct (p a); [discriminate|]. now rewrite (IH H2).
Qed.

Lemma split_on_join p sep seg segs :
  p sep = true ->
  Forall (fun s => forallb (fun c => negb (p c)) s = true) (seg :: segs) ->
  Path.split_on p (Path.join_with sep (seg :: segs)) = seg :: segs.
Proof.
  intros S. revert seg. induction segs as [|s segs IH]; intros seg F.
  - inversion F; subst. now apply split_on_none.
  - inversion F; subst.
    change (Path.join_with sep (seg :: s :: segs))
      with (seg ++ sep :: Path.join_with sep (s :: segs)).
    rewrite (split_on_app p seg sep _ S), (IH s H2), split_on_none by assumption.
    reflexivity.
Qed.

Lemma norm_step_plain above kept seg :
  plain seg = true -> Path.norm_step above kept seg = seg :: kept.
Proof.
  unfold plain, Path.norm_step. intros H.
  apply andb_prop in H as [H _]. apply andb_prop in H as [H H3].
  apply andb_prop in H as [H1 H2].
  destruct seg as [|a seg]; [discriminate|].
  apply negb_true_iff in H2, H3. now rewrite H2, H3.
Qed.

Lemma fold_norm_step_plain above segs kept :
  Forall (fun s => plain s = true) segs ->
  fold_left (Path.norm_step above) segs kept = rev segs ++ kept.
Proof.
  intros F. revert kept. induction F as [|s segs P _ IH]; intros kept; [reflexivity|].
  simpl. rewrite (norm_step_plain _ _ _ P), IH, <- app_assoc. reflexivity.
Qed.

Lemma plain_no_sep p s :
  (forall c, p c = true -> Path.is_win_sep c = true) ->
  plain s = true -> forallb (fun c => negb (p c)) s = true.
Proof.
  intros Sub H. unfold plain in H. apply andb_prop in H as [_ H].
  rewrite forallb_forall in *. intros c I. specialize (H c I).
  destruct (p c) eqn:E; [|reflexivity]. now rewrite (Sub c E) in H.
Qed.

(** Plain segments behind a separator are in normal form already. *)
Lemma normalizeString_plain p sep above seg segs :
  p sep = true ->
  (forall c, p c = true -> Path.is_win_sep c = true) ->
  Forall (fun s => plain s = true) (seg :: segs) ->
  Path.normalizeString p sep above (sep :: Path.join_with sep (seg :: segs))
  = Path.join_with sep (seg :: segs)
  /\ Path.normalizeString p sep above (Path.join_with sep (seg :: segs))
     = Path.join_with sep (seg :: segs).
Proof.
  intros S Sub F. unfold Path.normalizeString.
  assert (E : Path.split_on p (Path.join_with sep (seg :: segs)) = seg :: segs).
  { apply split_on_join; [assumption|].
    eapply Forall_impl; [|exact F]. intros s. now apply plain_no_sep. }
  change (sep :: Path.join_with sep (seg :: segs))
    with ([] ++ sep :: Path.join_with sep (seg :: segs)).
  rewrite (split_on_app p [] sep _ S), E. cbn [Path.split_on app].
  change (fold_left (Path.norm_step above) ([] :: seg :: segs) [])
    with (fold_left (Path.norm_step above) (seg :: segs) []).
  rewrite (fold_norm_step_plain above _ [] F), app_nil_r, rev_involutive. auto.
Qed.

Lemma text_app a b : Js.text (a ++ b) = Js.text a +++ Js.text b.
Proof. induction a as [|c a IH]; simpl; [|rewrite IH]; reflexivity. Qed.

Lemma text_chars s : Js.text (Js.chars s) = s.
Proof. apply string_of_list_ascii_of_string. Qed.

Lemma chars_text l : Js.chars (Js.text l) = l.
Proof. apply list_ascii_of_string_of_list_ascii. Qed.

Lemma join_with_snoc sep seg segs x :
  Path.join_with sep ((seg :: segs) ++ [x])
  = Path.join_with sep (seg :: segs) ++ sep :: x.
Proof.
  revert seg. induction segs as [|s segs IH]; intros seg; [reflexivity|].
  change (Path.join_with sep ((seg :: s :: segs) ++ [x]))
    with (seg ++ sep :: Path.join_with sep ((s :: segs) ++ [x])).
  rewrite IH.
  change (Path.join_with sep (seg :: s :: segs))
    with (seg ++ sep :: Path.join_with sep (s :: segs)).
  now rewrite <- app_assoc.
Qed.

Lemma ends_with_none p l :
  forallb (fun c => negb (p c)) l = true -> Path.ends_with p l = false.
Proof.
  unfold Path.ends_with. intros H.
  destruct (rev l) as [|a r] eqn:E; [reflexivity|].
  rewrite forallb_forall in H. apply negb_true_iff, H, in_rev.
  rewrite E. now left.
Qed.

Lemma plain_nonempty s : plain s = true -> s <> [].
Proof. intros H ->. discriminate. Qed.

Lemma join_with_nonempty sep seg segs :
  seg <> [] -> Path.join_with sep (seg :: segs) <> [].
Proof.
  intros N. destruct seg as [|a seg]; [contradiction|].
  destruct segs; discriminate.
Qed.

Lemma posix_join_literal seg segs name :
  Forall (fun s => plain s = true) (seg :: segs) ->
  plain (Js.chars name) = true ->
  let P := Js.text (Path.slash :: Path.join_with Path.slash (seg :: segs)) in
  Path.posix_join [P; name] = P +++ "/" +++ name.
Proof.
  intros F N P. subst P. unfold Path.posix_join.
  assert (Nn : name <> EmptyString).
  { intros ->. discriminate. }
  rewrite joined_two; [|discriminate|assumption].
  rewrite chars_text. cbn [app].
  rewrite <- join_with_snoc.
  assert (F' : Forall (fun s => plain s = true) ((seg :: segs) ++ [Js.chars name])).
  { apply Forall_app. split; [assumption|]. now constructor. }
  cbn [app] in F' |- *.
  destruct (normalizeString_plain Path.is_slash Path.slash false seg
              (segs ++ [Js.chars name]) eq_refl) as [E _]; [|assumption|].
  { intros c H. unfold Path.is_win_sep. now rewrite H. }
  unfold Path.posix_normalize. change (Path.is_slash Path.slash) with true.
  cbn [negb]. rewrite E.
  assert (T : Path.ends_with Path.is_slash
                (Path.slash :: Path.join_with Path.slash (seg :: segs ++ [Js.chars name]))
              = false).
  { change (seg :: segs ++ [Js.chars name]) with ((seg :: segs) ++ [Js.chars name]).
    rewrite join_with_snoc, app_comm_cons.
    change (Path.slash :: Js.chars name) with ([Path.slash] ++ Js.chars name).
    rewrite app_assoc, ends_with_tail by (apply chars_nonempty, Nn).
    apply ends_with_none, (plain_no_sep Path.is_slash); [|assumption].
    intros c H. unfold Path.is_win_sep. now rewrite H. }
  rewrite T.
  pose proof (join_with_nonempty Path.slash seg (segs ++ [Js.chars name])
                (plain_nonempty _ (Forall_inv F))) as NE.
  destruct (Path.join_with Path.slash (seg :: segs ++ [Js.chars name])) as [|a l] eqn:J;
    [contradiction|].
  rewrite <- J.
  change (seg :: segs ++ [Js.chars name]) with ((seg :: segs) ++ [Js.chars name]).
  rewrite join_with_snoc, app_comm_cons, text_app.
  change (Path.slash :: Js.chars name) with (Js.chars "/" ++ Js.chars name).
  now rewrite text_app, !text_chars.
Qed.

Lemma win32_join_literal seg segs name :
  Forall (fun s => plain s = true) (seg :: segs) ->
  plain (Js.chars name) = true ->
  let P := "C:\" +++ Js.text (Path.join_with Path.backslash (seg :: segs)) in
  Path.win32_join [P; name] = P +++ "\" +++ name.
Proof.
  intros F N P. subst P. unfold Path.win32_join.
  assert (Nn : name <> EmptyString).
  { intros ->. discriminate. }
  rewrite joined_two; [|discriminate|assumption].
  rewrite chars_append, chars_text, <- app_assoc, <- join_with_snoc.
  assert (F' : Forall (fun s => plain s = true) ((seg :: segs) ++ [Js.chars name])).
  { apply Forall_app. split; [assumption|]. now constructor. }
  cbn [app] in F' |- *.
  destruct (normalizeString_plain Path.is_win_sep Path.backslash false seg
              (segs ++ [Js.chars name]) eq_refl) as [_ E]; [auto|assumption|].
  assert (T : Path.ends_with Path.is_win_sep
                (Js.chars "C:\"
                   ++ Path.join_with Path.backslash (seg :: segs ++ [Js.chars name]))
              = false).
  { change (seg :: segs ++ [Js.chars name]) with ((seg :: segs) ++ [Js.chars name]).
    rewrite join_with_snoc.
    change (Path.backslash :: Js.chars name) with ([Path.backslash] ++ Js.chars name).
    rewrite !app_assoc, ends_with_tail by (apply chars_nonempty, Nn).
    apply ends_with_none, (plain_no_sep Path.is_win_sep); auto. }
  pose proof (join_with_nonempty Path.backslash seg (segs ++ [Js.chars name])
                (plain_nonempty _ (Forall_inv F))) as NE.
  cbn [app Js.chars list_ascii_of_string] in T |- *.
  unfold Path.win32_normalize.
  change (Path.is_win_sep "C") with false.
  change (Path.is_drive_letter "C" && Js.is_char 58 ":") with true.
  change (Path.is_win_sep "\") with true.
  cbv beta iota zeta. cbn [negb]. rewrite T, E.
  destruct (Path.join_with Path.backslash (seg :: segs ++ [Js.chars name]))
    as [|a l] eqn:J; [contradiction|].
  rewrite <- J.
  change (seg :: segs ++ [Js.chars name]) with ((seg :: segs) ++ [Js.chars name]).
  rewrite join_with_snoc.
  change (["C"%char; ":"%char] ++ Path.backslash
            :: Path.join_with Path.backslash (seg :: segs) ++ Path.backslash :: Js.chars name)
    with (Js.chars "C:\" ++ Path.join_with Path.backslash (seg :: segs)
            ++ Js.chars "\" ++ Js.chars name).
  now rewrite !text_app, !text_chars.
Qed.

Lemma integer_text_no_separator z :
  forallb (fun c => negb (Path.is_win_sep c)) (Js.chars (Js.integer_text z)) = true.
Proof.
  assert (U : forall d, forallb (fun c => negb (Path.is_win_sep c))
                          (Js.chars (NilEmpty.string_of_uint d)) = true).
  { induction d; simpl; auto. }
  assert (V : forall d, forallb (fun c => negb (Path.is_win_sep c))
                          (Js.chars (NilZero.string_of_uint d)) = true).
  { intros d. destruct d; try apply U. reflexivity. }
  unfold Js.integer_text, NilZero.string_of_int.
  destruct (Z.to_int z); [apply V|]. simpl. apply V.
Qed.

Lemma backup_name_plain z :
  plain (Js.chars ("cura_backup_" +++ Js.integer_text z)) = true.
Proof.
  rewrite chars_append. unfold plain.
  rewrite forallb_app, integer_text_no_separator. reflexivity.
Qed.

(** For a user name that is one plain path segment the backup path is the
    parent directory, a separator, "cura_backup_" and the time, letter by
    letter. *)
Lemma backup_literal w dir :
  directory w dir ->
  plain (Js.chars (username w)) = true ->
  backup_of w dir
  = parent_directory w +++ separator w +++ "cura_backup_" +++ Js.integer_text (now w).
Proof.
  intros D U. rewrite (backup_is_sibling w dir D).
  unfold path_join, parent_directory, separator.
  pose proof (backup_name_plain (now w)) as N.
  set (name := "cura_backup_" +++ Js.integer_text (now w)) in *.
  destruct (platform w =? "darwin")%string eqn:E1.
  { apply String.eqb_eq in E1. rewrite E1. cbn [String.eqb Ascii.eqb Bool.eqb].
    pose proof (posix_join_literal (Js.chars "Users")
                  [Js.chars (username w); Js.chars "Library";
                   Js.chars "Application Support"] name) as L.
    cbv zeta in L.
    replace (Js.text (Path.slash :: Path.join_with Path.slash
                        [Js.chars "Users"; Js.chars (username w);
                         Js.chars "Library"; Js.chars "Application Support"]))
      with ("/Users/" +++ username w +++ "/Library/Application Support") in L.
    - apply L; [|assumption]. repeat constructor; auto.
    - cbn [Path.join_with]. rewrite <- (text_chars (username w)) at 1.
      rewrite <- text_chars at 1. rewrite !chars_append, chars_text. reflexivity. }
  destruct (platform w =? "win32")%string eqn:E2.
  { pose proof (win32_join_literal (Js.chars "Users")
                  [Js.chars (username w); Js.chars "AppData"; Js.chars "Roaming"]
                  name) as L.
    cbv zeta in L.
    replace ("C:\" +++ Js.text (Path.join_with Path.backslash
                        [Js.chars "Users"; Js.chars (username w);
                         Js.chars "AppData"; Js.chars "Roaming"]))
      with ("C:\Users\" +++ username w +++ "\AppData\Roaming") in L.
    - apply L; [|assumption]. repeat constructor; auto.
    - cbn [Path.join_with]. rewrite <- (text_chars (username w)) at 1.
      rewrite <- text_chars at 1. rewrite !chars_append, chars_text. reflexivity. }
  pose proof (posix_join_literal (Js.chars "home")
                [Js.chars (username w); Js.chars ".local"; Js.chars "share"] name) as L.
  cbv zeta in L.
  replace (Js.text (Path.slash :: Path.join_with Path.slash
                      [Js.chars "home"; Js.chars (username w);
                       Js.chars ".local"; Js.chars "share"]))
    with ("/home/" +++ username w +++ "/.local/share") in L.
  - apply L; [|assumption]. repeat constructor; auto.
  - cbn [Path.join_with]. rewrite <- (text_chars (username w)) at 1.
    rewrite <- text_chars at 1. rewrite !chars_append, chars_text. reflexivity.
Qed.

(** C1.  In a clone run in which the lookup found no companion process or
    a termination succeeded, the URL is well formed and the run spawns,
    after the probes of the module, first [mv] of the configuration
    directory to the backup path (a rename, with the time in milliseconds
    as [Date.now] gives it in the name), then, once that succeeded, [mkdir]
    of the configuration directory, then, once that succeeded, [git clone]
    of the URL into it, and nothing else.  The backup path is what
    [path.join] makes of the parent directory and "cura_backup_" followed by
    the time.  The run exits with status 0 exactly when the three
    succeed.  When the user name is one plain path segment the backup path
    reads: parent directory, separator, "cura_backup_", time. *)
Theorem clone_backs_up_then_clones w dir g pos url :
  loaded w dir g ->
  parseArgs (argv w) = Some pos ->
  nth_error pos 2 = Some "clone" ->
  nth_error pos 3 = Some url ->
  existsb cleared (events (run w)) = true ->
  urlParses w url = true
  /\ spawned (events (run w)) = probes dir ++ attempted w (clone_plan w dir url)
  /\ clone_plan w dir url
     = [Spawn "mv"
          [dir; path_join w [parent_directory w;
                             "cura_backup_" +++ Js.integer_text (now w)]]
          no_options;
        Spawn "mkdir" [dir] no_options;
        Spawn "git" ["clone"; url; "."] (in_dir dir)]
  /\ (outcome (run w) = Exited 0
      <-> forallb (succeeds w) (clone_plan w dir url) = true)
  /\ (forallb (succeeds w) (clone_plan w dir url) = true ->
      spawned (events (run w)) = probes dir ++ clone_plan w dir url)
  /\ (plain (Js.chars (username w)) = true ->
      backup_of w dir
      = parent_directory w +++ separator w +++ "cura_backup_"
          +++ Js.integer_text (now w)).
Proof.
  intros L P N2 N3 C.
  pose proof (loaded_directory w dir g L) as D.
  rewrite (run_clone w dir g pos L P N2) in *.
  rewrite events_prepend, outcome_prepend in *. cbn [app existsb cleared orb] in C.
  destruct (main_clone_facts w dir pos (stdin w) D) as (_ & _ & F & _).
  destruct (F C) as (url' & U & V & S & O).
  assert (url' = url) by congruence. subst url'.
  rewrite spawned_app, S. change (spawned _) with (probes dir).
  repeat split; try tauto.
  - unfold clone_plan. now rewrite (backup_is_sibling w dir D).
  - intros A. now rewrite (attempted_all w _ A).
  - now apply backup_literal.
Qed.

Lemma clone_backs_up_then_clones_witness :
  let w := Sample.world ["clone"; Sample.repo] ["y"; "y"] (Sample.fine "4711") true 0 in
  spawned (events (run w))
  = probes Sample.dir
    ++ [Spawn "mv" [Sample.dir; "/home/ada/.local/share/cura_backup_1700000000123"]
          no_options;
        Spawn "mkdir" [Sample.dir] no_options;
        Spawn "git" ["clone"; Sample.repo; "."] (in_dir Sample.dir)].
Proof.
  intros w.
  exact (proj1 (proj2 (proj2 (proj2 (proj2
           (clone_backs_up_then_clones w Sample.dir true
              ["/usr/bin/bun"; "/usr/bin/curasync"; "clone"; Sample.repo] Sample.repo
              eq_refl eq_refl eq_refl eq_refl eq_refl))))) eq_refl).
Defined.

(** * The rest of the program *)

(** ** Startup: the checks of the module *)

Lemma directory_of_outcome w dir i :
  outcome (getDefaultCuraDirectory w i) = Returned dir -> directory w dir.
Proof.
  intros H j. destruct (getDefaultCuraDirectory_run w j) as [[d E] | E].
  - rewrite E. pose proof (getDefaultCuraDirectory_input w i j) as Q.
    rewrite H, E in Q. simpl in Q. congruence.
  - pose proof (getDefaultCuraDirectory_input w i j) as Q.
    rewrite H, E in Q. discriminate.
Qed.

Lemma unsupported_throws w i :
  supported (platform w) = false ->
  getDefaultCuraDirectory w i
  = {| outcome := Threw (Error "Unknown OS"); events := []; unread := i |}.
Proof.
  unfold supported, getDefaultCuraDirectory, getOperatingSystem, bind.
  destruct (platform w =? "darwin")%string; [discriminate|].
  destruct (platform w =? "win32")%string; [discriminate|].
  destruct (platform w =? "linux")%string; [discriminate|]. reflexivity.
Qed.

Lemma directory_supported w dir : directory w dir -> supported (platform w) = true.
Proof.
  intros D. destruct (supported (platform w)) eqn:E; [reflexivity|].
  pose proof (D []) as H. rewrite (unsupported_throws w [] E) in H. discriminate.
Qed.

(** The module as loaded when the configuration directory is [dir]. *)
Lemma load_directory w dir i :
  directory w dir ->
  load w i =
    if negb (existsSync w dir) then
      {| outcome := Threw no_directory;
         events := []; unread := i |}
    else if negb (succeeds w git_version) then
      {| outcome := Threw no_git;
         events := [Ran git_version false]; unread := i |}
    else if negb (existsSync w (dir +++ "/5.6")) then
      {| outcome := Threw no_version_directory;
         events := [Ran git_version true]; unread := i |}
    else
      {| outcome := Returned (dir, succeeds w (git_status dir));
         events := [Ran git_version true; Ran (git_status dir) (succeeds w (git_status dir))];
         unread := i |}.
Proof.
  intros D.
  unfold load, checkCuraDirectory, checkGitInstallation, checkCuraVersionDirectory,
    checkGitInitialization, execFile_succeeds, bind.
  rewrite !D. cbn [prepend app].
  destruct (existsSync w dir); cbn [negb prepend app throw ret]; [|reflexivity].
  rewrite D. cbn [prepend app succeeds git_version git_status].
  destruct (execFileSync w "git" ["--version"] _); cbn [negb prepend app throw ret];
    [|reflexivity].
  destruct (existsSync w (dir +++ "/5.6")); cbn [negb prepend app throw ret];
    reflexivity.
Qed.

(** X1.  The module loads, leaving the configuration directory [dir] and
    the flag [g], exactly when [dir] is the default directory of the
    platform and user, it exists, [git --version] runs, and [dir] followed
    by "/5.6" exists; [g] tells whether [git status] ran in [dir].  A [git
    status] that fails stops nothing. *)
Theorem startup_passes w dir g :
  loaded w dir g
  <-> directory w dir
      /\ existsSync w dir = true
      /\ succeeds w git_version = true
      /\ existsSync w (dir +++ "/5.6") = true
      /\ g = succeeds w (git_status dir).
Proof.
  split.
  - intros L. pose proof (loaded_directory w dir g L) as D.
    unfold loaded in L. rewrite (load_directory w dir _ D) in L.
    destruct (existsSync w dir); [|discriminate].
    destruct (succeeds w git_version); [|discriminate].
    destruct (existsSync w (dir +++ "/5.6")); [|discriminate].
    cbn in L. injection L as <-. auto.
  - intros (D & E1 & E2 & E3 & ->). unfold loaded.
    rewrite (load_directory w dir _ D), E1, E2, E3. reflexivity.
Qed.

Lemma startup_passes_witness :
  loaded (Sample.world ["cwd"] [] Sample.nothing false 0) Sample.dir false.
Proof.
  apply (proj2 (startup_passes (Sample.world ["cwd"] [] Sample.nothing false 0)
                  Sample.dir false)).
  repeat split; reflexivity.
Defined.

Lemma run_not_loaded w :
  (forall v, outcome (load w (stdin w)) <> Returned v) ->
  run w = {| outcome := match outcome (load w (stdin w)) with
                        | Threw e => Threw e
                        | Exited status => Exited status
                        | _ => Waiting
                        end;
             events := events (load w (stdin w));
             unread := unread (load w (stdin w)) |}.
Proof.
  intros H. unfold run, curasync, bind.
  destruct (load w (stdin w)) as [o ev u]. cbn [outcome events unread] in *.
  destruct o as [v|st|e|]; try reflexivity. now destruct (H v).
Qed.

(** X2.  On a platform other than darwin, win32 and linux the run ends in
    the error "Unknown OS" before anything else happens: no subprocess, no
    output, no line read. *)
Theorem unknown_platform_throws w :
  supported (platform w) = false ->
  run w = {| outcome := Threw (Error "Unknown OS"); events := []; unread := stdin w |}.
Proof.
  intros U.
  assert (L : load w (stdin w)
              = {| outcome := Threw (Error "Unknown OS"); events := [];
                   unread := stdin w |}).
  { unfold load, checkCuraDirectory, bind. now rewrite (unsupported_throws w _ U). }
  rewrite run_not_loaded; rewrite L; [reflexivity|discriminate].
Qed.

Lemma unknown_platform_throws_witness :
  run (Broken.on_platform "freebsd" (Sample.world ["cwd"] [] Sample.nothing true 0))
  = {| outcome := Threw (Error "Unknown OS"); events := []; unread := [] |}.
Proof.
  apply (unknown_platform_throws
           (Broken.on_platform "freebsd" (Sample.world ["cwd"] [] Sample.nothing true 0))).
  reflexivity.
Defined.

(** X3.  When the default configuration directory does not exist the run
    ends in the error that says so, before git is looked for. *)
Theorem missing_directory_throws w dir :
  directory w dir ->
  existsSync w dir = false ->
  run w = {| outcome := Threw no_directory;
             events := []; unread := stdin w |}.
Proof.
  intros D E. pose proof (load_directory w dir (stdin w) D) as L.
  rewrite E in L. cbn [negb] in L.
  rewrite run_not_loaded; rewrite L; [reflexivity|discriminate].
Qed.

Lemma missing_directory_throws_witness :
  run (Broken.without_file Sample.dir (Sample.world ["cwd"] [] Sample.nothing true 0))
  = {| outcome := Threw no_directory;
       events := []; unread := [] |}.
Proof.
  apply (missing_directory_throws
           (Broken.without_file Sample.dir
              (Sample.world ["cwd"] [] Sample.nothing true 0)) Sample.dir).
  - intros j. reflexivity.
  - reflexivity.
Defined.

(** X4.  When the configuration directory exists and [git --version] does
    not run, the run ends in the error "Git is not installed ...", having
    started that one subprocess and nothing else. *)
Theorem missing_git_throws w dir :
  directory w dir ->
  existsSync w dir = true ->
  succeeds w git_version = false ->
  run w = {| outcome := Threw no_git;
             events := [Ran git_version false]; unread := stdin w |}.
Proof.
  intros D E G. pose proof (load_directory w dir (stdin w) D) as L.
  rewrite E, G in L. cbn [negb] in L.
  rewrite run_not_loaded; rewrite L; [reflexivity|discriminate].
Qed.

Lemma missing_git_throws_witness :
  run (Broken.failing "git" "--version" (Sample.world ["cwd"] [] Sample.nothing true 0))
  = {| outcome := Threw no_git;
       events := [Ran git_version false]; unread := [] |}.
Proof.
  apply (missing_git_throws
           (Broken.failing "git" "--version"
              (Sample.world ["cwd"] [] Sample.nothing true 0)) Sample.dir).
  - intros j. reflexivity.
  - reflexivity.
  - reflexivity.
Defined.

(** X5.  When the configuration directory exists and git runs but the
    directory has no "5.6" inside (the path tested is the directory
    followed by "/5.6", on every platform), the run ends in the error that
    says so; [git status] is not started. *)
Theorem missing_version_directory_throws w dir :
  directory w dir ->
  existsSync w dir = true ->
  succeeds w git_version = true ->
  existsSync w (dir +++ "/5.6") = false ->
  run w = {| outcome := Threw no_version_directory;
             events := [Ran git_version true]; unread := stdin w |}.
Proof.
  intros D E G V. pose proof (load_directory w dir (stdin w) D) as L.
  rewrite E, G, V in L. cbn [negb] in L.
  rewrite run_not_loaded; rewrite L; [reflexivity|discriminate].
Qed.

Lemma missing_version_directory_throws_witness :
  run (Broken.without_file "/home/ada/.local/share/cura/5.6"
         (Sample.world ["cwd"] [] Sample.nothing true 0))
  = {| outcome := Threw no_version_directory;
       events := [Ran git_version true]; unread := [] |}.
Proof.
  apply (missing_version_directory_throws
           (Broken.without_file "/home/ada/.local/share/cura/5.6"
              (Sample.world ["cwd"] [] Sample.nothing true 0)) Sample.dir).
  - intros j. reflexivity.
  - reflexivity.
  - reflexivity.
  - reflexivity.
Defined.

(** ** Dispatch: usage, help, and words that are no subcommand *)

Lemma printHelp_run i :
  printHelp i = {| outcome := Returned tt; events := [Printed help_text]; unread := i |}.
Proof. reflexivity. Qed.

Lemma loaded_os w dir g :
  loaded w dir g ->
  exists os, forall i, getOperatingSystem w i
                       = {| outcome := Returned os; events := []; unread := i |}.
Proof.
  intros L. pose proof (directory_supported w dir (loaded_directory w dir g L)) as U.
  unfold supported in U. unfold getOperatingSystem.
  destruct (platform w =? "darwin")%string; [now exists MacOS|].
  destruct (platform w =? "win32")%string; [now exists Windows|].
  destruct (platform w =? "linux")%string; [now exists Linux|]. discriminate.
Qed.

(** X6.  With no subcommand (the argument list holds the runtime and the
    script only) the run prints the banner, with the operating system, the
    configuration directory and whether it is a working copy, then the
    usage screen, and exits with status 0; it reads no line and spawns
    nothing but the probes of the module. *)
Theorem no_subcommand_prints_usage w dir g pos :
  loaded w dir g ->
  parseArgs (argv w) = Some pos ->
  length pos = 2 ->
  exists os,
    outcome (getOperatingSystem w (stdin w)) = Returned os
    /\ run w = {| outcome := Exited 0;
                  events := [Ran git_version true; Ran (git_status dir) g;
                             Printed (info_text os dir g); Printed help_text];
                  unread := stdin w |}.
Proof.
  intros L P N. destruct (loaded_os w dir g L) as [os E]. exists os.
  rewrite E. split; [reflexivity|].
  rewrite (run_loaded w dir g L). unfold main. rewrite P, N. cbn [Nat.eqb].
  unfold printInfo, bind. rewrite E. reflexivity.
Qed.

Lemma no_subcommand_prints_usage_witness :
  exists os,
    outcome (getOperatingSystem (Sample.world [] ["y"] Sample.nothing true 0) ["y"])
    = Returned os
    /\ run (Sample.world [] ["y"] Sample.nothing true 0)
       = {| outcome := Exited 0;
            events := [Ran git_version true; Ran (git_status Sample.dir) true;
                       Printed (info_text os Sample.dir true); Printed help_text];
            unread := ["y"] |}.
Proof.
  apply (no_subcommand_prints_usage (Sample.world [] ["y"] Sample.nothing true 0)
           Sample.dir true ["/usr/bin/bun"; "/usr/bin/curasync"]); reflexivity.
Defined.

(** X7.  The subcommand help prints the usage screen on standard output
    and exits with status 0, reading no line and spawning nothing but the
    probes of the module. *)
Theorem help_prints_usage w dir g pos :
  loaded w dir g ->
  parseArgs (argv w) = Some pos ->
  nth_error pos 2 = Some "help" ->
  run w = {| outcome := Exited 0;
             events := [Ran git_version true; Ran (git_status dir) g;
                        Printed help_text];
             unread := stdin w |}.
Proof.
  intros L P N. rewrite (run_loaded w dir g L).
  rewrite (main_dispatch w dir g pos "help" P N). reflexivity.
Qed.

Lemma help_prints_usage_witness :
  run (Sample.world ["help"; "push"] [] Sample.nothing false 0)
  = {| outcome := Exited 0;
       events := [Ran git_version true; Ran (git_status Sample.dir) false;
                  Printed help_text];
       unread := [] |}.
Proof.
  apply (help_prints_usage (Sample.world ["help"; "push"] [] Sample.nothing false 0)
           Sample.dir false ["/usr/bin/bun"; "/usr/bin/curasync"; "help"; "push"]);
    reflexivity.
Defined.

Lemma not_a_command cmd s :
  ~ In cmd commands -> In s commands -> (cmd =? s)%string = false.
Proof.
  intros N I. apply String.eqb_neq. intros ->. now apply N.
Qed.

(** X8.  A first word that is none of help, init, clone, pull, push and
    cwd, compared letter by letter, is reported on standard error as an
    unrecognized command; the usage screen follows on standard output and
    the run exits with status 1, having read no line and spawned nothing
    but the probes of the module. *)
Theorem unrecognized_command_exits w dir g pos cmd :
  loaded w dir g ->
  parseArgs (argv w) = Some pos ->
  nth_error pos 2 = Some cmd ->
  ~ In cmd commands ->
  run w = {| outcome := Exited 1;
             events := [Ran git_version true; Ran (git_status dir) g;
                        PrintedError ("unrecognized command " +++ cmd);
                        Printed help_text];
             unread := stdin w |}.
Proof.
  intros L P N U. rewrite (run_loaded w dir g L).
  rewrite (main_dispatch w dir g pos cmd P N).
  rewrite !(not_a_command cmd _ U) by (simpl; tauto). reflexivity.
Qed.

Lemma unrecognized_command_exits_witness :
  run (Sample.world ["Push"] [] Sample.nothing true 1)
  = {| outcome := Exited 1;
       events := [Ran git_version true; Ran (git_status Sample.dir) true;
                  PrintedError "unrecognized command Push";
                  Printed help_text];
       unread := [] |}.
Proof.
  apply (unrecognized_command_exits (Sample.world ["Push"] [] Sample.nothing true 1)
           Sample.dir true ["/usr/bin/bun"; "/usr/bin/curasync"; "Push"] "Push");
    try reflexivity.
  intros [H|[H|[H|[H|[H|[H|[]]]]]]]; discriminate.
Defined.

(** ** pull *)

(** X9.  The subcommand pull announces itself, runs [git pull] in the
    configuration directory with the terminal attached, and when that
    succeeds says so and exits with status 0; when [git pull] fails the
    run ends in its error and the closing line is not printed.  Either way
    it looks for no companion process, asks nothing and reads no line. *)
Theorem pull_runs_git_pull w dir g pos :
  loaded w dir g ->
  parseArgs (argv w) = Some pos ->
  nth_error pos 2 = Some "pull" ->
  run w =
    if succeeds w (pull_action dir) then
      {| outcome := Exited 0;
         events := [Ran git_version true; Ran (git_status dir) g;
                    Printed "pulling config from origin...";
                    Ran (pull_action dir) true;
                    Printed "pulled config from origin!"];
         unread := stdin w |}
    else
      {| outcome := Threw (SpawnError "git" ["pull"]);
         events := [Ran git_version true; Ran (git_status dir) g;
                    Printed "pulling config from origin...";
                    Ran (pull_action dir) false];
         unread := stdin w |}.
Proof.
  intros L P N. rewrite (run_loaded w dir g L).
  rewrite (main_dispatch w dir g pos "pull" P N).
  cbn [String.eqb Ascii.eqb Bool.eqb].
  unfold main_pull, execFile, bind, pull_action, succeeds. cbn [console_log emit prepend app].
  destruct (execFileSync w "git" ["pull"] _); reflexivity.
Qed.

Lemma pull_runs_git_pull_witness :
  let w := Broken.failing "git" "pull" (Sample.world ["pull"] ["y"] (Sample.fine "4711") true 1) in
  run w = {| outcome := Threw (SpawnError "git" ["pull"]);
             events := [Ran git_version true; Ran (git_status Sample.dir) true;
                        Printed "pulling config from origin...";
                        Ran (pull_action Sample.dir) false];
             unread := ["y"] |}.
Proof.
  intros w.
  apply (pull_runs_git_pull w Sample.dir true ["/usr/bin/bun"; "/usr/bin/curasync"; "pull"]);
    reflexivity.
Defined.

(** ** The free-text prompt *)

Lemma ask_cons q d line rest :
  ask q d (line :: rest) =
    let asked := Asked (ask_prompt q d) (Some line) in
    match line, usable_default d with
    | EmptyString, None => prepend [asked] (ask q d rest)
    | EmptyString, Some x => {| outcome := Returned x; events := [asked]; unread := rest |}
    | _, _ => {| outcome := Returned line; events := [asked]; unread := rest |}
    end.
Proof. reflexivity. Qed.

Lemma ask_skips q d blanks input :
  usable_default d = None ->
  Forall blank blanks ->
  ask q d (blanks ++ input) = prepend (asked_for q d blanks) (ask q d input).
Proof.
  intros U. induction 1 as [|line blanks B _ IH]; simpl app.
  - now rewrite prepend_nil.
  - rewrite ask_cons, B, U, IH. cbv zeta. rewrite prepend_prepend. reflexivity.
Qed.

Lemma asked_for_snoc q d lines line :
  asked_for q d (lines ++ [line])
  = asked_for q d lines ++ [Asked (ask_prompt q d) (Some line)].
Proof. unfold asked_for. now rewrite map_app. Qed.

(** X10.  [ask] with no default (or with the empty string as default,
    which is no default) asks again after every empty line and returns the
    first line that is not empty as it was typed, neither trimmed nor
    changed in case; when only empty lines come it waits.  With a default
    the first line decides: empty gives the default, any other line is
    returned as typed. *)
Theorem ask_returns_first_line q d blanks line rest :
  usable_default d = None ->
  Forall blank blanks ->
  line <> EmptyString ->
  ask q d (blanks ++ line :: rest)
  = {| outcome := Returned line;
       events := asked_for q d (blanks ++ [line]);
       unread := rest |}
  /\ ask q d blanks
     = {| outcome := Waiting;
          events := asked_for q d blanks ++ [Asked (ask_prompt q d) None];
          unread := [] |}
  /\ forall x, x <> EmptyString ->
       ask q (Some x) (EmptyString :: rest)
       = {| outcome := Returned x;
            events := asked_for q (Some x) [EmptyString];
            unread := rest |}
       /\ ask q (Some x) (line :: rest)
          = {| outcome := Returned line;
               events := asked_for q (Some x) [line];
               unread := rest |}.
Proof.
  intros U B N. repeat split.
  - rewrite (ask_skips q d blanks _ U B), ask_cons, asked_for_snoc.
    destruct line as [|c line]; [contradiction|]. reflexivity.
  - rewrite <- (app_nil_r blanks) at 1. rewrite (ask_skips q d blanks _ U B).
    reflexivity.
  - destruct x; [contradiction|]. reflexivity.
  - destruct x; [contradiction|]. destruct line; [contradiction|]. reflexivity.
Qed.

Lemma ask_returns_first_line_witness :
  ask "Message:" None [EmptyString; EmptyString; "  Fix supports "; "later"]
  = {| outcome := Returned "  Fix supports ";
       events := [Asked "Message: " (Some EmptyString);
                  Asked "Message: " (Some EmptyString);
                  Asked "Message: " (Some "  Fix supports ")];
       unread := ["later"] |}.
Proof.
  apply (proj1 (ask_returns_first_line "Message:" None [EmptyString; EmptyString]
                  "  Fix supports " ["later"] eq_refl
                  (Forall_cons _ eq_refl (Forall_cons _ eq_refl (Forall_nil _)))
                  ltac:(discriminate))).
Defined.
(** ** The process guard, case by case *)

Lemma found_not_cleared w pid : found w pid -> cleared (looked w) = false.
Proof.
  intros [E _]. unfold looked. cbn [cleared]. fold (lookup w). now rewrite E.
Qed.

Lemma getCuraPid_found w pid i :
  found w pid ->
  getCuraPid w i
  = {| outcome := Returned (Some pid); events := [looked w]; unread := i |}.
Proof.
  intros F. pose proof (found_not_cleared w pid F) as C. destruct F as [E N].
  destruct (getCuraPid_cases w i)
    as [(C' & _) | [(_ & p & _ & P & ->) | (_ & [(_ & P & _) | (P & _)])]];
    congruence.
Qed.

Lemma getCuraPid_clear w i :
  cleared (looked w) = true ->
  getCuraPid w i = {| outcome := Returned None; events := [looked w]; unread := i |}.
Proof.
  intros C.
  destruct (getCuraPid_cases w i) as [(_ & ->) | [(C' & _) | (C' & _)]];
    congruence.
Qed.

Lemma confirm_settles q d junk line rest a :
  Forall undecided junk ->
  settles d line a ->
  confirm q d (junk ++ line :: rest)
  = {| outcome := Returned a; events := asks q d (junk ++ [line]); unread := rest |}.
Proof.
  intros J S. rewrite (confirm_skips q d junk _ J), confirm_cons, asks_snoc. cbv zeta.
  destruct S as [[H ->] | [[H ->] | [H ->]]]; rewrite H; reflexivity.
Qed.

Lemma confirm_waits q d junk :
  Forall undecided junk ->
  confirm q d junk
  = {| outcome := Waiting;
       events := asks q d junk ++ [Asked (confirm_prompt q d) None];
       unread := [] |}.
Proof.
  intros J. rewrite <- (app_nil_r junk) at 1. rewrite (confirm_skips q d junk [] J).
  reflexivity.
Qed.

(** X11.  When the lookup printed a process number, [confirmAndKillCura]
    asks before it does anything.  Lines that settle nothing are asked
    about again.  "n" makes it return false with no termination attempted.
    "y", or an empty line (the default of this prompt is yes), makes it run
    [kill] on that very number: it returns true when [kill] exits with 0
    and otherwise throws what [kill] wrote on standard error.  With no
    deciding line it waits. *)
Theorem guard_asks_before_killing w pid junk line rest :
  found w pid ->
  Forall undecided junk ->
  let asked := looked w :: asks kill_question (Some Yes) (junk ++ [line]) in
  let out := shell w (Kill pid) in
  (normal line = "n" ->
   confirmAndKillCura w (junk ++ line :: rest)
   = {| outcome := Returned false; events := asked; unread := rest |})
  /\ (normal line = "y" \/ normal line = EmptyString ->
      confirmAndKillCura w (junk ++ line :: rest)
      = {| outcome := if (exitCode out =? 0)%Z then Returned true
                      else Threw (ThrownOutput (stderr out));
           events := asked ++ [Shell (Kill pid) out];
           unread := rest |})
  /\ confirmAndKillCura w junk
     = {| outcome := Waiting;
          events := looked w :: asks kill_question (Some Yes) junk
                      ++ [Asked (confirm_prompt kill_question (Some Yes)) None];
          unread := [] |}.
Proof.
  intros F J asked out. subst asked out.
  unfold confirmAndKillCura, bind. rewrite !(getCuraPid_found w pid _ F).
  repeat split.
  - intros N. rewrite (confirm_settles _ _ junk line rest (Some No) J).
    + cbn [prepend ret app]. now rewrite app_nil_r.
    + right. left. now split.
  - intros H. rewrite (confirm_settles _ _ junk line rest (Some Yes) J).
    + rewrite killProcess_run. cbv zeta.
      destruct (exitCode (shell w (Kill pid)) =? 0)%Z; reflexivity.
    + destruct H as [H | H]; [left | right; right]; now split.
  - rewrite (confirm_waits _ _ junk J). reflexivity.
Qed.

Lemma guard_asks_before_killing_witness :
  let w := Broken.kill_fails "kill: (4711): Operation not permitted"
             (Sample.world ["init"; Sample.repo] [] (Sample.fine "4711") true 0) in
  confirmAndKillCura w ["maybe"; EmptyString; "y"]
  = {| outcome := Threw (ThrownOutput "kill: (4711): Operation not permitted");
       events := (looked w :: asks kill_question (Some Yes) (["maybe"] ++ [EmptyString]))
                 ++ [Shell (Kill (Js.Finite 4711 0)) (shell w (Kill (Js.Finite 4711 0)))];
       unread := ["y"] |}.
Proof.
  intros w.
  apply (proj1 (proj2 (guard_asks_before_killing w (Js.Finite 4711 0) ["maybe"]
                         EmptyString ["y"] (conj eq_refl eq_refl)
                         (Forall_cons _ undecided_maybe (Forall_nil _))))).
  right. reflexivity.
Defined.


(** X12.  When the lookup finds no companion process (it exits with 1 and
    prints nothing) both guards let the run pass at once: nothing is asked,
    no line is read, nothing is terminated. *)
Theorem guards_pass_when_clear w i :
  cleared (looked w) = true ->
  confirmAndKillCura w i
  = {| outcome := Returned true; events := [looked w]; unread := i |}
  /\ push_guard w i
     = {| outcome := Returned tt; events := [looked w]; unread := i |}.
Proof.
  intros C. unfold confirmAndKillCura, push_guard, bind.
  rewrite (getCuraPid_clear w i C). split; reflexivity.
Qed.

Lemma guards_pass_when_clear_witness :
  let w := Sample.world ["push"] ["y"] Sample.nothing true 1 in
  confirmAndKillCura w ["y"]
  = {| outcome := Returned true; events := [looked w]; unread := ["y"] |}
  /\ push_guard w ["y"]
     = {| outcome := Returned tt; events := [looked w]; unread := ["y"] |}.
Proof.
  intros w. apply (guards_pass_when_clear w ["y"]). reflexivity.
Defined.

(** X13.  When the lookup neither finds nothing nor prints a number, both
    guards end in an error with no line read and nothing terminated: a
    lookup that does not exit with 0 is shown on standard output and the
    error is "pgrep Cura returned something weird"; one that exits with 0
    with output that is no number gives "No process number returned". *)
Theorem lookup_failure_aborts w i :
  cleared (looked w) = false ->
  (exitCode (lookup w) <> 0%Z ->
   confirmAndKillCura w i
   = {| outcome := Threw (Error "pgrep Cura returned something weird");
        events := [looked w; PrintedValue (lookup w)]; unread := i |}
   /\ push_guard w i
      = {| outcome := Threw (Error "pgrep Cura returned something weird");
           events := [looked w; PrintedValue (lookup w)]; unread := i |})
  /\ (exitCode (lookup w) = 0%Z ->
      Js.Number (Js.trim (stdout (lookup w))) = None ->
      confirmAndKillCura w i
      = {| outcome := Threw (Error "No process number returned");
           events := [looked w]; unread := i |}
      /\ push_guard w i
         = {| outcome := Threw (Error "No process number returned");
              events := [looked w]; unread := i |}).
Proof.
  intros C. unfold confirmAndKillCura, push_guard, bind.
  destruct (getCuraPid_cases w i)
    as [(C' & _) | [(_ & p & E & P & _) | (_ & [(E & P & ->) | (E & ->)])]].
  - congruence.
  - split; intros; congruence.
  - split; intros; [congruence|]. split; reflexivity.
  - split; intros; [|congruence]. split; reflexivity.
Qed.

Lemma lookup_failure_aborts_witness :
  let w := Sample.world ["clone"; Sample.repo] ["y"]
             {| exitCode := 2; stdout := EmptyString;
                stderr := "pgrep: invalid option" |} true 0 in
  confirmAndKillCura w ["y"]
  = {| outcome := Threw (Error "pgrep Cura returned something weird");
       events := [looked w; PrintedValue (lookup w)]; unread := ["y"] |}
  /\ push_guard w ["y"]
     = {| outcome := Threw (Error "pgrep Cura returned something weird");
          events := [looked w; PrintedValue (lookup w)]; unread := ["y"] |}.
Proof.
  intros w.
  apply (proj1 (lookup_failure_aborts w ["y"] eq_refl)). discriminate.
Defined.

(** ** push *)

(** X14.  The push branch asks, when the lookup printed a number that is
    not zero, whether to quit the companion process.  "n" terminates
    nothing, and the push goes on all the same.  "y", or an empty line,
    runs [kill] on that number: when [kill] exits with 0 the run pauses for
    1000 milliseconds and goes on, otherwise it throws what [kill] wrote on
    standard error.  With no deciding line it waits. *)
Theorem push_guard_asks_to_quit w pid junk line rest :
  found w pid ->
  Js.truthy pid = true ->
  Forall undecided junk ->
  let asked := looked w :: asks quit_question (Some Yes) (junk ++ [line]) in
  let out := shell w (Kill pid) in
  (normal line = "n" ->
   push_guard w (junk ++ line :: rest)
   = {| outcome := Returned tt; events := asked; unread := rest |})
  /\ (normal line = "y" \/ normal line = EmptyString ->
      push_guard w (junk ++ line :: rest)
      = if (exitCode out =? 0)%Z then
          {| outcome := Returned tt;
             events := asked ++ [Shell (Kill pid) out; Slept 1000];
             unread := rest |}
        else
          {| outcome := Threw (ThrownOutput (stderr out));
             events := asked ++ [Shell (Kill pid) out];
             unread := rest |})
  /\ push_guard w junk
     = {| outcome := Waiting;
          events := looked w :: asks quit_question (Some Yes) junk
                      ++ [Asked (confirm_prompt quit_question (Some Yes)) None];
          unread := [] |}.
Proof.
  intros F T J asked out. subst asked out.
  unfold push_guard, bind. rewrite !(getCuraPid_found w pid _ F), T.
  repeat split.
  - intros N. rewrite (confirm_settles _ _ junk line rest (Some No) J).
    + cbn [prepend ret app is_yes]. now rewrite app_nil_r.
    + right. left. now split.
  - intros H. rewrite (confirm_settles _ _ junk line rest (Some Yes) J).
    + cbn [is_yes]. rewrite killProcess_run. cbv zeta.
      destruct (exitCode (shell w (Kill pid)) =? 0)%Z; reflexivity.
    + destruct H as [H | H]; [left | right; right]; now split.
  - rewrite (confirm_waits _ _ junk J). reflexivity.
Qed.

Lemma push_guard_asks_to_quit_witness :
  let w := Sample.world ["push"] [] (Sample.fine "4711") true 1 in
  push_guard w ["maybe"; "N"; "message"]
  = {| outcome := Returned tt;
       events := looked w :: asks quit_question (Some Yes) (["maybe"] ++ ["N"]);
       unread := ["message"] |}.
Proof.
  intros w.
  apply (proj1 (push_guard_asks_to_quit w (Js.Finite 4711 0) ["maybe"] "N" ["message"]
                  (conj eq_refl eq_refl) eq_refl
                  (Forall_cons _ undecided_maybe (Forall_nil _)))).
  reflexivity.
Defined.

Lemma bind_assoc {A B C} (m : M A) (k : A -> M B) (h : B -> M C) i :
  bind (bind m k) h i = bind m (fun a => bind (k a) h) i.
Proof.
  unfold bind. destruct (m i) as [o ev u]. destruct o as [a|st|e|]; try reflexivity.
  destruct (k a u) as [o' ev' u']. cbn [prepend].
  destruct o' as [b|st|e|]; try reflexivity.
  destruct (h b u') as [o'' ev'' u'']. cbn [prepend]. now rewrite app_assoc.
Qed.

Lemma main_push_guarded w dir i :
  main_push w dir i = bind (push_guard w) (fun _ => push_rest w dir) i.
Proof. unfold push_guard. rewrite bind_assoc. reflexivity. Qed.

(** The push guard spawns nothing and never exits; when it returns it has
    printed nothing. *)
Lemma push_guard_quiet w i :
  spawned (events (push_guard w i)) = []
  /\ (outcome (push_guard w i) = Returned tt -> printed (events (push_guard w i)) = [])
  /\ forall status, outcome (push_guard w i) <> Exited status.
Proof.
  unfold push_guard, bind.
  destruct (getCuraPid_cases w i)
    as [(_ & ->) | [(_ & pid & _ & _ & ->) | (_ & [(_ & _ & ->) | (_ & ->)])]];
    try (repeat split; try discriminate; reflexivity).
  destruct (Js.truthy pid); [|repeat split; try discriminate; reflexivity].
  destruct (confirm_shape quit_question (Some Yes) i)
    as (junk & J & [[-> E] | (line & rest & a & -> & S & E)]); rewrite E.
  - cbn [prepend events outcome app spawned printed]. autorewrite with events.
    repeat split; try discriminate; reflexivity.
  - destruct S as [[_ ->] | [[_ ->] | [_ ->]]]; cbn [is_yes];
      rewrite ?killProcess_run; cbv zeta;
      try destruct (exitCode (shell w (Kill pid)) =? 0)%Z;
      cbn [prepend events outcome app spawned printed sleep emit ret];
      autorewrite with events; cbn [spawned printed app];
      repeat split; try discriminate; reflexivity.
Qed.

Lemma ask_reads q blanks line rest :
  Forall blank blanks ->
  line <> EmptyString ->
  ask q None (blanks ++ line :: rest)
  = {| outcome := Returned line;
       events := asked_for q None (blanks ++ [line]);
       unread := rest |}.
Proof.
  intros B N. rewrite (ask_skips q None blanks _ eq_refl B), ask_cons, asked_for_snoc.
  destruct line as [|c line]; [contradiction|]. reflexivity.
Qed.

Lemma spawned_asked_for q d lines : spawned (asked_for q d lines) = [].
Proof. induction lines; simpl; auto. Qed.

Lemma printed_asked_for q d lines : printed (asked_for q d lines) = [].
Proof. induction lines; simpl; auto. Qed.

Lemma push_rest_run w dir blanks message rest :
  Forall blank blanks ->
  message <> EmptyString ->
  exitCode (shell w (DiffIndex dir)) = 1%Z ->
  let r := push_rest w dir (blanks ++ message :: rest) in
  let plan := push_plan dir message in
  spawned (events r) = attempted w plan
  /\ (outcome r = Exited 0 <-> forallb (succeeds w) plan = true)
  /\ (outcome r = Exited 0 ->
      exists diff,
        execFileSync w "git" ["diff"; "--staged"; "--stat"] (diff_options dir) = Some diff
        /\ printed (events r)
           = [Printed "pushing config to origin"; Printed (Js.trim diff);
              Printed "pushed config to origin!"]
        /\ unread r = rest)
  /\ (outcome r = Exited 0
      \/ exists a, In a plan /\ succeeds w a = false /\ outcome r = Threw (failure a)).
Proof.
  intros B M D r plan. subst r plan.
  unfold push_rest, isCuraDirty, sh, printDiff, execFile, bind.
  rewrite D. cbn [Z.eqb Pos.eqb negb ret prepend console_log emit app].
  unfold push_plan, diff_options. cbn [attempted succeeds forallb].
  destruct (execFileSync w "git" ["add"; "."] _) eqn:E1.
  2:{ cbn. repeat split; try discriminate.
      right. eexists. split; [left; reflexivity|]. cbn [succeeds]. rewrite E1. now split. }
  destruct (execFileSync w "git" ["diff"; "--staged"; "--stat"] _) as [diff|] eqn:E2.
  2:{ cbn. repeat split; try discriminate.
      right. eexists. split; [right; left; reflexivity|]. cbn [succeeds].
      rewrite E2. now split. }
  cbn [prepend app]. rewrite (ask_reads _ blanks message rest B M).
  destruct (execFileSync w "git" ["commit"; "-m"; "[curasync] " +++ message] _) eqn:E3.
  2:{ cbn [prepend outcome events unread app spawned].
      rewrite spawned_app, spawned_asked_for. cbn [spawned app].
      repeat split; try discriminate.
      right. eexists. split; [right; right; left; reflexivity|]. cbn [succeeds].
      rewrite E3. now split. }
  destruct (execFileSync w "git" ["push"] _) eqn:E4.
  2:{ cbn [prepend outcome events unread app spawned].
      rewrite spawned_app, spawned_asked_for. cbn [spawned app].
      repeat split; try discriminate.
      right. eexists. split; [right; right; right; left; reflexivity|]. cbn [succeeds].
      rewrite E4. now split. }
  cbn [prepend outcome events unread app exit spawned printed].
  rewrite spawned_app, printed_app, spawned_asked_for, printed_asked_for.
  cbn [spawned printed app].
  repeat split; auto.
  intros _. exists diff. repeat split.
Qed.

(** X15.  A push whose guard lets it pass, on a working copy that differs
    from the last commit ([git diff-index] exits with 1), starts, each only
    after the one before it succeeded: [git add .], [git diff --staged
    --stat] (with GIT_PAGER=cat), [git commit -m] with "[curasync] "
    followed by the first line typed that is not empty, as typed, and [git
    push]; all in the configuration directory.  It exits with status 0
    exactly when the four succeed, having printed the announcement, the
    trimmed output of the diff and the closing line; a step that fails
    ends the run in the error of that step. *)
Theorem dirty_push_commits w dir g pos blanks message rest :
  loaded w dir g ->
  parseArgs (argv w) = Some pos ->
  nth_error pos 2 = Some "push" ->
  outcome (push_guard w (stdin w)) = Returned tt ->
  unread (push_guard w (stdin w)) = blanks ++ message :: rest ->
  Forall blank blanks ->
  message <> EmptyString ->
  exitCode (shell w (DiffIndex dir)) = 1%Z ->
  let plan := push_plan dir message in
  spawned (events (run w)) = probes dir ++ attempted w plan
  /\ (outcome (run w) = Exited 0 <-> forallb (succeeds w) plan = true)
  /\ (outcome (run w) = Exited 0 ->
      exists diff,
        execFileSync w "git" ["diff"; "--staged"; "--stat"] (diff_options dir) = Some diff
        /\ printed (events (run w))
           = [Printed "pushing config to origin"; Printed (Js.trim diff);
              Printed "pushed config to origin!"]
        /\ unread (run w) = rest)
  /\ (outcome (run w) = Exited 0
      \/ exists a, In a plan /\ succeeds w a = false
                   /\ outcome (run w) = Threw (failure a)).
Proof.
  intros L P N O U B M D plan. subst plan.
  destruct (push_guard_quiet w (stdin w)) as (Sp & Pr & _). specialize (Pr O).
  assert (R : run w = prepend [Ran git_version true; Ran (git_status dir) g]
                        (prepend (events (push_guard w (stdin w)))
                           (push_rest w dir (blanks ++ message :: rest)))).
  { rewrite (run_loaded w dir g L), (main_dispatch w dir g pos "push" P N).
    cbn [String.eqb Ascii.eqb Bool.eqb]. rewrite main_push_guarded. unfold bind.
    destruct (push_guard w (stdin w)) as [o ev u]. cbn [outcome events unread] in *.
    now subst o u. }
  rewrite R. clear R.
  destruct (push_rest_run w dir blanks message rest B M D) as (S1 & S2 & S3 & S4).
  cbv zeta in S1, S2, S3, S4.
  rewrite !outcome_prepend, !events_prepend, !unread_prepend.
  rewrite !spawned_app, !printed_app, Sp, Pr, S1. cbn [app spawned printed].
  repeat split; try tauto.
Qed.

Lemma dirty_push_commits_witness :
  let w := Sample.world ["push"] ["n"; EmptyString; "Tune supports"; "more"]
             (Sample.fine "4711") true 1 in
  spawned (events (run w))
  = probes Sample.dir ++ push_plan Sample.dir "Tune supports"
  /\ outcome (run w) = Exited 0
  /\ unread (run w) = ["more"].
Proof.
  intros w.
  destruct (dirty_push_commits w Sample.dir true
              ["/usr/bin/bun"; "/usr/bin/curasync"; "push"]
              [EmptyString] "Tune supports" ["more"]
              eq_refl eq_refl eq_refl eq_refl eq_refl
              (Forall_cons _ eq_refl (Forall_nil _)) ltac:(discriminate) eq_refl)
    as (S & O & Pr & _).
  assert (X : outcome (run w) = Exited 0) by (apply O; reflexivity).
  split; [exact S|]. split; [exact X|].
  destruct (Pr X) as (diff & _ & _ & U). exact U.
Defined.
(** ** clone, before the guard *)

(** X16.  The clone branch looks at the URL before it asks anything.  With
    no fourth word, or an empty one, it prints "No URL provided ..." on
    standard error; with a word that does not parse as a URL it prints
    "Invalid URL provided for clone operation: " and the word.  Either way
    it exits with status 1, having asked nothing, read no line and looked
    for no companion process. *)
Theorem clone_rejects_url w dir g pos :
  loaded w dir g ->
  parseArgs (argv w) = Some pos ->
  nth_error pos 2 = Some "clone" ->
  (nth_error pos 3 = None \/ nth_error pos 3 = Some EmptyString ->
   run w = {| outcome := Exited 1;
              events := [Ran git_version true; Ran (git_status dir) g;
                         PrintedError "No URL provided. Invocation: `curasync clone [repo url]`"];
              unread := stdin w |})
  /\ (forall url,
        nth_error pos 3 = Some url ->
        url <> EmptyString ->
        urlParses w url = false ->
        run w = {| outcome := Exited 1;
                   events := [Ran git_version true; Ran (git_status dir) g;
                              PrintedError ("Invalid URL provided for clone operation: "
                                            +++ url)];
                   unread := stdin w |}).
Proof.
  intros L P N. rewrite (run_clone w dir g pos L P N). unfold main_clone. split.
  - intros [E | E]; rewrite E; reflexivity.
  - intros url E U V. rewrite E. destruct url as [|c url]; [contradiction|].
    unfold isValidUrl. rewrite V. reflexivity.
Qed.

Lemma clone_rejects_url_witness :
  let w := Sample.world ["clone"; "example.org/cura.git"] ["y"] Sample.nothing true 0 in
  run w = {| outcome := Exited 1;
             events := [Ran git_version true; Ran (git_status Sample.dir) true;
                        PrintedError ("Invalid URL provided for clone operation: "
                                      +++ "example.org/cura.git")];
             unread := ["y"] |}.
Proof.
  intros w.
  apply (proj2 (clone_rejects_url w Sample.dir true
                  ["/usr/bin/bun"; "/usr/bin/curasync"; "clone"; "example.org/cura.git"]
                  eq_refl eq_refl eq_refl) "example.org/cura.git");
    [reflexivity|discriminate|reflexivity].
Defined.

(** X17.  A clone with a URL that parses asks for confirmation first, and
    the default of that prompt is no: after "n" or an empty line the run
    exits with status 1 having only asked; it looks for no companion
    process and spawns nothing but the probes of the module. *)
Theorem clone_declined_exits w dir g pos url junk line rest :
  loaded w dir g ->
  parseArgs (argv w) = Some pos ->
  nth_error pos 2 = Some "clone" ->
  nth_error pos 3 = Some url ->
  url <> EmptyString ->
  urlParses w url = true ->
  stdin w = junk ++ line :: rest ->
  Forall undecided junk ->
  normal line = "n" \/ normal line = EmptyString ->
  run w = {| outcome := Exited 1;
             events := [Ran git_version true; Ran (git_status dir) g]
                       ++ asks clone_question (Some No) (junk ++ [line]);
             unread := rest |}.
Proof.
  intros L P N E U V I J D. rewrite (run_clone w dir g pos L P N).
  unfold main_clone. rewrite E, I. destruct url as [|c url]; [contradiction|].
  unfold isValidUrl. rewrite V. cbn [negb]. unfold bind.
  rewrite (confirm_settles _ _ junk line rest (Some No) J).
  - cbn [is_yes negb exit prepend app]. now rewrite app_nil_r.
  - destruct D as [D | D]; [right; left | right; right]; now split.
Qed.

Lemma clone_declined_exits_witness :
  let w := Sample.world ["clone"; Sample.repo] ["maybe"; EmptyString; "y"]
             (Sample.fine "4711") true 0 in
  run w = {| outcome := Exited 1;
             events := [Ran git_version true; Ran (git_status Sample.dir) true]
                       ++ asks clone_question (Some No) (["maybe"] ++ [EmptyString]);
             unread := ["y"] |}.
Proof.
  intros w.
  apply (clone_declined_exits w Sample.dir true
           ["/usr/bin/bun"; "/usr/bin/curasync"; "clone"; Sample.repo] Sample.repo
           ["maybe"] EmptyString ["y"]); try reflexivity.
  - discriminate.
  - exact (Forall_cons _ undecided_maybe (Forall_nil _)).
  - right. reflexivity.
Defined.

(** ** init, from the prompts to the plan *)

(** X18.  An init asks for confirmation before it looks at anything else,
    and the default of that prompt is no: after "n" or an empty line the
    run exits with status 1 having only asked, whatever the URL argument
    is, and no message about the URL is printed.  When the directory was a
    working copy already, a "y" is followed by a second prompt about
    overwriting the repository, with the same default and the same exit. *)
Theorem init_declined_exits w dir g pos junk line rest :
  loaded w dir g ->
  parseArgs (argv w) = Some pos ->
  nth_error pos 2 = Some "init" ->
  stdin w = junk ++ line :: rest ->
  Forall undecided junk ->
  (normal line = "n" \/ normal line = EmptyString ->
   run w = {| outcome := Exited 1;
              events := [Ran git_version true; Ran (git_status dir) g]
                        ++ asks init_question (Some No) (junk ++ [line]);
              unread := rest |})
  /\ (forall junk' line' rest',
        normal line = "y" ->
        g = true ->
        rest = junk' ++ line' :: rest' ->
        Forall undecided junk' ->
        normal line' = "n" \/ normal line' = EmptyString ->
        run w = {| outcome := Exited 1;
                   events := [Ran git_version true; Ran (git_status dir) g]
                             ++ asks init_question (Some No) (junk ++ [line])
                             ++ asks overwrite_question (Some No) (junk' ++ [line']);
                   unread := rest' |}).
Proof.
  intros L P N I J. rewrite (run_init w dir g pos L P N), main_init_tail, I.
  unfold bind. split.
  - intros D. rewrite (confirm_settles _ _ junk line rest (Some No) J).
    + cbn [is_yes negb exit prepend app]. now rewrite app_nil_r.
    + destruct D as [D | D]; [right; left | right; right]; now split.
  - intros junk' line' rest' Y -> -> J' D.
    rewrite (confirm_settles _ _ junk line _ (Some Yes) J) by (left; now split).
    cbn [is_yes negb ret prepend app].
    rewrite (confirm_settles _ _ junk' line' rest' (Some No) J').
    + cbn [is_yes negb exit prepend app]. now rewrite !app_nil_r.
    + destruct D as [D | D]; [right; left | right; right]; now split.
Qed.

Lemma init_declined_exits_witness :
  let w := Sample.world ["init"; Sample.repo] ["y"; EmptyString; "y"]
             (Sample.fine "4711") true 0 in
  run w = {| outcome := Exited 1;
             events := [Ran git_version true; Ran (git_status Sample.dir) true]
                       ++ asks init_question (Some No) ([] ++ ["y"])
                       ++ asks overwrite_question (Some No) ([] ++ [EmptyString]);
             unread := ["y"] |}.
Proof.
  intros w.
  apply (proj2 (init_declined_exits w Sample.dir true
                  ["/usr/bin/bun"; "/usr/bin/curasync"; "init"; Sample.repo]
                  [] "y" [EmptyString; "y"] eq_refl eq_refl eq_refl eq_refl
                  (Forall_nil _)) [] EmptyString ["y"]); try reflexivity.
  - constructor.
  - right. reflexivity.
Defined.

Lemma perform_ends w plan u :
  outcome (perform w plan u) = Returned tt
  \/ exists a, In a plan /\ succeeds w a = false
               /\ outcome (perform w plan u) = Threw (failure a).
Proof.
  induction plan as [|a rest IH]; [now left|]. simpl.
  destruct (succeeds w a) eqn:E.
  - rewrite outcome_prepend. destruct IH as [H | (b & I & F & H)]; [now left|].
    right. exists b. auto.
  - right. exists a. auto.
Qed.

Lemma perform_cleared w plan u : existsb cleared (events (perform w plan u)) = false.
Proof.
  induction plan as [|a rest IH]; [reflexivity|]. simpl.
  destruct (succeeds w a); [|reflexivity]. now rewrite events_prepend.
Qed.

Lemma init_tail_cleared w dir g pos url i :
  nth_error pos 3 = Some url ->
  urlParses w url = true ->
  existsb cleared (events (init_tail w dir g pos i)) = true ->
  plan_facts w (init_plan w dir g url) (init_tail w dir g pos i).
Proof.
  intros N V. unfold init_tail. rewrite N. unfold isValidUrl. rewrite V.
  cbn [negb]. unfold bind. rewrite initializeRepo_run.
  pose proof (confirmAndKillCura_facts w i) as (Sp & T & _ & _).
  destruct (confirmAndKillCura w i) as [o ev u]. cbn [outcome events unread] in *.
  destruct o as [[|]|st|e|]; cbn [events];
    try (intros C; apply T in C; discriminate).
  intros _. unfold plan_facts.
  pose proof (perform_spawned w (init_plan w dir g url) u) as PS.
  pose proof (perform_returns w (init_plan w dir g url) u) as PR.
  pose proof (perform_ends w (init_plan w dir g url) u) as PE.
  destruct (perform w (init_plan w dir g url) u) as [o' ev' u'].
  cbn [outcome events unread prepend] in *.
  destruct o' as [[]|st|e|]; cbn [outcome events prepend exit app];
    rewrite ?app_nil_r, spawned_app, Sp, PS; cbn [app].
  - split; [reflexivity|]. split; [|now left]. split; [intros _; now apply PR|reflexivity].
  - destruct PE as [PE | (a & _ & _ & PE)]; discriminate.
  - split; [reflexivity|]. split.
    + split; [discriminate|]. intros H. apply PR in H. discriminate.
    + right. destruct PE as [PE | PE]; [discriminate|exact PE].
  - destruct PE as [PE | (a & _ & _ & PE)]; discriminate.
Qed.

Lemma main_init_cleared w dir g pos url i :
  nth_error pos 3 = Some url ->
  urlParses w url = true ->
  existsb cleared (events (main_init w dir g pos i)) = true ->
  plan_facts w (init_plan w dir g url) (main_init w dir g pos i).
Proof.
  intros N V. remember (main_init w dir g pos i) as r eqn:R.
  rewrite main_init_tail in R. unfold bind in R.
  destruct (confirm_shape init_question (Some No) i)
    as (junk & J & [[-> E] | (line & rest & a & -> & S & E)]); rewrite E in R;
    run_in R; clear E.
  { subst r. cbn [events]. autorewrite with events. discriminate. }
  destruct S as [[Hy ->] | [[Hn ->] | [He ->]]]; run_in R;
    try (subst r; cbn [events]; autorewrite with events; discriminate).
  assert (Tail : forall i',
             r = prepend (asks init_question (Some No) (junk ++ [line]))
                   (init_tail w dir g pos i') ->
             existsb cleared (events r) = true ->
             plan_facts w (init_plan w dir g url) r).
  { intros i' -> C. rewrite events_prepend, existsb_app, existsb_quiet_cleared in C.
    cbn [orb] in C.
    destruct (init_tail_cleared w dir g pos url i' N V C) as (F1 & F2 & F3).
    unfold plan_facts.
    rewrite events_prepend, outcome_prepend, spawned_app, spawned_asks. auto. }
  destruct g; run_in R.
  - destruct (confirm_shape overwrite_question (Some No) rest)
      as (junk' & J' & [[-> E] | (line' & rest' & a & -> & S & E)]); rewrite E in R;
      run_in R; clear E.
    { subst r. cbn [events]. autorewrite with events. discriminate. }
    destruct S as [[Hy' ->] | [[Hn' ->] | [He' ->]]]; run_in R;
      try (subst r; cbn [events]; autorewrite with events; discriminate).
    intros C.
    destruct (init_tail w dir true pos rest') as [o ev u] eqn:T.
    run_in R. subst r. cbn [events] in C.
    rewrite !existsb_app, !existsb_quiet_cleared in C. cbn [orb] in C.
    assert (C' : existsb cleared (events (init_tail w dir true pos rest')) = true)
      by now rewrite T.
    destruct (init_tail_cleared w dir true pos url rest' N V C') as (F1 & F2 & F3).
    rewrite T in F1, F2, F3. cbn [outcome events] in F1, F2, F3.
    unfold plan_facts. cbn [outcome events].
    rewrite !spawned_app, !spawned_asks. auto.
  - apply (Tail rest).
    destruct (init_tail w dir false pos rest) as [o ev u]. now subst r.
Qed.

(** X19.  An init with a URL that parses, once its guard let it pass (the
    lookup found no companion process, or a termination succeeded), starts
    the steps of [initializeRepo] and nothing else, each only after the one
    before it succeeded; it exits with status 0 exactly when all of them
    succeed, the write of the ignore file included, and otherwise ends in
    the error of the step that failed, with the steps before it done and
    not undone. *)
Theorem init_runs_plan w dir g pos url :
  loaded w dir g ->
  parseArgs (argv w) = Some pos ->
  nth_error pos 2 = Some "init" ->
  nth_error pos 3 = Some url ->
  urlParses w url = true ->
  existsb cleared (events (run w)) = true ->
  let plan := init_plan w dir g url in
  spawned (events (run w)) = probes dir ++ attempted w plan
  /\ (outcome (run w) = Exited 0 <-> forallb (succeeds w) plan = true)
  /\ (outcome (run w) = Exited 0
      \/ exists a, In a plan /\ succeeds w a = false
                   /\ outcome (run w) = Threw (failure a)).
Proof.
  intros L P N2 N3 V C plan. subst plan.
  rewrite (run_init w dir g pos L P N2) in *.
  rewrite events_prepend, outcome_prepend in *. cbn [app existsb cleared orb] in C.
  destruct (main_init_cleared w dir g pos url (stdin w) N3 V C) as (F1 & F2 & F3).
  rewrite spawned_app, F1. auto.
Qed.

Lemma init_runs_plan_witness :
  let w := Broken.failing "git" "push"
             (Sample.world ["init"; Sample.repo] ["y"] Sample.nothing false 0) in
  spawned (events (run w))
  = probes Sample.dir
    ++ [Spawn "git" ["init"] (in_dir Sample.dir);
        Spawn "git" ["remote"; "add"; "origin"; Sample.repo] (in_dir Sample.dir);
        Spawn "git" ["add"; "."] (in_dir Sample.dir);
        Spawn "git" ["commit"; "-m"; "[curasync] init"] (in_dir Sample.dir);
        Spawn "git" ["push"; "-u"; "origin"; "main"] (in_dir Sample.dir)].
Proof.
  intros w.
  exact (proj1 (init_runs_plan w Sample.dir false
                  ["/usr/bin/bun"; "/usr/bin/curasync"; "init"; Sample.repo] Sample.repo
                  eq_refl eq_refl eq_refl eq_refl eq_refl eq_refl)).
Defined.
(** ** Every run, under a monitor

    The rules below take a monitor through the program statement by
    statement; they are those of a weakest precondition. *)

Section Rules.

Context {State : Type}.
Variable step : State -> Event -> State.
Variable allowed : State -> Event -> Prop.

Lemma after_app s l l' : after step s (l ++ l') = after step (after step s l) l'.
Proof. apply fold_left_app. Qed.

Lemma accepted_app s l l' :
  accepted step allowed s (l ++ l')
  <-> accepted step allowed s l /\ accepted step allowed (after step s l) l'.
Proof.
  revert s. induction l as [|e l IH]; intros s; simpl; [tauto|].
  rewrite IH. tauto.
Qed.

Lemma wp_ret {A} (a : A) Q s : Q (Returned a) s -> wp step allowed (ret a) Q s.
Proof. intros H input. now split. Qed.

Lemma wp_throw {A} e (Q : Outcome A -> State -> Prop) s :
  Q (Threw e) s -> wp step allowed (throw e) Q s.
Proof. intros H input. now split. Qed.

Lemma wp_exit {A} status (Q : Outcome A -> State -> Prop) s :
  Q (Exited status) s -> wp step allowed (exit status) Q s.
Proof. intros H input. now split. Qed.

Lemma wp_emit e Q s :
  allowed s e -> Q (Returned tt) (step s e) -> wp step allowed (emit e) Q s.
Proof. intros H1 H2 input. simpl. auto. Qed.

Lemma wp_bind {A B} (m : M A) (k : A -> M B) Q s :
  wp step allowed m (then_wp step allowed k Q) s ->
  wp step allowed (bind m k) Q s.
Proof.
  intros H input. specialize (H input). unfold bind.
  destruct (m input) as [o ev u]. cbn [outcome events] in H. destruct H as [Acc Post].
  destruct o as [a|st|e|]; cbn [then_wp] in Post; try (now split).
  specialize (Post u). destruct Post as [Acc' Post].
  rewrite events_prepend, outcome_prepend, accepted_app, after_app. auto.
Qed.

Lemma wp_execFile w file args opts Q s :
  allowed s (Ran (Spawn file args opts) true) ->
  (forall out, Q (Returned out) (step s (Ran (Spawn file args opts) true))) ->
  allowed s (Ran (Spawn file args opts) false) ->
  Q (Threw (SpawnError file args)) (step s (Ran (Spawn file args opts) false)) ->
  wp step allowed (execFile w file args opts) Q s.
Proof.
  intros H1 H2 H3 H4 input. unfold execFile.
  destruct (execFileSync w file args opts); simpl; auto.
Qed.

Lemma wp_execFile_succeeds w file args opts Q s :
  (forall ok, allowed s (Ran (Spawn file args opts) ok)
              /\ Q (Returned ok) (step s (Ran (Spawn file args opts) ok))) ->
  wp step allowed (execFile_succeeds w file args opts) Q s.
Proof.
  intros H input. unfold execFile_succeeds. simpl.
  destruct (H match execFileSync w file args opts with Some _ => true | None => false end).
  auto.
Qed.

Lemma wp_writeFile w path data Q s :
  allowed s (Ran (WriteFile path data) true) ->
  Q (Returned tt) (step s (Ran (WriteFile path data) true)) ->
  allowed s (Ran (WriteFile path data) false) ->
  Q (Threw (WriteError path)) (step s (Ran (WriteFile path data) false)) ->
  wp step allowed (writeFile w path data) Q s.
Proof.
  intros H1 H2 H3 H4 input. unfold writeFile.
  destruct (writeFileSync w path data); simpl; auto.
Qed.

Lemma wp_sh w c Q s :
  allowed s (Shell c (shell w c)) ->
  Q (Returned (shell w c)) (step s (Shell c (shell w c))) ->
  wp step allowed (sh w c) Q s.
Proof. intros H1 H2 input. simpl. auto. Qed.

(** The prompts, under an invariant of the monitor that asking keeps. *)
Lemma wp_confirm (Inv : State -> Prop) q d Q s :
  Inv s ->
  (forall s' line, Inv s' -> allowed s' (Asked (confirm_prompt q d) line)) ->
  (forall s' line, Inv s' -> undecided line ->
                   Inv (step s' (Asked (confirm_prompt q d) (Some line)))) ->
  (forall s' line a, Inv s' -> settles d line a ->
                     Q (Returned a) (step s' (Asked (confirm_prompt q d) (Some line)))) ->
  (forall s', Inv s' -> Q Waiting (step s' (Asked (confirm_prompt q d) None))) ->
  wp step allowed (confirm q d) Q s.
Proof.
  intros I0 Al Keep Post Wait input. revert s I0.
  induction input as [|line rest IH]; intros s I0.
  - simpl. auto.
  - rewrite confirm_cons. cbv zeta.
    destruct (normal line =? "y")%string eqn:Ey.
    { apply String.eqb_eq in Ey. simpl. repeat split; auto.
      apply Post; [assumption|]. left. now split. }
    destruct (normal line =? "n")%string eqn:En.
    { apply String.eqb_eq in En. simpl. repeat split; auto.
      apply Post; [assumption|]. right. left. now split. }
    destruct (normal line =? EmptyString)%string eqn:Ee.
    { apply String.eqb_eq in Ee. simpl. repeat split; auto.
      apply Post; [assumption|]. right. right. now split. }
    apply String.eqb_neq in Ey, En, Ee.
    rewrite events_prepend, outcome_prepend. cbn [app accepted after fold_left].
    split; [split; [now apply Al|]|]; apply IH, Keep; repeat split; assumption.
Qed.

Lemma wp_ask (Inv : State -> Prop) q d Q s :
  Inv s ->
  (forall s' line, Inv s' -> allowed s' (Asked (ask_prompt q d) line)) ->
  (forall s' line, Inv s' -> Inv (step s' (Asked (ask_prompt q d) (Some line)))) ->
  (forall s' line v, Inv s' ->
                     Q (Returned v) (step s' (Asked (ask_prompt q d) (Some line)))) ->
  (forall s', Inv s' -> Q Waiting (step s' (Asked (ask_prompt q d) None))) ->
  wp step allowed (ask q d) Q s.
Proof.
  intros I0 Al Keep Post Wait input. revert s I0.
  induction input as [|line rest IH]; intros s I0.
  - simpl. auto.
  - rewrite ask_cons. cbv zeta.
    destruct line as [|c line]; destruct (usable_default d);
      try (simpl; repeat split; now auto).
    rewrite events_prepend, outcome_prepend. cbn [app accepted after fold_left].
    split; [split; [now apply Al|]|]; apply IH, Keep; assumption.
Qed.

Lemma wp_getDefaultCuraDirectory w Q s :
  (forall dir, directory w dir -> Q (Returned dir) s) ->
  Q (Threw (Error "Unknown OS")) s ->
  wp step allowed (getDefaultCuraDirectory w) Q s.
Proof.
  intros H1 H2 input.
  destruct (getDefaultCuraDirectory_run w input) as [[dir E] | E]; rewrite E; simpl.
  - split; [exact I|]. apply H1. apply (directory_of_outcome w dir input). now rewrite E.
  - auto.
Qed.

Lemma wp_getOperatingSystem w Q s :
  (forall os, Q (Returned os) s) ->
  Q (Threw (Error "Unknown OS")) s ->
  wp step allowed (getOperatingSystem w) Q s.
Proof.
  intros H1 H2 input.
  destruct (getOperatingSystem_run w input) as [[os E] | E]; rewrite E; simpl; auto.
Qed.

(** What a monitor accepted of a run, it accepted of every event. *)
Lemma accepted_at s l before e rest :
  accepted step allowed s l -> l = before ++ e :: rest ->
  allowed (after step s before) e
  /\ accepted step allowed (step (after step s before) e) rest.
Proof.
  intros H ->. apply accepted_app in H as [_ H]. exact H.
Qed.

Lemma wp_run w Q s :
  wp step allowed (curasync w) Q s ->
  accepted step allowed s (events (run w))
  /\ Q (outcome (run w)) (after step s (events (run w))).
Proof. intros H. exact (H (stdin w)). Qed.

End Rules.

(** One step of the program under a monitor; [inv] gives, from the state
    the monitor is in, the invariant for a prompt. *)
Ltac wp_step inv :=
  cbv beta; cbn [then_wp];
  match goal with
  | |- wp _ _ (bind _ _) _ _ => apply wp_bind
  | |- wp _ _ (ret _) _ _ => apply wp_ret
  | |- wp _ _ (throw _) _ _ => apply wp_throw
  | |- wp _ _ (exit _) _ _ => apply wp_exit
  | |- wp _ _ (emit _) _ _ => apply wp_emit
  | |- wp _ _ (console_log _) _ _ => apply wp_emit
  | |- wp _ _ (console_error _) _ _ => apply wp_emit
  | |- wp _ _ (sleep _) _ _ => apply wp_emit
  | |- wp _ _ printHelp _ _ => apply wp_emit
  | |- wp _ _ (execFile _ _ _ _) _ _ => apply wp_execFile
  | |- wp _ _ (execFile_succeeds _ _ _ _) _ _ => apply wp_execFile_succeeds
  | |- wp _ _ (writeFile _ _ _) _ _ => apply wp_writeFile
  | |- wp _ _ (sh _ _) _ _ => apply wp_sh
  | |- wp _ _ (getDefaultCuraDirectory _) _ _ => apply wp_getDefaultCuraDirectory
  | |- wp _ _ (getOperatingSystem _) _ _ => apply wp_getOperatingSystem
  | |- wp _ _ (confirm _ _) _ ?s => let I := inv s in apply (wp_confirm _ _ I)
  | |- wp _ _ (ask _ _) _ ?s => let I := inv s in apply (wp_ask _ _ I)
  | |- wp _ _ (curasync _) _ _ => unfold curasync
  | |- wp _ _ (load _) _ _ => unfold load
  | |- wp _ _ (checkCuraDirectory _) _ _ => unfold checkCuraDirectory
  | |- wp _ _ (checkGitInstallation _) _ _ => unfold checkGitInstallation
  | |- wp _ _ (checkCuraVersionDirectory _ _) _ _ => unfold checkCuraVersionDirectory
  | |- wp _ _ (checkGitInitialization _ _) _ _ => unfold checkGitInitialization
  | |- wp _ _ (main _ _ _) _ _ => unfold main
  | |- wp _ _ (main_init _ _ _ _) _ _ => unfold main_init
  | |- wp _ _ (main_clone _ _) _ _ => unfold main_clone
  | |- wp _ _ (main_pull _ _) _ _ => unfold main_pull
  | |- wp _ _ (main_push _ _) _ _ => unfold main_push
  | |- wp _ _ (printInfo _ _ _) _ _ => unfold printInfo
  | |- wp _ _ (printDiff _ _) _ _ => unfold printDiff
  | |- wp _ _ (isCuraDirty _ _) _ _ => unfold isCuraDirty
  | |- wp _ _ (initializeRepo _ _ _ _) _ _ => unfold initializeRepo
  | |- wp _ _ (confirmAndKillCura _) _ _ => unfold confirmAndKillCura
  | |- wp _ _ (getCuraPid _) _ _ => unfold getCuraPid
  | |- wp _ _ (killProcess _ _) _ _ => unfold killProcess
  | |- wp _ _ (if ?b then _ else _) _ _ => destruct b eqn:?
  | |- wp _ _ (match ?x with _ => _ end) _ _ => destruct x eqn:?
  | |- wp _ _ (let _ := _ in _) _ _ => cbv zeta
  | |- _ /\ _ => split
  | |- forall _, _ => intro
  end.

(** *** No termination without consent *)






(** *** Nothing but git, the backup and the ignore file *)

Lemma directory_unique w d1 d2 : directory w d1 -> directory w d2 -> d1 = d2.
Proof.
  intros H1 H2. specialize (H1 []). specialize (H2 []). congruence.
Qed.

Ltac one_directory w dir :=
  repeat match goal with
         | D : directory w dir, H : directory w ?d |- _ =>
           tryif unify d dir then fail else
             (pose proof (directory_unique w d dir H D); subst d)
         end.

Ltac permit :=
  cbn [action_allowed permitted cwd in_dir in_dir_with fst snd]; try exact I;
  first [ left; split; [reflexivity|]; first [left; reflexivity | right; reflexivity]
        | right; left; repeat split; reflexivity
        | right; right; left; split; reflexivity
        | right; right; right; split; reflexivity
        | split; reflexivity ].

Lemma action_monitor w dir :
  directory w dir ->
  wp no_step (action_allowed w dir) (curasync w) (fun _ _ => True) tt.
Proof.
  intros D.
  repeat wp_step ltac:(fun _ => constr:(fun _ : unit => True)); try exact I.
  all: one_directory w dir; permit.
Qed.

Lemma accepted_actions w dir s l :
  accepted no_step (action_allowed w dir) s l -> Forall (permitted w dir) (spawned l).
Proof.
  revert s. induction l as [|e l IH]; intros s; [constructor|].
  intros [A R]. specialize (IH _ R). destruct e; cbn [spawned]; auto.
Qed.

(** X21.  In every run the program starts no subprocess and writes no
    file but these: git, in the configuration directory unless it is [git
    --version]; [rm -rf .git] in the configuration directory; [mv] of the
    configuration directory to its backup; [mkdir] of the configuration
    directory; and the write of the fixed ignore list to [.gitignore] in
    the configuration directory. *)
Theorem only_permitted_actions w dir :
  directory w dir ->
  Forall (permitted w dir) (spawned (events (run w))).
Proof.
  intros D. destruct (wp_run _ _ w _ _ (action_monitor w dir D)) as [Acc _].
  now apply accepted_actions in Acc.
Qed.

Lemma only_permitted_actions_witness :
  let w := Sample.world ["clone"; Sample.repo] ["y"; "y"] (Sample.fine "4711") true 0 in
  Forall (permitted w Sample.dir) (spawned (events (run w))).
Proof.
  intros w. apply (only_permitted_actions w Sample.dir). intros j. reflexivity.
Defined.

(** *** A failure is the end *)

Ltac no_failure :=
  subst;
  cbn [fail_allowed fail_step failed is_probe fail_post
       String.eqb Ascii.eqb Bool.eqb andb orb];
  try reflexivity;
  try (split;
       [ intros ? [=]; subst; reflexivity
       | intros ? [=]; subst; auto ]).

Lemma fail_monitor w : wp fail_step fail_allowed (curasync w) fail_post None.
Proof.
  repeat first [ wp_step ltac:(fun s => constr:(eq s))
               | match goal with ok : bool |- _ => destruct ok end ].
  all: no_failure.
Qed.

Lemma accepted_failed a l : accepted fail_step fail_allowed (Some a) l -> l = [].
Proof. destruct l as [|e l]; [reflexivity|]. intros [H _]. discriminate. Qed.

(** X22.  In every run a subprocess or a file write that fails, other
    than the two probes of the module, is the last thing the run does: no
    event follows it, nothing is retried or undone, and the run ends in the
    uncaught error of that very call. *)
Theorem failure_ends_run w before a rest :
  events (run w) = before ++ Ran a false :: rest ->
  is_probe (Ran a false) = false ->
  rest = [] /\ outcome (run w) = Threw (failure a).
Proof.
  intros E NP. destruct (wp_run _ _ w _ _ (fail_monitor w)) as [Acc [Post _]].
  destruct (accepted_at _ _ _ _ _ _ _ Acc E) as [B R].
  unfold fail_allowed in B. rewrite B in R. cbn [fail_step failed] in R.
  rewrite NP in R. apply accepted_failed in R. subst rest. split; [reflexivity|].
  apply Post. rewrite E, after_app, B. cbn [after fold_left fail_step failed].
  now rewrite NP.
Qed.

Lemma failure_ends_run_witness :
  let w := Broken.failing "mkdir" Sample.dir
             (Sample.world ["clone"; Sample.repo] ["y"] Sample.nothing true 0) in
  skipn 7 (events (run w)) = []
  /\ outcome (run w) = Threw (failure (Spawn "mkdir" [Sample.dir] no_options)).
Proof.
  intros w.
  apply (failure_ends_run w (firstn 6 (events (run w)))
           (Spawn "mkdir" [Sample.dir] no_options) (skipn 7 (events (run w))));
    reflexivity.
Defined.

(** X23.  Whenever a run ends, the exit status of the process is 0 or 1:
    [process.exit] is only ever given 0 or 1, and an uncaught error makes
    the runtime end the process with 1. *)
Theorem exit_status_0_or_1 w status :
  exit_status (outcome (run w)) = Some status -> status = 0%Z \/ status = 1%Z.
Proof.
  destruct (wp_run _ _ w _ _ (fail_monitor w)) as [_ [_ Post]].
  destruct (outcome (run w)) as [[]|st|e|]; cbn [exit_status]; intros [=]; subst.
  - now apply Post.
  - now right.
Qed.

Lemma exit_status_0_or_1_witness :
  let w := Sample.world ["push"] [] Sample.nothing true 0 in
  exists status,
    exit_status (outcome (run w)) = Some status /\ (status = 0%Z \/ status = 1%Z).
Proof.
  intros w. exists 1%Z. split; [reflexivity|].
  apply (exit_status_0_or_1 w 1%Z). reflexivity.
Defined.

(** *** Lines on standard error *)

Ltac complaint :=
  subst;
  cbn [complaint_allowed complaint_step complaint_post];
  try exact I; try reflexivity;
  try (intros X; try reflexivity; now destruct X).

Lemma complaint_monitor w :
  wp complaint_step complaint_allowed (curasync w) complaint_post Working.
Proof.
  repeat wp_step ltac:(fun s => constr:(eq s)).
  all: complaint.
Qed.

(** X24.  In every run a line the program writes on standard error is
    the last thing it says, but for the usage screen that follows the
    report of an unrecognized command; nothing else happens after it and
    the run exits with status 1. *)
Theorem complaint_ends_run w before message rest :
  events (run w) = before ++ PrintedError message :: rest ->
  outcome (run w) = Exited 1
  /\ (rest = [] \/ rest = [Printed help_text]).
Proof.
  intros E. destruct (wp_run _ _ w _ _ (complaint_monitor w)) as [Acc Post].
  destruct (accepted_at _ _ _ _ _ _ _ Acc E) as [B R].
  unfold complaint_post in Post. rewrite E, after_app in Post.
  destruct (after complaint_step Working before);
    [|discriminate B|contradiction].
  cbn [complaint_step] in R.
  destruct rest as [|e [|e' rest]].
  - split; [|now left]. apply Post. discriminate.
  - destruct R as [-> _]. split; [|now right]. apply Post. discriminate.
  - destruct R as [_ [[] _]].
Qed.

Lemma complaint_ends_run_witness :
  let w := Sample.world ["fetch"] ["y"] Sample.nothing true 0 in
  outcome (run w) = Exited 1
  /\ (skipn 3 (events (run w)) = [] \/ skipn 3 (events (run w)) = [Printed help_text]).
Proof.
  intros w.
  apply (complaint_ends_run w (firstn 2 (events (run w))) "unrecognized command fetch"
           (skipn 3 (events (run w)))).
  reflexivity.
Defined.

(** *** How a run ends *)

Ltac ending :=
  subst; cbn [open_allowed open_step unanswered end_post]; try reflexivity.

Lemma end_monitor w : wp open_step open_allowed (curasync w) end_post false.
Proof.
  repeat wp_step ltac:(fun s => constr:(eq s)).
  all: ending.
Qed.

Lemma after_open s l :
  after open_step s l = true
  <-> (l = [] /\ s = true) \/ exists before prompt, l = before ++ [Asked prompt None].
Proof.
  destruct l as [|e l] using rev_ind.
  - cbn. split; [auto|]. intros [[_ H] | (b & p & H)]; [assumption|].
    destruct b; discriminate.
  - unfold after. rewrite fold_left_app. cbn [fold_left open_step]. split.
    + intros H. right. exists l.
      destruct e as [| |p [line|]| | | |]; try discriminate. now exists p.
    + intros [[H _] | (b & p & H)]; [destruct l; discriminate|].
      apply app_inj_tail in H as [_ ->]. reflexivity.
Qed.

(** X25.  No run falls off the end of [main]: every path through the
    program ends in [process.exit] or in an uncaught error, unless the run
    is left waiting; and it waits exactly when its last event is a prompt
    no line came for. *)
Theorem run_never_returns w :
  (forall v, outcome (run w) <> Returned v)
  /\ (outcome (run w) = Waiting
      <-> exists before prompt, events (run w) = before ++ [Asked prompt None]).
Proof.
  destruct (wp_run _ _ w _ _ (end_monitor w)) as [_ Post].
  pose proof (after_open false (events (run w))) as A.
  unfold end_post in Post.
  destruct (outcome (run w)) as [v|st|e|]; try contradiction; split;
    try discriminate.
  - split; [discriminate|]. intros H.
    assert (X : after open_step false (events (run w)) = true) by (apply A; now right).
    congruence.
  - split; [discriminate|]. intros H.
    assert (X : after open_step false (events (run w)) = true) by (apply A; now right).
    congruence.
  - split; [|reflexivity]. intros _.
    apply A in Post as [[_ H] | H]; [discriminate|exact H].
Qed.

(** *** The shell command lines of a run *)

Lemma after_shells s l : after shell_step s l = s ++ shells l.
Proof.
  revert s. induction l as [|e l IH]; intros s; cbn [after fold_left shells].
  - now rewrite app_nil_r.
  - change (fold_left shell_step l (shell_step s e)) with (after shell_step (shell_step s e) l).
    rewrite IH. unfold shell_step. rewrite <- app_assoc. f_equal.
    destruct e; reflexivity.
Qed.

Ltac same_directory w :=
  repeat match goal with
         | H1 : directory w ?a, H2 : directory w ?b |- _ =>
           tryif unify a b then fail else
             (pose proof (directory_unique w b a H2 H1); subst b)
         end.

Ltac shape :=
  subst; cbn [any_event shell_post shell_step shells app fst snd];
  try exact I; try reflexivity;
  unfold shell_shape; cbv zeta;
  first [ left; reflexivity
        | right; left; reflexivity
        | right; right; left; eexists; reflexivity
        | right; right; right; left; eexists; split; [eassumption|reflexivity]
        | right; right; right; right; do 2 eexists; split; [eassumption|reflexivity] ].

Lemma shell_monitor w : wp shell_step any_event (curasync w) (shell_post w) [].
Proof.
  repeat wp_step ltac:(fun s => constr:(eq s)).
  all: same_directory w; shape.
Qed.

(** X26.  In every run the shell command lines are, in order: none at
    all; or the lookup of UltiMaker-Cura, once; then at most one [kill];
    then, in a push, the one [git diff-index] in the configuration
    directory.  After a [kill] the companion process is not looked up
    again. *)
Theorem shell_commands_of_a_run w : shell_shape w (shells (events (run w))).
Proof.
  destruct (wp_run _ _ w _ _ (shell_monitor w)) as [_ Post].
  unfold shell_post in Post. now rewrite after_shells in Post.
Qed.
